(** * JobPilotAI: a shallow embedding of the pipeline's decision logic

  The development follows the Python sources module by module:
  [security.py], [scheduler.py], [qa_bank.py], [scoring_engine.py],
  [rate_limiter.py], [dedup_engine.py], [apply_engine.py] and
  [material_manager.py].  Python [int] is [Z], [str] is [string]
  (ASCII text), a [dict] used as a map is a [gmap], a [dict] whose
  iteration order matters is an association list, and Python floats
  are idealised as exact rationals ([Q]); the variant score of
  [material_manager.py] is modelled on binary64 doubles as well. *)

From Stdlib Require Import ZArith QArith Qround Qminmax Lia Bool Ascii String.
From Stdlib Require Import DecimalString Lqa Sorted Permutation Qabs Qpower.
From stdpp Require Import base gmap strings list.

Local Open Scope string_scope.
Local Open Scope Z_scope.

(** ** Python string primitives *)

Module PyStr.

(** [len(s)] as a Python integer. *)
Definition len (s : string) : Z := Z.of_nat (String.length s).

(** [c.lower()] on ASCII letters. *)
Definition lower_ascii (c : ascii) : ascii :=
  let n := nat_of_ascii c in
  if (65 <=? n)%nat && (n <=? 90)%nat then ascii_of_nat (n + 32) else c.

(** [s.lower()]. *)
Fixpoint lower (s : string) : string :=
  match s with
  | EmptyString => EmptyString
  | String c r => String (lower_ascii c) (lower r)
  end.

(** [c.isspace()] on ASCII: tab, LF, VT, FF, CR, FS, GS, RS, US, space. *)
Definition is_space (c : ascii) : bool :=
  let n := nat_of_ascii c in
  ((9 <=? n)%nat && (n <=? 13)%nat) || ((28 <=? n)%nat && (n <=? 32)%nat).

(** Drop the longest prefix whose characters satisfy [p]. *)
Fixpoint drop_while (p : ascii -> bool) (s : string) : string :=
  match s with
  | EmptyString => EmptyString
  | String c r => if p c then drop_while p r else s
  end.

(** Drop the longest suffix whose characters satisfy [p]. *)
Fixpoint drop_while_end (p : ascii -> bool) (s : string) : string :=
  match s with
  | EmptyString => EmptyString
  | String c r =>
      match drop_while_end p r with
      | EmptyString => if p c then EmptyString else String c EmptyString
      | r' => String c r'
      end
  end.

(** [s.strip()]. *)
Definition strip (s : string) : string :=
  drop_while_end is_space (drop_while is_space s).

(** [s.rstrip(c)] for a single character [c]. *)
Definition rstrip_char (c : ascii) (s : string) : string :=
  drop_while_end (fun x => if ascii_dec x c then true else false) s.

(** First [n] characters. *)
Fixpoint take (n : nat) (s : string) : string :=
  match n, s with
  | O, _ => EmptyString
  | _, EmptyString => EmptyString
  | S n', String c r => String c (take n' r)
  end.

(** The slice [s[:n]] for a Python integer [n]; a negative bound counts
    from the end. *)
Definition slice_to (s : string) (n : Z) : string :=
  if 0 <=? n then take (Z.to_nat n) s
  else take (Z.to_nat (len s + n)) s.

(** [s.startswith(p)]. *)
Fixpoint starts_with (p s : string) : bool :=
  match p, s with
  | EmptyString, _ => true
  | String a p', String b s' => if ascii_dec a b then starts_with p' s' else false
  | String _ _, EmptyString => false
  end.

(** [needle in haystack]. *)
Fixpoint contains (needle haystack : string) : bool :=
  starts_with needle haystack ||
  match haystack with
  | EmptyString => false
  | String _ r => contains needle r
  end.

(** [s.split()]: maximal runs of non-whitespace characters. *)
Fixpoint split_ws_aux (cur : string) (s : string) : list string :=
  match s with
  | EmptyString => match cur with EmptyString => [] | _ => [cur] end
  | String c r =>
      if is_space c
      then match cur with
           | EmptyString => split_ws_aux EmptyString r
           | _ => cur :: split_ws_aux EmptyString r
           end
      else split_ws_aux (cur +:+ String c EmptyString) r
  end.

Definition split_ws (s : string) : list string := split_ws_aux EmptyString s.

(** Truthiness of a string. *)
Definition truthy (s : string) : bool :=
  match s with EmptyString => false | _ => true end.

(** [c in chars] for a character [c]. *)
Fixpoint char_in (c : ascii) (chars : string) : bool :=
  match chars with
  | EmptyString => false
  | String x r => Ascii.eqb c x || char_in c r
  end.

(** [s.replace(c, val)] for a one-character key [c]. *)
Fixpoint replace_char (c : ascii) (val s : string) : string :=
  match s with
  | EmptyString => EmptyString
  | String x r =>
      if Ascii.eqb x c then val +:+ replace_char c val r
      else String x (replace_char c val r)
  end.

(** [re.sub("[...]", repl, s)] for a character class [p]. *)
Fixpoint sub_class (p : ascii -> bool) (repl s : string) : string :=
  match s with
  | EmptyString => EmptyString
  | String x r =>
      if p x then repl +:+ sub_class p repl r else String x (sub_class p repl r)
  end.

(** [re.sub("c+", "c", s)]: every run of [c] shrinks to a single [c]. *)
Fixpoint collapse_runs (c : ascii) (s : string) : string :=
  match s with
  | EmptyString => EmptyString
  | String x r =>
      if Ascii.eqb x c && starts_with (String c EmptyString) r
      then collapse_runs c r
      else String x (collapse_runs c r)
  end.

(** [s.lstrip(chars)] and [s.rstrip(chars)]. *)
Definition lstrip_chars (chars s : string) : string :=
  drop_while (fun c => char_in c chars) s.

Definition rstrip_chars (chars s : string) : string :=
  drop_while_end (fun c => char_in c chars) s.

(** *** Auxiliary notions *)

(** Every character of [s] satisfies [p]. *)
Fixpoint all_chars (p : ascii -> bool) (s : string) : bool :=
  match s with
  | EmptyString => true
  | String c r => p c && all_chars p r
  end.

(** [s] is not empty and its first character satisfies [p]. *)
Definition head_sat (p : ascii -> bool) (s : string) : bool :=
  match s with
  | EmptyString => false
  | String c _ => p c
  end.

(** No two neighbouring characters of [s] are both [c]. *)
Fixpoint no_double (c : ascii) (s : string) : bool :=
  match s with
  | EmptyString => true
  | String x r =>
      negb (Ascii.eqb x c && starts_with (String c EmptyString) r) && no_double c r
  end.

End PyStr.

(** ** Python list primitives *)

Module PyList.

(** One step of [sorted(xs, key=key, reverse=True)]: [x] goes in front
    of the first element whose key is not larger than its own. *)
Fixpoint insert_desc {A} (key : A -> Z) (x : A) (sorted : list A) : list A :=
  match sorted with
  | [] => [x]
  | y :: rest =>
      if key x <? key y then y :: insert_desc key x rest else x :: sorted
  end.

(** [sorted(xs, key=key, reverse=True)]: largest key first, elements with
    equal keys in their original order. *)
Definition sorted_desc {A} (key : A -> Z) (xs : list A) : list A :=
  fold_right (insert_desc key) [] xs.

(** The slice [xs[:n]]; a negative bound counts from the end. *)
Definition slice_to {A} (xs : list A) (n : Z) : list A :=
  if 0 <=? n then take (Z.to_nat n) xs
  else take (Z.to_nat (Z.of_nat (length xs) + n)) xs.

(** The list is ordered by key, largest first. *)
Definition descending {A} (key : A -> Z) (xs : list A) : Prop :=
  StronglySorted (fun a b => key b <= key a) xs.

End PyList.

(** ** security.py *)

Module Security.

(** [mask_credential(value, visible_chars)].  The [isinstance] test is
    discharged by the type of [value]. *)
Definition mask_credential (value : string) (visible_chars : Z) : string :=
  if negb (PyStr.truthy value) then "[EMPTY]"
  else if PyStr.len value <=? visible_chars then "***"
  else PyStr.slice_to value visible_chars +:+ "***".

(** The masking rule as the specification words it: three stars only
    for a value strictly shorter than [visible_chars], and the visible
    prefix followed by stars from length [visible_chars] on. *)
Definition masks_as_specified (value : string) (visible_chars : Z) : Prop :=
  (mask_credential value visible_chars = "***" <->
     PyStr.len value < visible_chars) /\
  (visible_chars <= PyStr.len value ->
     mask_credential value visible_chars =
     PyStr.slice_to value visible_chars +:+ "***").

(** [html.escape(s, quote=True)] of the standard library: five
    replacements, the ampersand first. *)
Definition escape (s : string) : string :=
  let s := PyStr.replace_char "&" "&amp;" s in
  let s := PyStr.replace_char "<" "&lt;" s in
  let s := PyStr.replace_char ">" "&gt;" s in
  let s := PyStr.replace_char "034" "&quot;" s in
  PyStr.replace_char "'" "&#x27;" s.

(** [sanitize_html(text)]. *)
Definition sanitize_html (text : string) : string := escape text.

(** The character class of [sanitize_filename]: slash, backslash, colon,
    star, question mark, double quote, angle brackets, bar, semicolon,
    line feed, carriage return and tab. *)
Definition DANGEROUS_CHARS : string :=
  "/\:*?" +:+ String "034" ("<>|;" +:+ String "010" (String "013" (String "009" ""))).

(** [sanitize_filename(name, max_length)]; [nfkd] stands for
    [unicodedata.normalize('NFKD', _)], the identity on ASCII text. *)
Definition sanitize_filename (nfkd : string -> string) (name : string) (max_length : Z)
  : string :=
  let name := nfkd name in
  let name := PyStr.replace_char "000" "" name in
  let name := PyStr.sub_class (fun c => PyStr.char_in c DANGEROUS_CHARS) "_" name in
  let name := PyStr.lstrip_chars ". " name in
  let name := PyStr.collapse_runs "_" name in
  let name := PyStr.rstrip_chars "_. " (PyStr.slice_to name max_length) in
  if PyStr.truthy name then name else "unnamed".

(** *** Auxiliary notions *)

(** What one character becomes under [escape]. *)
Definition escape_char (c : ascii) : string :=
  if Ascii.eqb c "&" then "&amp;"
  else if Ascii.eqb c "<" then "&lt;"
  else if Ascii.eqb c ">" then "&gt;"
  else if Ascii.eqb c "034" then "&quot;"
  else if Ascii.eqb c "'" then "&#x27;"
  else String c "".

(** The characters that can open or close markup or an attribute value. *)
Definition MARKUP_CHARS : string := String "034" "<>'".

(** A character that is neither NUL nor in the dangerous class. *)
Definition safe_char (c : ascii) : bool :=
  negb (Ascii.eqb c "000") && negb (PyStr.char_in c DANGEROUS_CHARS).

End Security.

(** ** rate_limiter.py *)

Module RateLimiter.

(** One row of the per-board rate table. *)
Record RateConfig := mkRate {
  min_delay : Q;
  max_delay : Q;
  daily_cap : Z;
  backoff_factor : Q
}.

Definition DEFAULT_BOARD_RATES : gmap string RateConfig :=
  list_to_map [
    ("indeed",         mkRate 3 7 200 2);
    ("linkedin",       mkRate 5 10 150 (5 # 2));
    ("glassdoor",      mkRate 4 8 150 2);
    ("ziprecruiter",   mkRate 3 6 200 2);
    ("monster",        mkRate 2 5 250 (3 # 2));
    ("careerbuilder",  mkRate 2 5 250 (3 # 2));
    ("dice",           mkRate 2 5 200 (3 # 2));
    ("builtin",        mkRate 2 4 200 (3 # 2));
    ("wellfound",      mkRate 3 6 150 2);
    ("biospace",       mkRate 2 4 200 (3 # 2));
    ("usajobs",        mkRate 1 3 300 (3 # 2));
    ("clearancejobs",  mkRate 2 5 200 (3 # 2));
    ("flexjobs",       mkRate 3 6 150 2);
    ("weworkremotely", mkRate 1 3 200 (3 # 2));
    ("remoteok",       mkRate 1 3 200 (3 # 2));
    ("ycombinator",    mkRate 2 5 200 2);
    ("simplyhired",    mkRate 2 5 200 (3 # 2));
    ("adzuna",         mkRate 1 3 300 (3 # 2));
    ("themuse",        mkRate 1 3 300 (3 # 2));
    ("jooble",         mkRate 2 5 200 (3 # 2));
    ("career_page",    mkRate 2 5 500 (3 # 2));
    ("default",        mkRate 2 5 200 2)
  ].

(** The limiter object.  Dates are day ordinals, timestamps are seconds.
    The lock only serialises the calls and has no state of its own. *)
Record RateLimiter := mkLimiter {
  rates : gmap string RateConfig;
  _last_request : gmap string Q;
  _daily_counts : gmap string Z;
  _daily_date : Z;
  _backoff_level : gmap string Z
}.

(** [RateLimiter.__init__(custom_rates)], run on the day [today]:
    the custom rows are written over the default table. *)
Definition init (custom_rates : gmap string RateConfig) (today : Z) : RateLimiter :=
  {| rates := custom_rates ∪ DEFAULT_BOARD_RATES;
     _last_request := ∅;
     _daily_counts := ∅;
     _daily_date := today;
     _backoff_level := ∅ |}.

(** Reading [d[k]] on a [defaultdict]: the value, or the default, which
    the read also stores under [k]. *)
Definition dd_get {V} (dflt : V) (d : gmap string V) (k : string) : V :=
  default dflt (d !! k).

Definition dd_touch {V} (dflt : V) (d : gmap string V) (k : string) : gmap string V :=
  match d !! k with
  | Some _ => d
  | None => <[k := dflt]> d
  end.

(** [_get_rate]: [self.rates.get(board, self.rates["default"])].  The
    fallback is evaluated first, so a table without a "default" row
    raises [KeyError] ([None]). *)
Definition _get_rate (s : RateLimiter) (board : string) : option RateConfig :=
  match rates s !! "default" with
  | None => None
  | Some d => Some (default d (rates s !! board))
  end.

Definition _reset_daily_if_needed (s : RateLimiter) (today : Z) : RateLimiter :=
  if bool_decide (today = _daily_date s) then s
  else {| rates := rates s;
          _last_request := _last_request s;
          _daily_counts := ∅;
          _backoff_level := ∅;
          _daily_date := today |}.

(** [can_request(board)] on the day [today]. *)
Definition can_request (s : RateLimiter) (today : Z) (board : string)
  : option (bool * RateLimiter) :=
  let s1 := _reset_daily_if_needed s today in
  match _get_rate s1 board with
  | None => None
  | Some rate =>
      let count := dd_get 0 (_daily_counts s1) board in
      Some (count <? daily_cap rate,
            {| rates := rates s1;
               _last_request := _last_request s1;
               _daily_counts := dd_touch 0 (_daily_counts s1) board;
               _daily_date := _daily_date s1;
               _backoff_level := _backoff_level s1 |})
  end.

(** What one call of [wait] reads from its surroundings: the date, the
    draw of [random.uniform(min_delay, max_delay)], and the clock before
    and after the sleep. *)
Record WaitEnv := mkWaitEnv {
  today : Z;
  uniform_draw : Q;
  time_before : Q;
  time_after : Q
}.

(** Outcome of [wait]: the returned boolean and the time slept. *)
Record WaitResult := mkWaitResult {
  allowed : bool;
  slept : Q
}.

(** [wait(board)]. *)
Definition wait (s : RateLimiter) (e : WaitEnv) (board : string)
  : option (WaitResult * RateLimiter) :=
  let s1 := _reset_daily_if_needed s (today e) in
  match _get_rate s1 board with
  | None => None
  | Some rate =>
      let count := dd_get 0 (_daily_counts s1) board in
      if daily_cap rate <=? count then
        Some (mkWaitResult false 0,
              {| rates := rates s1;
                 _last_request := _last_request s1;
                 _daily_counts := dd_touch 0 (_daily_counts s1) board;
                 _daily_date := _daily_date s1;
                 _backoff_level := _backoff_level s1 |})
      else
        let base_delay := uniform_draw e in
        let backoff := Qpower (backoff_factor rate)
                              (dd_get 0 (_backoff_level s1) board) in
        let delay := (base_delay * backoff)%Q in
        let elapsed := (time_before e - dd_get 0%Q (_last_request s1) board)%Q in
        let wait_time := Qmax 0 (delay - elapsed) in
        Some (mkWaitResult true wait_time,
              {| rates := rates s1;
                 _last_request := <[board := time_after e]> (_last_request s1);
                 _daily_counts := <[board := count + 1]> (_daily_counts s1);
                 _daily_date := _daily_date s1;
                 _backoff_level := dd_touch 0 (_backoff_level s1) board |})
  end.

(** Consecutive [wait] calls, collecting the returned booleans. *)
Fixpoint wait_all (s : RateLimiter) (es : list WaitEnv) (board : string)
  : option (list bool * RateLimiter) :=
  match es with
  | [] => Some ([], s)
  | e :: es' =>
      match wait s e board with
      | None => None
      | Some (r, s1) =>
          match wait_all s1 es' board with
          | None => None
          | Some (rs, s2) => Some (allowed r :: rs, s2)
          end
      end
  end.

Definition set_backoff (s : RateLimiter) (b : gmap string Z) : RateLimiter :=
  {| rates := rates s;
     _last_request := _last_request s;
     _daily_counts := _daily_counts s;
     _daily_date := _daily_date s;
     _backoff_level := b |}.

(** [report_success(board)]. *)
Definition report_success (board : string) (s : RateLimiter) : RateLimiter :=
  let lvl := dd_get 0 (_backoff_level s) board in
  if 0 <? lvl then set_backoff s (<[board := lvl - 1]> (_backoff_level s))
  else set_backoff s (dd_touch 0 (_backoff_level s) board).

(** [report_throttled(board)]. *)
Definition report_throttled (board : string) (s : RateLimiter) : RateLimiter :=
  let lvl := dd_get 0 (_backoff_level s) board in
  set_backoff s (<[board := Z.min (lvl + 1) 5]> (_backoff_level s)).

(** [report_blocked(board)]. *)
Definition report_blocked (board : string) (s : RateLimiter) : RateLimiter :=
  set_backoff s (<[board := 5]> (_backoff_level s)).

(** The feedback calls a client can make, and a run of them. *)
Inductive Report :=
| Success (board : string)
| Throttled (board : string)
| Blocked (board : string).

Definition report (r : Report) (s : RateLimiter) : RateLimiter :=
  match r with
  | Success b => report_success b s
  | Throttled b => report_throttled b s
  | Blocked b => report_blocked b s
  end.

Definition reports (rs : list Report) (s : RateLimiter) : RateLimiter :=
  fold_left (fun acc r => report r acc) rs s.

(** The backoff level of a board, as every reader of the table sees it. *)
Definition backoff_level (s : RateLimiter) (board : string) : Z :=
  dd_get 0 (_backoff_level s) board.

Definition requests_today (s : RateLimiter) (board : string) : Z :=
  dd_get 0 (_daily_counts s) board.

(** *** Auxiliary notions and sample data *)

Definition cap3_rates : gmap string RateConfig :=
  {[ "testboard" := mkRate 0 0 3 2 ]}.

Definition same_day (d : Z) : WaitEnv := mkWaitEnv d 0 0 0.

(** *** Arbitrary runs of calls *)

(** One call a client makes on the limiter. *)
Inductive Call :=
| CallWait (board : string) (e : WaitEnv)
| CallCanRequest (board : string) (day : Z)
| CallReport (r : Report).

(** The limiter after the call; [None] when the call raises. *)
Definition call (c : Call) (s : RateLimiter) : option RateLimiter :=
  match c with
  | CallWait b e => snd <$> wait s e b
  | CallCanRequest b d => snd <$> can_request s d b
  | CallReport r => Some (report r s)
  end.

Fixpoint calls (cs : list Call) (s : RateLimiter) : option RateLimiter :=
  match cs with
  | [] => Some s
  | c :: rest =>
      match call c s with
      | None => None
      | Some s1 => calls rest s1
      end
  end.

(** The counters of a limiter respect the caps of its table. *)
Definition within_caps (s : RateLimiter) : Prop :=
  forall board rate,
    _get_rate s board = Some rate ->
    0 <= daily_cap rate ->
    0 <= requests_today s board <= daily_cap rate.

(** The invariant carried through a run: the table has its default row,
    no counter is negative, and no counter is above a non-negative cap. *)
Definition sound (s : RateLimiter) : Prop :=
  is_Some (rates s !! "default") /\
  (forall board, 0 <= requests_today s board) /\
  within_caps s.

End RateLimiter.

(** ** scheduler.py *)

Module Scheduler.

(** Values of the schedule document read by [json.load]. *)
#[local] Unset Elimination Schemes.
Inductive json :=
| JNull
| JBool (b : bool)
| JNum (n : Z)
| JStr (s : string)
| JList (l : list json).
#[local] Set Elimination Schemes.

(** A task entry is a JSON object; an absent key is an absent binding. *)
Abbreviation task := (gmap string json).

Definition json_truthy (v : json) : bool :=
  match v with
  | JNull => false
  | JBool b => b
  | JNum n => negb (n =? 0)
  | JStr s => PyStr.truthy s
  | JList l => match l with [] => false | _ => true end
  end.

(** [v == s] for a string [s]. *)
Definition json_eq_str (v : json) (s : string) : bool :=
  match v with
  | JStr s' => bool_decide (s' = s)
  | _ => false
  end.

Definition weekdays : list json :=
  [JStr "mon"; JStr "tue"; JStr "wed"; JStr "thu"; JStr "fri"].

Definition DEFAULT_SCHEDULE : gmap string task :=
  list_to_map [
    ("discovery", list_to_map [
       ("enabled", JBool true);
       ("frequency", JStr "twice_daily");
       ("times", JList [JStr "08:00"; JStr "14:00"]);
       ("days", JList weekdays);
       ("max_boards_per_run", JNum 10)]);
    ("apply", list_to_map [
       ("enabled", JBool false);
       ("frequency", JStr "once_daily");
       ("times", JList [JStr "09:00"]);
       ("days", JList weekdays);
       ("max_per_run", JNum 10);
       ("mode", JStr "semi-auto")]);
    ("digest", list_to_map [
       ("enabled", JBool true);
       ("frequency", JStr "once_daily");
       ("times", JList [JStr "18:00"]);
       ("days", JList weekdays)])
  ].

(** A naive local [datetime]: the day's ordinal and the time of day. *)
Record datetime := mkDatetime {
  ordinal : Z;
  hour : Z;
  minute : Z;
  second : Q
}.

Definition seconds_of_day (d : datetime) : Q :=
  (inject_Z (hour d * 3600 + minute d * 60) + second d)%Q.

(** [(a - b).total_seconds()]. *)
Definition total_seconds_between (a b : datetime) : Q :=
  (inject_Z ((ordinal a - ordinal b) * 86400) + seconds_of_day a - seconds_of_day b)%Q.

(** [now.strftime("%a").lower()]; ordinal 1 is a Monday. *)
Definition day_name (d : datetime) : string :=
  nth (Z.to_nat ((ordinal d - 1) mod 7))
      ["mon"; "tue"; "wed"; "thu"; "fri"; "sat"; "sun"] "mon".

Definition digit_char (n : Z) : ascii := ascii_of_nat (48 + Z.to_nat n).

Definition two_digits (n : Z) : string :=
  String (digit_char (n / 10)) (String (digit_char (n mod 10)) EmptyString).

(** [now.strftime("%H:%M")]. *)
Definition strftime_HM (d : datetime) : string :=
  two_digits (hour d) +:+ ":" +:+ two_digits (minute d).

Definition is_digit (c : ascii) : bool :=
  let n := nat_of_ascii c in (48 <=? n)%nat && (n <=? 57)%nat.

Definition digit_val (c : ascii) : Z := Z.of_nat (nat_of_ascii c) - 48.

(** The minute field of ["%H:%M"]: two digits when the first is at most
    5, else one digit; the whole remainder has to be used up. *)
Definition parse_minute (rest : string) : option Z :=
  match rest with
  | String m1 EmptyString =>
      if is_digit m1 then Some (digit_val m1) else None
  | String m1 (String m2 EmptyString) =>
      if is_digit m1 && (digit_val m1 <=? 5) && is_digit m2
      then Some (10 * digit_val m1 + digit_val m2) else None
  | _ => None
  end.

(** [datetime.strptime(t, "%H:%M")]: hour and minute, or [None] for
    [ValueError]. *)
Definition strptime_HM (t : string) : option (Z * Z) :=
  match t with
  | String a (String b rest) =>
      if is_digit a && bool_decide (b = ":"%char) then
        match parse_minute rest with
        | Some m => Some (digit_val a, m)
        | None => None
        end
      else if is_digit a && is_digit b
              && (10 * digit_val a + digit_val b <=? 23) then
        match rest with
        | String c rest' =>
            if bool_decide (c = ":"%char) then
              match parse_minute rest' with
              | Some m => Some (10 * digit_val a + digit_val b, m)
              | None => None
              end
            else None
        | EmptyString => None
        end
      else None
  | _ => None
  end.

(** The scheduler object (the configuration handle is not consulted by
    the decisions modelled here). *)
Record Scheduler := mkScheduler {
  schedule : gmap string task;
  running : bool;
  last_run : gmap string datetime
}.

(** [current_day not in allowed_days]: list membership, or substring
    search when the document holds a string; [None] is [TypeError]. *)
Definition day_allowed (current_day : string) (allowed_days : json) : option bool :=
  match allowed_days with
  | JList l => Some (existsb (fun v => json_eq_str v current_day) l)
  | JStr s => Some (PyStr.contains current_day s)
  | _ => None
  end.

(** The loop over [times] in [should_run]. *)
Fixpoint scan_times (s : Scheduler) (now : datetime) (task_name : string)
         (times : list json) : option bool :=
  match times with
  | [] => Some false
  | JStr t :: rest =>
      match strptime_HM t with
      | None => None
      | Some (h, m) =>
          let scheduled := inject_Z (h * 3600 + m * 60) in
          let window_start := (scheduled - 120)%Q in
          let window_end := (scheduled + 300)%Q in
          if Qle_bool window_start (seconds_of_day now)
             && Qle_bool (seconds_of_day now) window_end then
            match last_run s !! (task_name +:+ "_" +:+ t) with
            | Some last =>
                if negb (Qle_bool 300 (total_seconds_between now last))
                then Some false else Some true
            | None => Some true
            end
          else scan_times s now task_name rest
      end
  | _ :: _ => None
  end.

(** [should_run(task_name)] at the clock reading [now]; [None] when the
    call raises. *)
Definition should_run (s : Scheduler) (now : datetime) (task_name : string)
  : option bool :=
  let task := default ∅ (schedule s !! task_name) in
  if negb (json_truthy (default (JBool false) (task !! "enabled"))) then Some false
  else
    match day_allowed (day_name now) (default (JList weekdays) (task !! "days")) with
    | None => None
    | Some false => Some false
    | Some true =>
        match default (JList []) (task !! "times") with
        | JList times => scan_times s now task_name times
        | JStr EmptyString => Some false
        | _ => None
        end
    end.

(** What [run_once] asks of the rest of the pipeline. *)
Inductive event :=
| RunDiscovery
| ProcessQueue (engine_mode : json) (limit : json) (dry_run : bool).

(** How far the guarded apply block gets: an exception before the call
    of [process_queue], an exception out of that call, or the end of the
    block. *)
Inductive ApplyOutcome :=
| EngineSetupRaises
| ProcessQueueRaises
| ApplyCompletes.

(** What [run_once] reads from its surroundings: the clock at each
    [should_run], how far each guarded block gets, and the clock when a
    finished block is recorded in [last_run]. *)
Record RunEnv := mkRunEnv {
  discovery_check : datetime;
  discovery_completes : bool;
  discovery_key_time : datetime;
  discovery_done : datetime;
  apply_check : datetime;
  apply_outcome : ApplyOutcome;
  apply_key_time : datetime;
  apply_done : datetime
}.

Definition record_run (s : Scheduler) (key : string) (at_time : datetime) : Scheduler :=
  {| schedule := schedule s;
     running := running s;
     last_run := <[key := at_time]> (last_run s) |}.

(** The arguments of the scheduler's call of [process_queue]. *)
Definition apply_call (apply_config : task) : event :=
  ProcessQueue
    (default (JStr "semi-auto") (apply_config !! "mode"))
    (default (JNum 10) (apply_config !! "max_per_run"))
    (match apply_config !! "mode" with
     | Some v => json_eq_str v "semi-auto"
     | None => false
     end).

(** [run_once()]: the returned flag, the calls made, and the scheduler
    afterwards; [None] when [should_run] raises. *)
Definition run_once (s : Scheduler) (e : RunEnv)
  : option (bool * list event * Scheduler) :=
  match should_run s (discovery_check e) "discovery" with
  | None => None
  | Some due_d =>
      let '(ran1, tr1, s1) :=
        if due_d then
          if discovery_completes e
          then (true, [RunDiscovery],
                record_run s ("discovery_" +:+
                              PyStr.slice_to (strftime_HM (discovery_key_time e)) 5)
                           (discovery_done e))
          else (false, [RunDiscovery], s)
        else (false, [], s) in
      match should_run s1 (apply_check e) "apply" with
      | None => None
      | Some due_a =>
          if due_a then
            let apply_config := default ∅ (schedule s1 !! "apply") in
            let call := apply_call apply_config in
            match apply_outcome e with
            | ApplyCompletes =>
                Some (true, (tr1 ++ [call])%list,
                      record_run s1 ("apply_" +:+
                                     PyStr.slice_to (strftime_HM (apply_key_time e)) 5)
                                 (apply_done e))
            | ProcessQueueRaises => Some (ran1, (tr1 ++ [call])%list, s1)
            | EngineSetupRaises => Some (ran1, tr1, s1)
            end
          else Some (ran1, tr1, s1)
      end
  end.

(** The engine mode the scheduler configures for an apply pass. *)
Definition configured_mode (apply_config : task) : json :=
  default (JStr "semi-auto") (apply_config !! "mode").

(** The safety rule as the specification words it: an apply pass whose
    configured mode is semi-auto, the default included, is a dry run. *)
Definition semi_auto_is_dry_run (s : Scheduler) (e : RunEnv) : Prop :=
  forall ran trace s' mode limit dry_run,
    run_once s e = Some (ran, trace, s') ->
    In (ProcessQueue mode limit dry_run) trace ->
    mode = JStr "semi-auto" ->
    dry_run = true.

(** *** Auxiliary notions and sample data *)

(** A schedule document that enables the apply task and leaves [mode]
    out, as a hand-written [schedule_config.json] may. *)
Definition schedule_without_mode : gmap string task :=
  list_to_map [
    ("apply", list_to_map [
       ("enabled", JBool true);
       ("times", JList [JStr "09:00"]);
       ("days", JList weekdays);
       ("max_per_run", JNum 10)])
  ].

Definition scheduler_without_mode : Scheduler :=
  mkScheduler schedule_without_mode false ∅.

(** Monday 2024-01-01, 09:00:00. *)
Definition monday_9am : datetime := mkDatetime 738886 9 0 0.

Definition env_monday_9am : RunEnv :=
  mkRunEnv monday_9am true monday_9am monday_9am
           monday_9am ApplyCompletes monday_9am monday_9am.

Definition calls_of (r : option (bool * list event * Scheduler)) : option (list event) :=
  match r with
  | Some (_, tr, _) => Some tr
  | None => None
  end.

(** *** Notions used to state when a task is due *)

(** The entry of a task in the schedule document, empty when absent. *)
Definition task_entry (s : Scheduler) (task_name : string) : task :=
  default ∅ (schedule s !! task_name).

(** The task is switched off: its [enabled] flag is absent or falsy. *)
Definition switched_off (s : Scheduler) (task_name : string) : Prop :=
  json_truthy (default (JBool false) (task_entry s task_name !! "enabled")) = false.

(** The clock reading lies in the window of the scheduled time [t]: from
    two minutes before to five minutes after, on the same day. *)
Definition in_window (now : datetime) (t : string) : Prop :=
  exists h m,
    strptime_HM t = Some (h, m) /\
    (inject_Z (h * 3600 + m * 60) - 120 <= seconds_of_day now)%Q /\
    (seconds_of_day now <= inject_Z (h * 3600 + m * 60) + 300)%Q.

Definition default_scheduler : Scheduler := mkScheduler DEFAULT_SCHEDULE false ∅.

End Scheduler.

(** ** qa_bank.py *)

Module QABank.

(** One stored question/answer pair; an entry without an ["aliases"] key
    has the empty alias list. *)
Record Entry := mkEntry {
  question : string;
  answer : string;
  aliases : list string;
  field_type : option string;
  category : option string
}.

(** The job context handed to the template filler; an absent key is
    [None]. *)
Record JobContext := mkJobContext {
  ctx_company : option string;
  ctx_title : option string;
  ctx_location : option string;
  ctx_description : option string;
  ctx_linkedin_url : option string;
  ctx_website_url : option string
}.

(** What [get_answer] returns on a match. *)
Record Match := mkMatch {
  m_answer : string;
  m_confidence : Q;
  m_field_type : string;
  m_category : string;
  m_source_question : string
}.

(** The character class of [re.sub(r'[*:?\s]+$', '', q)]. *)
Definition is_trailing_punct (c : ascii) : bool :=
  bool_decide (c = "*"%char) || bool_decide (c = ":"%char)
  || bool_decide (c = "?"%char) || PyStr.is_space c.

(** The first two statements of [get_answer]. *)
Definition normalize_question (question_text : string) : string :=
  PyStr.drop_while_end is_trailing_punct (PyStr.strip (PyStr.lower question_text)).

(** [s.replace(key, val)] for a non-empty [key]; [skip] counts the
    characters of a match still to be passed over. *)
Fixpoint replace_from (key val : string) (skip : nat) (s : string) : string :=
  match s with
  | EmptyString => EmptyString
  | String c r =>
      match skip with
      | S k => replace_from key val k r
      | O =>
          if PyStr.starts_with key s
          then val +:+ replace_from key val (String.length key - 1) r
          else String c (replace_from key val 0 r)
      end
  end.

Definition replace (key val s : string) : string := replace_from key val 0 s.

Definition any_in (words : list string) (text : string) : bool :=
  existsb (fun w => PyStr.contains w text) words.

(** [_infer_domain(context)]. *)
Definition _infer_domain (context : JobContext) : string :=
  let text := PyStr.lower (default "" (ctx_title context) +:+ " " +:+
                           default "" (ctx_company context) +:+ " " +:+
                           default "" (ctx_description context)) in
  if any_in ["biotech"; "pharma"; "clinical"] text then "biotechnology"
  else if any_in ["ai"; "ml"; "machine learning"] text then "AI/ML"
  else if any_in ["defense"; "aerospace"] text then "defense/aerospace"
  else if any_in ["saas"; "software"] text then "SaaS"
  else "technology".

(** [_fill_template(answer, context)]. *)
Definition _fill_template (answer : string) (context : JobContext) : string :=
  let replacements := [
    ("{company}", default "your company" (ctx_company context));
    ("{role}", default "this role" (ctx_title context));
    ("{location}", default "" (ctx_location context));
    ("{domain_fit}", _infer_domain context);
    ("{linkedin_url}", default "" (ctx_linkedin_url context));
    ("{website_url}", default "" (ctx_website_url context))
  ] in
  fold_left (fun acc kv => replace (fst kv) (snd kv) acc) replacements answer.

(** [a > b] on scores. *)
Definition Qgt_bool (a b : Q) : bool := negb (Qle_bool a b).

(** The running [(best_match, best_score)] of the scan. *)
Definition best := (option Entry * Q)%type.

(** One alias of one entry. *)
Definition alias_step (q_lower : string) (entry : Entry) (st : best) (alias : string) : best :=
  if PyStr.contains (PyStr.lower alias) q_lower
     || PyStr.contains q_lower (PyStr.lower alias) then
    let score := (inject_Z (PyStr.len alias) / inject_Z (Z.max (PyStr.len q_lower) 1))%Q in
    if Qgt_bool score (snd st) then (Some entry, Qmin score (19 # 20)) else st
  else st.

Definition words (s : string) : gset string := list_to_set (PyStr.split_ws s).

(** The word-overlap test of one entry. *)
Definition fuzzy_step (q_lower : string) (entry : Entry) (st : best) : best :=
  let entry_words := words (PyStr.lower (question entry)) in
  let q_words := words q_lower in
  let overlap := Z.of_nat (size (entry_words ∩ q_words)) in
  if 3 <=? overlap then
    let score := (inject_Z overlap /
                  inject_Z (Z.max (Z.of_nat (size (entry_words ∪ q_words))) 1))%Q in
    if Qgt_bool score (snd st) then (Some entry, (score * (4 # 5))%Q) else st
  else st.

(** The loop over [self.entries], with its [break] on an exact match. *)
Fixpoint scan (q_lower : string) (entries : list Entry) (st : best) : best :=
  match entries with
  | [] => st
  | entry :: rest =>
      if String.eqb q_lower (PyStr.lower (question entry)) then (Some entry, 1%Q)
      else
        let st1 := fold_left (alias_step q_lower entry) (aliases entry) st in
        let st2 := fuzzy_step q_lower entry st1 in
        scan q_lower rest st2
  end.

(** [QABank.get_answer(question_text, job_context)] over the stored
    [entries]; a [job_context] of [None] is the absent argument. *)
Definition get_answer (entries : list Entry) (question_text : string)
           (job_context : option JobContext) : option Match :=
  let q_lower := normalize_question question_text in
  match scan q_lower entries (None, 0%Q) with
  | (Some best_match, best_score) =>
      if Qle_bool (3 # 10) best_score then
        let filled :=
          match job_context with
          | Some ctx => _fill_template (answer best_match) ctx
          | None => answer best_match
          end in
        Some {| m_answer := filled;
                m_confidence := best_score;
                m_field_type := default "text" (field_type best_match);
                m_category := default "" (category best_match);
                m_source_question := question best_match |}
      else None
  | (None, _) => None
  end.

(** When two strings denote the same question in the specification's
    sense: equal after lowercasing and stripping trailing punctuation and
    whitespace. *)
Definition same_question (a b : string) : Prop :=
  normalize_question a = normalize_question b.

(** The exact-match rule as the specification words it. *)
Definition exact_match_as_specified (entries : list Entry) (question_text : string) : Prop :=
  forall entry,
    In entry entries ->
    same_question question_text (question entry) ->
    exists m, get_answer entries question_text None = Some m /\
              (m_confidence m == 1)%Q.

(** *** Auxiliary notions and sample data *)

Definition why_here : Entry :=
  mkEntry "Why do you want to work here?" "I admire the mission." [] None None.

(** *** The stored bank and its maintenance *)

(** The bank object: the entries in memory and the content of
    [qa_bank.json] ([None] while the file does not exist). *)
Record Bank := mkBank {
  bank_entries : list Entry;
  bank_file : option (list Entry)
}.

(** [save()]. *)
Definition save (b : Bank) : Bank :=
  {| bank_entries := bank_entries b; bank_file := Some (bank_entries b) |}.

(** [add_entry(question, answer, category, field_type, aliases)]; an
    [aliases] of [None] is the absent argument. *)
Definition add_entry (b : Bank) (q a cat ftype : string) (als : option (list string)) : Bank :=
  save {| bank_entries :=
            (bank_entries b ++
             [{| question := q; answer := a; aliases := default [] als;
                 field_type := Some ftype; category := Some cat |}])%list;
          bank_file := bank_file b |}.

Definition set_answer (new_answer : string) (e : Entry) : Entry :=
  {| question := question e; answer := new_answer; aliases := aliases e;
     field_type := field_type e; category := category e |}.

(** The loop of [update_entry]: [None] when no stored question equals
    the given one up to case. *)
Fixpoint update_first_entry (q new_answer : string) (es : list Entry)
  : option (list Entry) :=
  match es with
  | [] => None
  | e :: rest =>
      if String.eqb (PyStr.lower (question e)) (PyStr.lower q)
      then Some (set_answer new_answer e :: rest)
      else match update_first_entry q new_answer rest with
           | Some rest' => Some (e :: rest')
           | None => None
           end
  end.

(** [update_entry(question, new_answer)]. *)
Definition update_entry (b : Bank) (q new_answer : string) : bool * Bank :=
  match update_first_entry q new_answer (bank_entries b) with
  | Some es => (true, save {| bank_entries := es; bank_file := bank_file b |})
  | None => (false, b)
  end.

(** [get_all(category)]; [None] and the empty string both ask for all. *)
Definition get_all (b : Bank) (cat : option string) : list Entry :=
  match cat with
  | Some c =>
      if PyStr.truthy c
      then filter (fun e => category e = Some c) (bank_entries b)
      else bank_entries b
  | None => bank_entries b
  end.

(** The running best of the scan never exceeds confidence 1 and names an
    entry of the pool. *)
Definition plausible (pool : list Entry) (st : best) : Prop :=
  (snd st <= 1)%Q /\
  match fst st with Some e => In e pool | None => True end.

End QABank.

(** ** material_manager.py *)

Module MaterialManager.

Record ResumeVariant := mkResumeVariant {
  rv_id : string;
  rv_name : string;
  rv_file_path : string;
  rv_sector : string;
  rv_description : string;
  rv_created_at : string;
  rv_created_by : string;
  rv_applications_used : Z;
  rv_callbacks : Z;
  rv_interviews : Z;
  rv_offers : Z;
  rv_rejections : Z;
  rv_ghosted : Z;
  rv_callback_rate : Q;
  rv_interview_rate : Q;
  rv_offer_rate : Q;
  rv_score : Q;
  rv_last_used_at : string;
  rv_is_active : bool
}.

Record CoverLetterVariant := mkCoverLetterVariant {
  cl_id : string;
  cl_name : string;
  cl_tone : string;
  cl_sector : string;
  cl_template_text : string;
  cl_created_at : string;
  cl_created_by : string;
  cl_applications_used : Z;
  cl_callbacks : Z;
  cl_interviews : Z;
  cl_offers : Z;
  cl_rejections : Z;
  cl_ghosted : Z;
  cl_callback_rate : Q;
  cl_interview_rate : Q;
  cl_offer_rate : Q;
  cl_score : Q;
  cl_last_used_at : string;
  cl_is_active : bool
}.

(** The attributes [calculate_variant_score] reads from either kind of
    variant ([Union[ResumeVariant, CoverLetterVariant]]). *)
Class Variant (A : Type) := {
  applications_used : A -> Z;
  callbacks : A -> Z;
  interviews : A -> Z;
  offers : A -> Z;
  rejections : A -> Z;
  ghosted : A -> Z
}.

#[export] Instance resume_is_variant : Variant ResumeVariant := {|
  applications_used := rv_applications_used;
  callbacks := rv_callbacks;
  interviews := rv_interviews;
  offers := rv_offers;
  rejections := rv_rejections;
  ghosted := rv_ghosted
|}.

#[export] Instance cover_letter_is_variant : Variant CoverLetterVariant := {|
  applications_used := cl_applications_used;
  callbacks := cl_callbacks;
  interviews := cl_interviews;
  offers := cl_offers;
  rejections := cl_rejections;
  ghosted := cl_ghosted
|}.

Definition OUTCOME_WEIGHTS : gmap string Z :=
  list_to_map [("callback", 1); ("interview", 3); ("offer", 5);
               ("rejected", -1); ("ghosted", -2)].

Definition MIN_APPS_FOR_FULL_CONFIDENCE : Z := 3.

(** Nearest integer, ties to the even neighbour. *)
Definition round_half_even (x : Q) : Z :=
  let f := Qfloor x in
  match Qcompare (x - inject_Z f) (1 # 2) with
  | Lt => f
  | Gt => f + 1
  | Eq => if Z.even f then f else f + 1
  end.

(** [round(x, ndigits)] on exact rationals. *)
Definition py_round (x : Q) (ndigits : nat) : Q :=
  (inject_Z (round_half_even (x * inject_Z (10 ^ Z.of_nat ndigits)))
   / inject_Z (10 ^ Z.of_nat ndigits))%Q.

(** [calculate_variant_score(variant)]. *)
Definition calculate_variant_score {A} `{Variant A} (variant : A) : Q :=
  let apps := Z.max (applications_used variant) 1 in
  let raw :=
    (inject_Z (callbacks variant * (OUTCOME_WEIGHTS !!! "callback")
               + interviews variant * (OUTCOME_WEIGHTS !!! "interview")
               + offers variant * (OUTCOME_WEIGHTS !!! "offer")
               + rejections variant * (OUTCOME_WEIGHTS !!! "rejected")
               + ghosted variant * (OUTCOME_WEIGHTS !!! "ghosted"))
     / inject_Z apps)%Q in
  let confidence :=
    Qmin 1 (inject_Z (applications_used variant)
            / inject_Z MIN_APPS_FOR_FULL_CONFIDENCE) in
  py_round (raw * confidence) 3.


(** *** Auxiliary notions and sample data *)

Definition counters (apps cb iv off rej gh : Z) : ResumeVariant :=
  mkResumeVariant "r1" "Tech" "resumes/tech_v1.pdf" "tech" "" "2024-01-01" "manual"
                  apps cb iv off rej gh 0 0 0 0 "" true.

Definition letter_counters (apps cb iv off rej gh : Z) : CoverLetterVariant :=
  mkCoverLetterVariant "c1" "Warm" "warm" "tech" "Dear team" "2024-01-01" "manual"
                       apps cb iv off rej gh 0 0 0 0 "" true.


(** *** A/B selection *)





(** *** The score on binary64 doubles *)

(** The exact-rational score above can differ from the computation on
    doubles in the last decimal (80 uses with 9 callbacks: 0.112 against
    0.113); this module follows the doubles. *)

Module Binary64.

(** A Python float as arithmetic on finite operands can produce it: a
    finite double, given by the rational it denotes (the two zeros are
    not told apart), or an infinity. *)
Inductive pyfloat := Finite (value : Q) | Infinity (negative : bool).

Definition pow2 (e : Z) : Q := (2 ^ e)%Q.

(** The integer part of the binary logarithm of a positive rational. *)
Definition ilog2 (x : Q) : Z :=
  let g := Z.log2 (Qnum x) - Z.log2 (Zpos (Qden x)) in
  if Qle_bool (pow2 g) x then g else g - 1.

(** The exponent of the last place of the doubles around [x]: 53
    significant bits, and never below the subnormal spacing. *)
Definition quantum (x : Q) : Z := Z.max (ilog2 (Qabs x) - 52) (-1074).

(** Round to nearest, ties to even, without an upper limit. *)
Definition nearest (x : Q) : Q :=
  if Qeq_bool x 0 then 0%Q
  else Qred (inject_Z (round_half_even (x / pow2 (quantum x))) * pow2 (quantum x)).

(** The rounded magnitude is beyond the largest double. *)
Definition too_large (r : Q) : bool := Qle_bool (pow2 1024) (Qabs r).

Definition Qlt_bool (a b : Q) : bool := negb (Qle_bool b a).

(** [a / b] on integers: the correctly rounded quotient; [None] stands
    for [ZeroDivisionError] and [OverflowError]. *)
Definition true_div (a b : Z) : option Q :=
  if b =? 0 then None
  else
    let r := nearest (inject_Z a / inject_Z b) in
    if too_large r then None else Some r.

(** [x * y] on finite floats; overflow gives an infinity. *)
Definition float_mul (x y : Q) : pyfloat :=
  let r := nearest (x * y) in
  if too_large r then Infinity (Qlt_bool r 0) else Finite r.

(** [min(x, y)]. *)
Definition float_min (x y : Q) : Q := if Qlt_bool y x then y else x.

(** [round(x, ndigits)] for a non-negative [ndigits]: the decimal
    nearest to the value of [x] (ties to even), read back as a double;
    infinities, and every float when [ndigits] exceeds 323, round to
    themselves; [None] stands for [OverflowError]. *)
Definition float_round (x : pyfloat) (ndigits : nat) : option pyfloat :=
  match x with
  | Infinity _ => Some x
  | Finite v =>
      if (323 <? ndigits)%nat then Some x
      else
        let p := inject_Z (10 ^ Z.of_nat ndigits) in
        let r := nearest (inject_Z (round_half_even (v * p)) / p) in
        if too_large r then None else Some (Finite r)
  end.

(** [calculate_variant_score(variant)]. *)
Definition calculate_variant_score {A} `{Variant A} (variant : A) : option pyfloat :=
  let apps := Z.max (applications_used variant) 1 in
  match true_div (callbacks variant * (OUTCOME_WEIGHTS !!! "callback")
                  + interviews variant * (OUTCOME_WEIGHTS !!! "interview")
                  + offers variant * (OUTCOME_WEIGHTS !!! "offer")
                  + rejections variant * (OUTCOME_WEIGHTS !!! "rejected")
                  + ghosted variant * (OUTCOME_WEIGHTS !!! "ghosted")) apps with
  | None => None
  | Some raw =>
      match true_div (applications_used variant) MIN_APPS_FOR_FULL_CONFIDENCE with
      | None => None
      | Some q =>
          let confidence := float_min 1 q in
          float_round (float_mul raw confidence) 3
      end
  end.

(** The formula as the specification words it. *)
Definition spec_raw {A} `{Variant A} (variant : A) : option Q :=
  true_div (callbacks variant * 1 + interviews variant * 3 + offers variant * 5
            - rejections variant * 1 - ghosted variant * 2)
           (Z.max (applications_used variant) 1).

Definition spec_confidence {A} `{Variant A} (variant : A) : option Q :=
  match true_div (applications_used variant) 3 with
  | Some q => Some (float_min 1 q)
  | None => None
  end.

Definition spec_score {A} `{Variant A} (variant : A) : option pyfloat :=
  match spec_raw variant, spec_confidence variant with
  | Some raw, Some confidence => float_round (float_mul raw confidence) 3
  | _, _ => None
  end.

(** *** Auxiliary notions *)

(** [r] is [x] rounded to a double: a multiple [m * 2^e] of the spacing
    with at most 53 significant bits, at most half a spacing away from
    [x], with an even [m] in the halfway case; the spacing is that of 53
    significant bits unless it is the subnormal one. *)
Definition correctly_rounded (x r : Q) : Prop :=
  ((x == 0)%Q -> r = 0%Q) /\
  (~ (x == 0)%Q ->
   exists m e : Z,
     (r == inject_Z m * pow2 e)%Q /\
     - 2 ^ 53 <= m <= 2 ^ 53 /\
     -1074 <= e /\
     (e = -1074 \/ (pow2 (e + 52) <= Qabs x)%Q) /\
     (Qabs (x - r) <= pow2 e * (1 # 2))%Q /\
     ((Qabs (x - r) == pow2 e * (1 # 2))%Q -> Z.even m = true)).

(** [k] thousandths is the three-decimal number nearest to [x], the even
    one of two equally near. *)
Definition nearest_thousandth (x : Q) (k : Z) : Prop :=
  (Qabs (x - inject_Z k / 1000) <= 1 # 2000)%Q /\
  ((Qabs (x - inject_Z k / 1000) == 1 # 2000)%Q -> Z.even k = true).

(** No counter of the variant exceeds 2^200 in magnitude. *)
Definition modest {A} `{Variant A} (variant : A) : Prop :=
  Z.abs (applications_used variant) <= 2 ^ 200 /\
  Z.abs (callbacks variant) <= 2 ^ 200 /\ Z.abs (interviews variant) <= 2 ^ 200 /\
  Z.abs (offers variant) <= 2 ^ 200 /\ Z.abs (rejections variant) <= 2 ^ 200 /\
  Z.abs (ghosted variant) <= 2 ^ 200.

End Binary64.

End MaterialManager.

(** ** apply_engine.py: the application queue *)

Module ApplyEngine.

(** A scalar inside a logged dictionary. *)
Inductive scalar :=
| SStr (s : string)
| SNum (q : Q).

(** An element of [fields_filled], [fields_skipped] or [errors]: a plain
    string or a small dictionary. *)
Inductive item :=
| ItemStr (s : string)
| ItemDict (kv : list (string * scalar)).

(** One element of [action_log]. *)
Record LogEntry := mkLogEntry {
  time : string;
  action : string;
  details : string
}.

(** The [ApplicationRecord] dataclass. *)
Record ApplicationRecord := mkApplicationRecord {
  id : string;
  job_id : string;
  job_title : string;
  company : string;
  url : string;
  score : Z;
  apply_type : string;
  ats_type : string;
  easy_apply : bool;
  status : string;
  materials_ready : bool;
  fields_filled : list item;
  fields_skipped : list item;
  errors : list item;
  screenshot_path : string;
  submitted_at : string;
  created_at : string;
  action_log : list LogEntry;
  resume_variant_id : string;
  cover_letter_variant_id : string;
  material_pairing_id : string;
  outcome : string;
  outcome_recorded_at : string
}.

Definition set_id (v : string) (app : ApplicationRecord) : ApplicationRecord :=
  {| id := v;
     job_id := job_id app;
     job_title := job_title app;
     company := company app;
     url := url app;
     score := score app;
     apply_type := apply_type app;
     ats_type := ats_type app;
     easy_apply := easy_apply app;
     status := status app;
     materials_ready := materials_ready app;
     fields_filled := fields_filled app;
     fields_skipped := fields_skipped app;
     errors := errors app;
     screenshot_path := screenshot_path app;
     submitted_at := submitted_at app;
     created_at := created_at app;
     action_log := action_log app;
     resume_variant_id := resume_variant_id app;
     cover_letter_variant_id := cover_letter_variant_id app;
     material_pairing_id := material_pairing_id app;
     outcome := outcome app;
     outcome_recorded_at := outcome_recorded_at app |}.

Definition set_job_id (v : string) (app : ApplicationRecord) : ApplicationRecord :=
  {| id := id app;
     job_id := v;
     job_title := job_title app;
     company := company app;
     url := url app;
     score := score app;
     apply_type := apply_type app;
     ats_type := ats_type app;
     easy_apply := easy_apply app;
     status := status app;
     materials_ready := materials_ready app;
     fields_filled := fields_filled app;
     fields_skipped := fields_skipped app;
     errors := errors app;
     screenshot_path := screenshot_path app;
     submitted_at := submitted_at app;
     created_at := created_at app;
     action_log := action_log app;
     resume_variant_id := resume_variant_id app;
     cover_letter_variant_id := cover_letter_variant_id app;
     material_pairing_id := material_pairing_id app;
     outcome := outcome app;
     outcome_recorded_at := outcome_recorded_at app |}.

Definition set_job_title (v : string) (app : ApplicationRecord) : ApplicationRecord :=
  {| id := id app;
     job_id := job_id app;
     job_title := v;
     company := company app;
     url := url app;
     score := score app;
     apply_type := apply_type app;
     ats_type := ats_type app;
     easy_apply := easy_apply app;
     status := status app;
     materials_ready := materials_ready app;
     fields_filled := fields_filled app;
     fields_skipped := fields_skipped app;
     errors := errors app;
     screenshot_path := screenshot_path app;
     submitted_at := submitted_at app;
     created_at := created_at app;
     action_log := action_log app;
     resume_variant_id := resume_variant_id app;
     cover_letter_variant_id := cover_letter_variant_id app;
     material_pairing_id := material_pairing_id app;
     outcome := outcome app;
     outcome_recorded_at := outcome_recorded_at app |}.

Definition set_company (v : string) (app : ApplicationRecord) : ApplicationRecord :=
  {| id := id app;
     job_id := job_id app;
     job_title := job_title app;
     company := v;
     url := url app;
     score := score app;
     apply_type := apply_type app;
     ats_type := ats_type app;
     easy_apply := easy_apply app;
     status := status app;
     materials_ready := materials_ready app;
     fields_filled := fields_filled app;
     fields_skipped := fields_skipped app;
     errors := errors app;
     screenshot_path := screenshot_path app;
     submitted_at := submitted_at app;
     created_at := created_at app;
     action_log := action_log app;
     resume_variant_id := resume_variant_id app;
     cover_letter_variant_id := cover_letter_variant_id app;
     material_pairing_id := material_pairing_id app;
     outcome := outcome app;
     outcome_recorded_at := outcome_recorded_at app |}.

Definition set_url (v : string) (app : ApplicationRecord) : ApplicationRecord :=
  {| id := id app;
     job_id := job_id app;
     job_title := job_title app;
     company := company app;
     url := v;
     score := score app;
     apply_type := apply_type app;
     ats_type := ats_type app;
     easy_apply := easy_apply app;
     status := status app;
     materials_ready := materials_ready app;
     fields_filled := fields_filled app;
     fields_skipped := fields_skipped app;
     errors := errors app;
     screenshot_path := screenshot_path app;
     submitted_at := submitted_at app;
     created_at := created_at app;
     action_log := action_log app;
     resume_variant_id := resume_variant_id app;
     cover_letter_variant_id := cover_letter_variant_id app;
     material_pairing_id := material_pairing_id app;
     outcome := outcome app;
     outcome_recorded_at := outcome_recorded_at app |}.

Definition set_score (v : Z) (app : ApplicationRecord) : ApplicationRecord :=
  {| id := id app;
     job_id := job_id app;
     job_title := job_title app;
     company := company app;
     url := url app;
     score := v;
     apply_type := apply_type app;
     ats_type := ats_type app;
     easy_apply := easy_apply app;
     status := status app;
     materials_ready := materials_ready app;
     fields_filled := fields_filled app;
     fields_skipped := fields_skipped app;
     errors := errors app;
     screenshot_path := screenshot_path app;
     submitted_at := submitted_at app;
     created_at := created_at app;
     action_log := action_log app;
     resume_variant_id := resume_variant_id app;
     cover_letter_variant_id := cover_letter_variant_id app;
     material_pairing_id := material_pairing_id app;
     outcome := outcome app;
     outcome_recorded_at := outcome_recorded_at app |}.

Definition set_apply_type (v : string) (app : ApplicationRecord) : ApplicationRecord :=
  {| id := id app;
     job_id := job_id app;
     job_title := job_title app;
     company := company app;
     url := url app;
     score := score app;
     apply_type := v;
     ats_type := ats_type app;
     easy_apply := easy_apply app;
     status := status app;
     materials_ready := materials_ready app;
     fields_filled := fields_filled app;
     fields_skipped := fields_skipped app;
     errors := errors app;
     screenshot_path := screenshot_path app;
     submitted_at := submitted_at app;
     created_at := created_at app;
     action_log := action_log app;
     resume_variant_id := resume_variant_id app;
     cover_letter_variant_id := cover_letter_variant_id app;
     material_pairing_id := material_pairing_id app;
     outcome := outcome app;
     outcome_recorded_at := outcome_recorded_at app |}.

Definition set_ats_type (v : string) (app : ApplicationRecord) : ApplicationRecord :=
  {| id := id app;
     job_id := job_id app;
     job_title := job_title app;
     company := company app;
     url := url app;
     score := score app;
     apply_type := apply_type app;
     ats_type := v;
     easy_apply := easy_apply app;
     status := status app;
     materials_ready := materials_ready app;
     fields_filled := fields_filled app;
     fields_skipped := fields_skipped app;
     errors := errors app;
     screenshot_path := screenshot_path app;
     submitted_at := submitted_at app;
     created_at := created_at app;
     action_log := action_log app;
     resume_variant_id := resume_variant_id app;
     cover_letter_variant_id := cover_letter_variant_id app;
     material_pairing_id := material_pairing_id app;
     outcome := outcome app;
     outcome_recorded_at := outcome_recorded_at app |}.

Definition set_easy_apply (v : bool) (app : ApplicationRecord) : ApplicationRecord :=
  {| id := id app;
     job_id := job_id app;
     job_title := job_title app;
     company := company app;
     url := url app;
     score := score app;
     apply_type := apply_type app;
     ats_type := ats_type app;
     easy_apply := v;
     status := status app;
     materials_ready := materials_ready app;
     fields_filled := fields_filled app;
     fields_skipped := fields_skipped app;
     errors := errors app;
     screenshot_path := screenshot_path app;
     submitted_at := submitted_at app;
     created_at := created_at app;
     action_log := action_log app;
     resume_variant_id := resume_variant_id app;
     cover_letter_variant_id := cover_letter_variant_id app;
     material_pairing_id := material_pairing_id app;
     outcome := outcome app;
     outcome_recorded_at := outcome_recorded_at app |}.

Definition set_status (v : string) (app : ApplicationRecord) : ApplicationRecord :=
  {| id := id app;
     job_id := job_id app;
     job_title := job_title app;
     company := company app;
     url := url app;
     score := score app;
     apply_type := apply_type app;
     ats_type := ats_type app;
     easy_apply := easy_apply app;
     status := v;
     materials_ready := materials_ready app;
     fields_filled := fields_filled app;
     fields_skipped := fields_skipped app;
     errors := errors app;
     screenshot_path := screenshot_path app;
     submitted_at := submitted_at app;
     created_at := created_at app;
     action_log := action_log app;
     resume_variant_id := resume_variant_id app;
     cover_letter_variant_id := cover_letter_variant_id app;
     material_pairing_id := material_pairing_id app;
     outcome := outcome app;
     outcome_recorded_at := outcome_recorded_at app |}.

Definition set_materials_ready (v : bool) (app : ApplicationRecord) : ApplicationRecord :=
  {| id := id app;
     job_id := job_id app;
     job_title := job_title app;
     company := company app;
     url := url app;
     score := score app;
     apply_type := apply_type app;
     ats_type := ats_type app;
     easy_apply := easy_apply app;
     status := status app;
     materials_ready := v;
     fields_filled := fields_filled app;
     fields_skipped := fields_skipped app;
     errors := errors app;
     screenshot_path := screenshot_path app;
     submitted_at := submitted_at app;
     created_at := created_at app;
     action_log := action_log app;
     resume_variant_id := resume_variant_id app;
     cover_letter_variant_id := cover_letter_variant_id app;
     material_pairing_id := material_pairing_id app;
     outcome := outcome app;
     outcome_recorded_at := outcome_recorded_at app |}.

Definition set_fields_filled (v : list item) (app : ApplicationRecord) : ApplicationRecord :=
  {| id := id app;
     job_id := job_id app;
     job_title := job_title app;
     company := company app;
     url := url app;
     score := score app;
     apply_type := apply_type app;
     ats_type := ats_type app;
     easy_apply := easy_apply app;
     status := status app;
     materials_ready := materials_ready app;
     fields_filled := v;
     fields_skipped := fields_skipped app;
     errors := errors app;
     screenshot_path := screenshot_path app;
     submitted_at := submitted_at app;
     created_at := created_at app;
     action_log := action_log app;
     resume_variant_id := resume_variant_id app;
     cover_letter_variant_id := cover_letter_variant_id app;
     material_pairing_id := material_pairing_id app;
     outcome := outcome app;
     outcome_recorded_at := outcome_recorded_at app |}.

Definition set_fields_skipped (v : list item) (app : ApplicationRecord) : ApplicationRecord :=
  {| id := id app;
     job_id := job_id app;
     job_title := job_title app;
     company := company app;
     url := url app;
     score := score app;
     apply_type := apply_type app;
     ats_type := ats_type app;
     easy_apply := easy_apply app;
     status := status app;
     materials_ready := materials_ready app;
     fields_filled := fields_filled app;
     fields_skipped := v;
     errors := errors app;
     screenshot_path := screenshot_path app;
     submitted_at := submitted_at app;
     created_at := created_at app;
     action_log := action_log app;
     resume_variant_id := resume_variant_id app;
     cover_letter_variant_id := cover_letter_variant_id app;
     material_pairing_id := material_pairing_id app;
     outcome := outcome app;
     outcome_recorded_at := outcome_recorded_at app |}.

Definition set_errors (v : list item) (app : ApplicationRecord) : ApplicationRecord :=
  {| id := id app;
     job_id := job_id app;
     job_title := job_title app;
     company := company app;
     url := url app;
     score := score app;
     apply_type := apply_type app;
     ats_type := ats_type app;
     easy_apply := easy_apply app;
     status := status app;
     materials_ready := materials_ready app;
     fields_filled := fields_filled app;
     fields_skipped := fields_skipped app;
     errors := v;
     screenshot_path := screenshot_path app;
     submitted_at := submitted_at app;
     created_at := created_at app;
     action_log := action_log app;
     resume_variant_id := resume_variant_id app;
     cover_letter_variant_id := cover_letter_variant_id app;
     material_pairing_id := material_pairing_id app;
     outcome := outcome app;
     outcome_recorded_at := outcome_recorded_at app |}.

Definition set_screenshot_path (v : string) (app : ApplicationRecord) : ApplicationRecord :=
  {| id := id app;
     job_id := job_id app;
     job_title := job_title app;
     company := company app;
     url := url app;
     score := score app;
     apply_type := apply_type app;
     ats_type := ats_type app;
     easy_apply := easy_apply app;
     status := status app;
     materials_ready := materials_ready app;
     fields_filled := fields_filled app;
     fields_skipped := fields_skipped app;
     errors := errors app;
     screenshot_path := v;
     submitted_at := submitted_at app;
     created_at := created_at app;
     action_log := action_log app;
     resume_variant_id := resume_variant_id app;
     cover_letter_variant_id := cover_letter_variant_id app;
     material_pairing_id := material_pairing_id app;
     outcome := outcome app;
     outcome_recorded_at := outcome_recorded_at app |}.

Definition set_submitted_at (v : string) (app : ApplicationRecord) : ApplicationRecord :=
  {| id := id app;
     job_id := job_id app;
     job_title := job_title app;
     company := company app;
     url := url app;
     score := score app;
     apply_type := apply_type app;
     ats_type := ats_type app;
     easy_apply := easy_apply app;
     status := status app;
     materials_ready := materials_ready app;
     fields_filled := fields_filled app;
     fields_skipped := fields_skipped app;
     errors := errors app;
     screenshot_path := screenshot_path app;
     submitted_at := v;
     created_at := created_at app;
     action_log := action_log app;
     resume_variant_id := resume_variant_id app;
     cover_letter_variant_id := cover_letter_variant_id app;
     material_pairing_id := material_pairing_id app;
     outcome := outcome app;
     outcome_recorded_at := outcome_recorded_at app |}.

Definition set_created_at (v : string) (app : ApplicationRecord) : ApplicationRecord :=
  {| id := id app;
     job_id := job_id app;
     job_title := job_title app;
     company := company app;
     url := url app;
     score := score app;
     apply_type := apply_type app;
     ats_type := ats_type app;
     easy_apply := easy_apply app;
     status := status app;
     materials_ready := materials_ready app;
     fields_filled := fields_filled app;
     fields_skipped := fields_skipped app;
     errors := errors app;
     screenshot_path := screenshot_path app;
     submitted_at := submitted_at app;
     created_at := v;
     action_log := action_log app;
     resume_variant_id := resume_variant_id app;
     cover_letter_variant_id := cover_letter_variant_id app;
     material_pairing_id := material_pairing_id app;
     outcome := outcome app;
     outcome_recorded_at := outcome_recorded_at app |}.

Definition set_action_log (v : list LogEntry) (app : ApplicationRecord) : ApplicationRecord :=
  {| id := id app;
     job_id := job_id app;
     job_title := job_title app;
     company := company app;
     url := url app;
     score := score app;
     apply_type := apply_type app;
     ats_type := ats_type app;
     easy_apply := easy_apply app;
     status := status app;
     materials_ready := materials_ready app;
     fields_filled := fields_filled app;
     fields_skipped := fields_skipped app;
     errors := errors app;
     screenshot_path := screenshot_path app;
     submitted_at := submitted_at app;
     created_at := created_at app;
     action_log := v;
     resume_variant_id := resume_variant_id app;
     cover_letter_variant_id := cover_letter_variant_id app;
     material_pairing_id := material_pairing_id app;
     outcome := outcome app;
     outcome_recorded_at := outcome_recorded_at app |}.

Definition set_resume_variant_id (v : string) (app : ApplicationRecord) : ApplicationRecord :=
  {| id := id app;
     job_id := job_id app;
     job_title := job_title app;
     company := company app;
     url := url app;
     score := score app;
     apply_type := apply_type app;
     ats_type := ats_type app;
     easy_apply := easy_apply app;
     status := status app;
     materials_ready := materials_ready app;
     fields_filled := fields_filled app;
     fields_skipped := fields_skipped app;
     errors := errors app;
     screenshot_path := screenshot_path app;
     submitted_at := submitted_at app;
     created_at := created_at app;
     action_log := action_log app;
     resume_variant_id := v;
     cover_letter_variant_id := cover_letter_variant_id app;
     material_pairing_id := material_pairing_id app;
     outcome := outcome app;
     outcome_recorded_at := outcome_recorded_at app |}.

Definition set_cover_letter_variant_id (v : string) (app : ApplicationRecord) : ApplicationRecord :=
  {| id := id app;
     job_id := job_id app;
     job_title := job_title app;
     company := company app;
     url := url app;
     score := score app;
     apply_type := apply_type app;
     ats_type := ats_type app;
     easy_apply := easy_apply app;
     status := status app;
     materials_ready := materials_ready app;
     fields_filled := fields_filled app;
     fields_skipped := fields_skipped app;
     errors := errors app;
     screenshot_path := screenshot_path app;
     submitted_at := submitted_at app;
     created_at := created_at app;
     action_log := action_log app;
     resume_variant_id := resume_variant_id app;
     cover_letter_variant_id := v;
     material_pairing_id := material_pairing_id app;
     outcome := outcome app;
     outcome_recorded_at := outcome_recorded_at app |}.

Definition set_material_pairing_id (v : string) (app : ApplicationRecord) : ApplicationRecord :=
  {| id := id app;
     job_id := job_id app;
     job_title := job_title app;
     company := company app;
     url := url app;
     score := score app;
     apply_type := apply_type app;
     ats_type := ats_type app;
     easy_apply := easy_apply app;
     status := status app;
     materials_ready := materials_ready app;
     fields_filled := fields_filled app;
     fields_skipped := fields_skipped app;
     errors := errors app;
     screenshot_path := screenshot_path app;
     submitted_at := submitted_at app;
     created_at := created_at app;
     action_log := action_log app;
     resume_variant_id := resume_variant_id app;
     cover_letter_variant_id := cover_letter_variant_id app;
     material_pairing_id := v;
     outcome := outcome app;
     outcome_recorded_at := outcome_recorded_at app |}.

Definition set_outcome (v : string) (app : ApplicationRecord) : ApplicationRecord :=
  {| id := id app;
     job_id := job_id app;
     job_title := job_title app;
     company := company app;
     url := url app;
     score := score app;
     apply_type := apply_type app;
     ats_type := ats_type app;
     easy_apply := easy_apply app;
     status := status app;
     materials_ready := materials_ready app;
     fields_filled := fields_filled app;
     fields_skipped := fields_skipped app;
     errors := errors app;
     screenshot_path := screenshot_path app;
     submitted_at := submitted_at app;
     created_at := created_at app;
     action_log := action_log app;
     resume_variant_id := resume_variant_id app;
     cover_letter_variant_id := cover_letter_variant_id app;
     material_pairing_id := material_pairing_id app;
     outcome := v;
     outcome_recorded_at := outcome_recorded_at app |}.

Definition set_outcome_recorded_at (v : string) (app : ApplicationRecord) : ApplicationRecord :=
  {| id := id app;
     job_id := job_id app;
     job_title := job_title app;
     company := company app;
     url := url app;
     score := score app;
     apply_type := apply_type app;
     ats_type := ats_type app;
     easy_apply := easy_apply app;
     status := status app;
     materials_ready := materials_ready app;
     fields_filled := fields_filled app;
     fields_skipped := fields_skipped app;
     errors := errors app;
     screenshot_path := screenshot_path app;
     submitted_at := submitted_at app;
     created_at := created_at app;
     action_log := action_log app;
     resume_variant_id := resume_variant_id app;
     cover_letter_variant_id := cover_letter_variant_id app;
     material_pairing_id := material_pairing_id app;
     outcome := outcome app;
     outcome_recorded_at := v |}.

(** A keyword argument of [update_status]: a dataclass field with a value
    of the field's declared type, or a name the record has no attribute
    for. *)
Inductive override :=
| kw_id (v : string)
| kw_job_id (v : string)
| kw_job_title (v : string)
| kw_company (v : string)
| kw_url (v : string)
| kw_score (v : Z)
| kw_apply_type (v : string)
| kw_ats_type (v : string)
| kw_easy_apply (v : bool)
| kw_status (v : string)
| kw_materials_ready (v : bool)
| kw_fields_filled (v : list item)
| kw_fields_skipped (v : list item)
| kw_errors (v : list item)
| kw_screenshot_path (v : string)
| kw_submitted_at (v : string)
| kw_created_at (v : string)
| kw_action_log (v : list LogEntry)
| kw_resume_variant_id (v : string)
| kw_cover_letter_variant_id (v : string)
| kw_material_pairing_id (v : string)
| kw_outcome (v : string)
| kw_outcome_recorded_at (v : string)
| kw_other (name : string).

(** [if hasattr(app, k): setattr(app, k, v)]. *)
Definition apply_override (app : ApplicationRecord) (kw : override) : ApplicationRecord :=
  match kw with
  | kw_id v => set_id v app
  | kw_job_id v => set_job_id v app
  | kw_job_title v => set_job_title v app
  | kw_company v => set_company v app
  | kw_url v => set_url v app
  | kw_score v => set_score v app
  | kw_apply_type v => set_apply_type v app
  | kw_ats_type v => set_ats_type v app
  | kw_easy_apply v => set_easy_apply v app
  | kw_status v => set_status v app
  | kw_materials_ready v => set_materials_ready v app
  | kw_fields_filled v => set_fields_filled v app
  | kw_fields_skipped v => set_fields_skipped v app
  | kw_errors v => set_errors v app
  | kw_screenshot_path v => set_screenshot_path v app
  | kw_submitted_at v => set_submitted_at v app
  | kw_created_at v => set_created_at v app
  | kw_action_log v => set_action_log v app
  | kw_resume_variant_id v => set_resume_variant_id v app
  | kw_cover_letter_variant_id v => set_cover_letter_variant_id v app
  | kw_material_pairing_id v => set_material_pairing_id v app
  | kw_outcome v => set_outcome v app
  | kw_outcome_recorded_at v => set_outcome_recorded_at v app
  | kw_other _ => app
  end.

(** A scored job as [add_jobs] reads it; an absent key is [None]. *)
Record Job := mkJob {
  j_raw_id : option string;
  j_id : option string;
  j_title : option string;
  j_company : option string;
  j_url : option string;
  j_match : option Z;
  j_apply_type : option string;
  j_ats_platform : option string;
  j_easy_apply : option bool
}.

(** What the queue reads from its surroundings: the [n]-th reading of
    [datetime.now()] rendered by [strftime('%Y%m%d%H%M%S')] and by
    [isoformat()], and [str(kwargs)]. *)
Record Env := mkEnv {
  now_stamp : nat -> string;
  now_iso : nat -> string;
  str_kwargs : list override -> string
}.

(** The queue object together with the file it persists to and the
    number of clock readings taken so far. *)
Record ApplicationQueue := mkQueue {
  queue : list ApplicationRecord;
  queue_file : option (list ApplicationRecord);
  writes : nat;
  clock : nat
}.

(** [str(n)] for a natural number. *)
Definition str_nat (n : nat) : string := NilZero.string_of_uint (Nat.to_uint n).

Definition str_int (z : Z) : string := NilZero.string_of_int (Z.to_int z).

(** [record.log_action(action, details)] at clock reading [t]. *)
Definition log_action (env : Env) (t : nat) (action details : string)
           (app : ApplicationRecord) : ApplicationRecord :=
  set_action_log (action_log app ++ [mkLogEntry (now_iso env t) action details])%list app.

(** [save()]. *)
Definition save (q : ApplicationQueue) : ApplicationQueue :=
  {| queue := queue q;
     queue_file := Some (queue q);
     writes := S (writes q);
     clock := clock q |}.

(** [job.get("raw_id") or job.get("id", "")]. *)
Definition job_key (job : Job) : string :=
  match j_raw_id job with
  | Some r => if PyStr.truthy r then r else default "" (j_id job)
  | None => default "" (j_id job)
  end.

(** The record [add_jobs] builds for a job, the [added]-th of the call,
    with the clock at [t]: one reading for the id, one for [created_at],
    one for the log line. *)
Definition new_record (env : Env) (t added : nat) (job : Job) : ApplicationRecord :=
  let record :=
    {| id := "app_" +:+ now_stamp env t +:+ "_" +:+ str_nat added;
       job_id := job_key job;
       job_title := default "" (j_title job);
       company := default "" (j_company job);
       url := default "" (j_url job);
       score := default 0 (j_match job);
       apply_type := default "quick-apply" (j_apply_type job);
       ats_type := default "" (j_ats_platform job);
       easy_apply := default false (j_easy_apply job);
       status := "queued";
       materials_ready := false;
       fields_filled := [];
       fields_skipped := [];
       errors := [];
       screenshot_path := "";
       submitted_at := "";
       created_at := now_iso env (S t);
       action_log := [];
       resume_variant_id := "";
       cover_letter_variant_id := "";
       material_pairing_id := "";
       outcome := "";
       outcome_recorded_at := "" |} in
  log_action env (S (S t)) "queued"
    ("Score: " +:+ str_int (score record) +:+ ", Type: " +:+ apply_type record) record.

(** The state of the loop of [add_jobs]. *)
Record AddState := mkAddState {
  existing_ids : gset string;
  added : nat;
  acc_queue : list ApplicationRecord;
  acc_clock : nat
}.

Definition add_job (env : Env) (st : AddState) (job : Job) : AddState :=
  let job_id := job_key job in
  if bool_decide (job_id ∈ existing_ids st) then st
  else if bool_decide (j_apply_type job = Some "skip") then st
  else
    {| existing_ids := {[job_id]} ∪ existing_ids st;
       added := S (added st);
       acc_queue := (acc_queue st ++ [new_record env (acc_clock st) (added st) job])%list;
       acc_clock := (acc_clock st + 3)%nat |}.

(** [ApplicationQueue.add_jobs(jobs)]: the number added and the queue
    afterwards. *)
Definition add_jobs (env : Env) (q : ApplicationQueue) (jobs : list Job)
  : nat * ApplicationQueue :=
  let st0 := {| existing_ids := list_to_set (map job_id (queue q));
                added := 0;
                acc_queue := queue q;
                acc_clock := clock q |} in
  let st := fold_left (add_job env) jobs st0 in
  (added st,
   save {| queue := acc_queue st;
           queue_file := queue_file q;
           writes := writes q;
           clock := acc_clock st |}).

(** The loop of [update_status] over the records: [None] when no record
    has the id, else the records with the first match updated. *)
Fixpoint update_first (env : Env) (t : nat) (app_id new_status : string)
         (kwargs : list override) (apps : list ApplicationRecord)
  : option (list ApplicationRecord) :=
  match apps with
  | [] => None
  | app :: rest =>
      if String.eqb (id app) app_id then
        let app1 := set_status new_status app in
        let app2 := log_action env t ("status_change:" +:+ new_status)
                               (str_kwargs env kwargs) app1 in
        Some (fold_left apply_override kwargs app2 :: rest)
      else
        match update_first env t app_id new_status kwargs rest with
        | Some rest' => Some (app :: rest')
        | None => None
        end
  end.

(** [ApplicationQueue.update_status(app_id, status, **kwargs)]. *)
Definition update_status (env : Env) (q : ApplicationQueue)
           (app_id new_status : string) (kwargs : list override)
  : bool * ApplicationQueue :=
  match update_first env (clock q) app_id new_status kwargs (queue q) with
  | Some apps =>
      (true, save {| queue := apps;
                     queue_file := queue_file q;
                     writes := writes q;
                     clock := S (clock q) |})
  | None => (false, q)
  end.

(** [get_by_status(status)]. *)
Definition get_by_status (q : ApplicationQueue) (wanted : string) : list ApplicationRecord :=
  filter (fun a => status a = wanted) (queue q).

(** *** Auxiliary notions and sample data *)

Definition sample_env : Env :=
  mkEnv (fun _ => "20240101090000") (fun _ => "2024-01-01T09:00:00") (fun _ => "{}").

Definition sample_job : Job :=
  mkJob (Some "abc123") None (Some "Product Manager") (Some "Acme")
        (Some "https://example.com/jobs/1") (Some 72) (Some "quick-apply") None None.

Definition sample_queue : ApplicationQueue :=
  snd (add_jobs sample_env (mkQueue [] None 0 0) [sample_job]).

(** The id set of the loop is the set of job ids of the queue built so far. *)
Definition ids_track_queue (st : AddState) : Prop :=
  existing_ids st = list_to_set (map job_id (acc_queue st)).

(** What one record appended by the loop looks like. *)
Definition added_from (jobs : list Job) (known : gset string) (r : ApplicationRecord) : Prop :=
  (job_id r ∉ known) /\ status r = "queued" /\
  exists job, In job jobs /\ job_key job = job_id r /\
              j_apply_type job <> Some "skip".

(** The queue after [n] calls of [add_jobs] with the same list. *)
Fixpoint add_jobs_times (env : Env) (n : nat) (q : ApplicationQueue) (jobs : list Job)
  : ApplicationQueue :=
  match n with
  | O => q
  | S k => snd (add_jobs env (add_jobs_times env k q jobs) jobs)
  end.

Definition skip_job : Job :=
  mkJob (Some "zzz999") None (Some "Intern") (Some "Acme")
        (Some "https://example.com/jobs/2") (Some 12) (Some "skip") None None.

(** *** Pending records and board names *)

(** [get_pending(limit)]; a [limit] of [None] is the absent argument, and
    like it a limit of 0 asks for everything. *)
Definition get_pending (q : ApplicationQueue) (limit : option Z) : list ApplicationRecord :=
  let pending :=
    PyList.sorted_desc score (filter (fun a => status a = "queued") (queue q)) in
  match limit with
  | Some n => if n =? 0 then pending else PyList.slice_to pending n
  | None => pending
  end.

(** The loop of [_get_board_name] over the pattern table. *)
Fixpoint first_board (url_lower : string) (boards : list (string * string)) : option string :=
  match boards with
  | [] => None
  | (pattern, board) :: rest =>
      if PyStr.contains pattern url_lower then Some board
      else first_board url_lower rest
  end.

(** [ApplyEngine._get_board_name(url)]. *)
Definition _get_board_name (url_text : string) : string :=
  if negb (PyStr.truthy url_text) then "default"
  else
    default "career_page"
      (first_board (PyStr.lower url_text)
         [("indeed.com", "indeed"); ("linkedin.com", "linkedin");
          ("glassdoor.com", "glassdoor"); ("greenhouse.io", "career_page");
          ("lever.co", "career_page"); ("workday", "career_page")]).

(** The record [update_status] leaves in place of [app]. *)
Definition updated_record (env : Env) (t : nat) (new_status : string)
           (kwargs : list override) (app : ApplicationRecord) : ApplicationRecord :=
  fold_left apply_override kwargs
    (log_action env t ("status_change:" +:+ new_status) (str_kwargs env kwargs)
       (set_status new_status app)).

(** The sample queue after its record went to "filling". *)
Definition sample_queue_filling : ApplicationQueue :=
  snd (update_status sample_env sample_queue "app_20240101090000_0" "filling" []).

(** *** Queue statistics *)

(** The dictionary [get_stats] returns. *)
Record Stats := mkStats {
  st_total : nat;
  st_queued : nat;
  st_filling : nat;
  st_ready_for_review : nat;
  st_submitted : nat;
  st_confirmed : nat;
  st_errors : nat;
  st_today_submitted : nat
}.

(** The condition of the [today_submitted] count; [today] is
    [datetime.now().strftime("%Y-%m-%d")]. *)
Definition submitted_today (today : string) (a : ApplicationRecord) : bool :=
  (String.eqb (status a) "submitted" || String.eqb (status a) "confirmed")
  && PyStr.truthy (submitted_at a)
  && String.eqb (PyStr.slice_to (submitted_at a) 10) today.

(** [ApplicationQueue.get_stats()]. *)
Definition get_stats (today : string) (q : ApplicationQueue) : Stats :=
  {| st_total := length (queue q);
     st_queued := length (filter (fun a => status a = "queued") (queue q));
     st_filling := length (filter (fun a => status a = "filling") (queue q));
     st_ready_for_review :=
       length (filter (fun a => status a = "ready-for-review") (queue q));
     st_submitted := length (filter (fun a => status a = "submitted") (queue q));
     st_confirmed := length (filter (fun a => status a = "confirmed") (queue q));
     st_errors := length (filter (fun a => status a = "error") (queue q));
     st_today_submitted :=
       length (filter (fun a => submitted_today today a = true) (queue q)) |}.

End ApplyEngine.

(** ** scoring_engine.py *)

Module ScoringEngine.

(** A dictionary from phrases to points, in insertion order. *)
Abbreviation table := (list (string * Z)).

Definition lookup_key {V} (k : string) (d : list (string * V)) : option V :=
  snd <$> List.find (fun kv => String.eqb (fst kv) k) d.

(** [{**a, **b}]: the keys of [a] in their order, with the value [b]
    gives them if any, followed by the keys only [b] has. *)
Definition dict_merge {V} (a b : list (string * V)) : list (string * V) :=
  (map (fun kv => (fst kv, default (snd kv) (lookup_key (fst kv) b))) a
   ++ filter (fun kv => lookup_key (fst kv) a = None) b)%list.

Definition RESUME_KEYWORDS : list (string * table) := [
  ("high_value", [
     ("product manager", 4); ("product management", 4); ("AI", 3);
     ("machine learning", 3); ("biotechnology", 3); ("biotech", 3);
     ("pharma", 3); ("bioinformatics", 3); ("data governance", 3);
     ("analytics", 2); ("SaaS", 3); ("agile", 2); ("scrum", 2);
     ("cross functional", 2); ("roadmap", 2); ("stakeholder", 2);
     ("strategy", 2); ("LLM", 3); ("generative AI", 3); ("python", 2);
     ("AWS", 2); ("program manager", 3); ("product strategy", 3);
     ("user research", 2); ("product owner", 3)]);
  ("medium_value", [
     ("MBA", 2); ("digital", 1); ("platform", 2); ("quality control", 2);
     ("QC", 1); ("lab", 1); ("regulatory", 2); ("compliance", 2);
     ("clinical", 2); ("R&D", 2); ("research", 1); ("innovation", 1);
     ("startup", 2); ("defense", 2); ("aerospace", 2); ("government", 1);
     ("project manager", 2); ("adjunct", 2); ("professor", 2);
     ("instructor", 2); ("teaching", 1)]);
  ("low_value", [
     ("leadership", 1); ("communication", 1); ("presentation", 1);
     ("excel", 1); ("sql", 1); ("tableau", 1); ("visualization", 1);
     ("reporting", 1); ("analysis", 1); ("team", 1); ("collaboration", 1);
     ("documentation", 1); ("budget", 1); ("jira", 1); ("confluence", 1)])
].

Definition SENIORITY_BOOSTS : table := [
  ("senior", 8); ("sr", 8); ("lead", 10); ("principal", 6);
  ("head of", 5); ("director", 3); ("vp", -5); ("chief", -10);
  ("junior", -10); ("jr", -10); ("entry", -15); ("intern", -20);
  ("associate", -5)
].

(** One company tier: its names and its boost. *)
Record Tier := mkTier {
  names : list string;
  boost : Z
}.

Definition COMPANY_TIERS : list (string * Tier) := [
  ("tier1", mkTier
     ["amgen"; "google"; "apple"; "microsoft"; "meta"; "amazon"; "nvidia";
      "genentech"; "gilead"; "abbvie"; "regeneron"; "illumina"; "thermo fisher";
      "boeing"; "lockheed martin"; "raytheon"; "northrop grumman"; "spacex"] 10);
  ("tier2", mkTier
     ["snap"; "salesforce"; "adobe"; "netflix"; "uber"; "airbnb"; "stripe";
      "moderna"; "biogen"; "vertex"; "exact sciences"; "10x genomics";
      "general atomics"; "l3harris"; "bae systems"; "aerojet"] 7);
  ("tier3", mkTier
     ["startup"; "series a"; "series b"; "seed stage"; "ycombinator"] 5)
].

Definition PREFERRED_LOCATIONS : table := [
  ("remote", 12); ("work from home", 12); ("hybrid", 8)
].

(** One watchlist row of the configuration. *)
Record WatchEntry := mkWatchEntry {
  companyName : option string;
  watch_status : option string
}.

(** What the engine reads from the configuration manager.  An empty
    dictionary stands for an absent or empty section, which the engine
    treats alike. *)
Record ConfigManager := mkConfig {
  automation_strategy : option string;
  scoring_keyword_weights : list (string * table);
  scoring_seniority_boosts : table;
  scoring_company_tiers : list (string * Tier);
  scoring_preferred_locations : table;
  watchlist : list WatchEntry
}.

(** [ConfigManager.get_watchlist()]. *)
Definition get_watchlist (c : ConfigManager) : list WatchEntry :=
  filter (fun w => default "active" (watch_status w) = "active") (watchlist c).

(** The learned weights of [scoring_weights.json]. *)
Record AdaptiveWeights := mkAdaptive {
  title_boosts : table;
  company_boosts : table
}.

Record ScoringEngine := mkEngine {
  config : option ConfigManager;
  adaptive_weights : AdaptiveWeights;
  strategy : string;
  keyword_weights : list (string * table);
  seniority_boosts : table;
  company_tiers : list (string * Tier);
  preferred_locations : table
}.

Definition nonempty {A} (l : list A) : bool :=
  match l with [] => false | _ => true end.

(** [ScoringEngine.__init__(config_manager)]; [weights_file] is the
    content of the adaptive-weights file when it exists and parses. *)
Definition init (config_manager : option ConfigManager)
           (weights_file : option AdaptiveWeights) : ScoringEngine :=
  let aw := default (mkAdaptive [] []) weights_file in
  match config_manager with
  | Some c =>
      {| config := Some c;
         adaptive_weights := aw;
         strategy := default "balanced" (automation_strategy c);
         keyword_weights :=
           if nonempty (scoring_keyword_weights c)
           then dict_merge RESUME_KEYWORDS (scoring_keyword_weights c)
           else RESUME_KEYWORDS;
         seniority_boosts :=
           if nonempty (scoring_seniority_boosts c)
           then dict_merge SENIORITY_BOOSTS (scoring_seniority_boosts c)
           else SENIORITY_BOOSTS;
         company_tiers :=
           if nonempty (scoring_company_tiers c)
           then scoring_company_tiers c
           else COMPANY_TIERS;
         preferred_locations :=
           if nonempty (scoring_preferred_locations c)
           then dict_merge PREFERRED_LOCATIONS (scoring_preferred_locations c)
           else PREFERRED_LOCATIONS |}
  | None =>
      {| config := None;
         adaptive_weights := aw;
         strategy := "balanced";
         keyword_weights := RESUME_KEYWORDS;
         seniority_boosts := SENIORITY_BOOSTS;
         company_tiers := COMPANY_TIERS;
         preferred_locations := PREFERRED_LOCATIONS |}
  end.

(** A job listing in the dictionary form of a [RawJob]. *)
Record Job := mkJob {
  title : string;
  description : string;
  company : string;
  location : string;
  salary_range : string;
  posted_date : string;
  easy_apply : bool
}.

(** The per-dimension scores. *)
Record Breakdown := mkBreakdown {
  b_keywords : Z;
  b_title : Z;
  b_seniority : Z;
  b_location : Z;
  b_company : Z;
  b_freshness : Z;
  b_bonuses : Z;
  b_adaptive : Z
}.

Record ScoreResult := mkScoreResult {
  total : Z;
  breakdown : Breakdown;
  result_strategy : string;
  meets_threshold : bool;
  apply_type : string
}.

(** One of the three loops of [_score_keywords]: the pair
    [(score, max_possible)] after the loop. *)
Definition keyword_pass (text : string) (weights : table) (acc : Z * Z) : Z * Z :=
  fold_left
    (fun a kw =>
       (if PyStr.contains (PyStr.lower (fst kw)) text then fst a + snd kw else fst a,
        snd a + snd kw))
    weights acc.

(** [_score_keywords(job)]; the quotient is truncated as [int] does. *)
Definition _score_keywords (e : ScoringEngine) (job : Job) : Z :=
  let text := PyStr.lower (title job +:+ " " +:+ description job) in
  let tier k := default [] (lookup_key k (keyword_weights e)) in
  let '(score, max_possible) :=
    keyword_pass text (tier "low_value")
      (keyword_pass text (tier "medium_value")
         (keyword_pass text (tier "high_value") (0, 0))) in
  if max_possible =? 0 then 0
  else Z.min 30 (Z.quot (score * 30) max_possible).

Definition target_roles : table := [
  ("product manager", 20); ("program manager", 15); ("product owner", 14);
  ("ai product", 18); ("ml product", 18); ("data product", 16);
  ("technical product", 16); ("product strategy", 15);
  ("adjunct", 12); ("professor", 12); ("instructor", 12);
  ("project manager", 10); ("data governance", 14);
  ("quality control", 10); ("quality assurance", 8)
].

(** The best points among the phrases found in [text]. *)
Definition best_points (text : string) (phrases : table) : Z :=
  fold_left
    (fun score rp => if PyStr.contains (fst rp) text then Z.max score (snd rp) else score)
    phrases 0.

(** [_score_title(job)]. *)
Definition _score_title (job : Job) : Z :=
  Z.min 20 (best_points (PyStr.lower (title job)) target_roles).

(** The boost of the first level found in the title, if any. *)
Fixpoint first_boost (text : string) (levels : table) : option Z :=
  match levels with
  | [] => None
  | (level, b) :: rest =>
      if PyStr.contains level text then Some b else first_boost text rest
  end.

(** [_score_seniority(job)]. *)
Definition _score_seniority (e : ScoringEngine) (job : Job) : Z :=
  let t := PyStr.lower (title job) in
  let score := 8 + default 0 (first_boost t (seniority_boosts e)) in
  Z.max 0 (Z.min 15 score).

(** [_score_location(job)]. *)
Definition _score_location (e : ScoringEngine) (job : Job) : Z :=
  Z.min 15 (best_points (PyStr.lower (location job)) (preferred_locations e)).

(** The first tier, in order, one of whose names occurs in [text]. *)
Fixpoint first_tier (text : string) (tiers : list (string * Tier)) : option Tier :=
  match tiers with
  | [] => None
  | (_, t) :: rest =>
      if existsb (fun name => PyStr.contains name text) (names t) then Some t
      else first_tier text rest
  end.

(** [_score_company(job)]. *)
Definition _score_company (e : ScoringEngine) (job : Job) : Z :=
  let text := PyStr.lower (company job) +:+ " " +:+ PyStr.lower (description job) in
  match first_tier text (company_tiers e) with
  | Some t => Z.min 10 (boost t)
  | None => 3
  end.

(** [_score_freshness(job)].  [days_old] stands for the clock and the
    date parser: it maps [posted[:10]] to [(now - posted_dt).days], or to
    [None] when [strptime] raises [ValueError]. *)
Definition _score_freshness (days_old : string -> option Z) (job : Job) : Z :=
  if negb (PyStr.truthy (posted_date job)) then 5
  else
    match days_old (PyStr.slice_to (posted_date job) 10) with
    | None => 5
    | Some d =>
        if d <=? 1 then 10
        else if d <=? 3 then 8
        else if d <=? 7 then 6
        else if d <=? 14 then 4
        else 2
    end.

(** The sum of the boosts whose pattern occurs in [text]. *)
Definition boosts_in (text : string) (boosts : table) : Z :=
  fold_left
    (fun adj pb => if PyStr.contains (PyStr.lower (fst pb)) text then adj + snd pb else adj)
    boosts 0.

(** [_apply_adaptive(job)]. *)
Definition _apply_adaptive (e : ScoringEngine) (job : Job) : Z :=
  let adjustment :=
    boosts_in (PyStr.lower (title job)) (title_boosts (adaptive_weights e))
    + boosts_in (PyStr.lower (company job)) (company_boosts (adaptive_weights e)) in
  Z.max (-10) (Z.min 10 adjustment).

(** [_meets_threshold(score)]. *)
Definition _meets_threshold (e : ScoringEngine) (score : Z) : bool :=
  let thresholds := [("wide-net", 50); ("balanced", 60); ("targeted", 85)] in
  default 60 (lookup_key (strategy e) thresholds) <=? score.

(** [_get_apply_type(score)]. *)
Definition _get_apply_type (e : ScoringEngine) (score : Z) : string :=
  if String.eqb (strategy e) "targeted" then
    if 85 <=? score then "full-prep"
    else if 50 <=? score then "quick-apply"
    else "skip"
  else if String.eqb (strategy e) "wide-net" then
    if 80 <=? score then "full-prep"
    else if 50 <=? score then "quick-apply"
    else "skip"
  else
    if 80 <=? score then "full-prep"
    else if 60 <=? score then "quick-apply"
    else "skip".

(** The bonus block of [score]. *)
Definition bonuses_of (e : ScoringEngine) (job : Job) : Z :=
  let b1 := if easy_apply job then 3 else 0 in
  let b2 := if PyStr.truthy (salary_range job) then b1 + 2 else b1 in
  let b3 :=
    match config e with
    | Some c =>
        let company_lower := PyStr.lower (company job) in
        if existsb (fun w => String.eqb (PyStr.lower (default "" (companyName w)))
                                        company_lower)
                   (get_watchlist c)
        then b2 + 5 else b2
    | None => b2
    end in
  Z.min b3 10.

Definition sum_breakdown (b : Breakdown) : Z :=
  b_keywords b + b_title b + b_seniority b + b_location b
  + b_company b + b_freshness b + b_bonuses b + b_adaptive b.

(** [ScoringEngine.score(job)]. *)
Definition score (e : ScoringEngine) (days_old : string -> option Z) (job : Job)
  : ScoreResult :=
  let bd :=
    {| b_keywords := _score_keywords e job;
       b_title := _score_title job;
       b_seniority := _score_seniority e job;
       b_location := _score_location e job;
       b_company := _score_company e job;
       b_freshness := _score_freshness days_old job;
       b_bonuses := bonuses_of e job;
       b_adaptive := _apply_adaptive e job |} in
  let raw_total := sum_breakdown bd in
  let tot := Z.max 0 (Z.min 100 raw_total) in
  {| total := tot;
     breakdown := bd;
     result_strategy := strategy e;
     meets_threshold := _meets_threshold e tot;
     apply_type := _get_apply_type e tot |}.

(** The engine works from the built-in tables. *)
Definition built_in_tables (e : ScoringEngine) : Prop :=
  keyword_weights e = RESUME_KEYWORDS /\
  seniority_boosts e = SENIORITY_BOOSTS /\
  company_tiers e = COMPANY_TIERS /\
  preferred_locations e = PREFERRED_LOCATIONS.

(** *** Auxiliary notions and sample data *)

(** The weight collected from the phrases of [w] found in [text]. *)
Fixpoint matched (text : string) (w : table) : Z :=
  match w with
  | [] => 0
  | kv :: rest =>
      (if PyStr.contains (PyStr.lower (fst kv)) text then snd kv else 0) + matched text rest
  end.

Fixpoint weight_sum (w : table) : Z :=
  match w with
  | [] => 0
  | kv :: rest => snd kv + weight_sum rest
  end.

Definition nonneg_weights (w : table) : Prop := Forall (fun kv => 0 <= snd kv) w.

Definition high_value : table := default [] (lookup_key "high_value" RESUME_KEYWORDS).
Definition medium_value : table := default [] (lookup_key "medium_value" RESUME_KEYWORDS).
Definition low_value : table := default [] (lookup_key "low_value" RESUME_KEYWORDS).

Definition matched_builtin (text : string) : Z :=
  matched text high_value + matched text medium_value + matched text low_value.

(** The two listings compared by the specification, alike in everything
    but title, location, easy-apply flag and salary range. *)
Definition senior_remote (desc comp salary posted : string) : Job :=
  mkJob "Senior Product Manager" desc comp "Remote" salary posted true.

Definition plain_chicago (desc comp posted : string) : Job :=
  mkJob "Product Manager" desc comp "Chicago, IL" "" posted false.

Definition no_clock : string -> option Z := fun _ => None.

(** *** Learning, batch scoring and sectors *)

(** [d[k] = v] on an insertion-ordered dictionary. *)
Fixpoint dict_set (k : string) (v : Z) (d : table) : table :=
  match d with
  | [] => [(k, v)]
  | (k', v') :: rest =>
      if String.eqb k' k then (k', v) :: rest else (k', v') :: dict_set k v rest
  end.

(** [max(-5, min(5, current + boost))] stored under [key]. *)
Definition nudge (boost : Z) (d : table) (key : string) : table :=
  dict_set key (Z.max (-5) (Z.min 5 (default 0 (lookup_key key d) + boost))) d.

(** The signed step of an outcome; 0 for an outcome that teaches nothing. *)
Definition outcome_boost (outcome : string) : Z :=
  default 0 (lookup_key outcome
               [("interview", 3); ("offer", 5); ("rejected", -1); ("ghosted", -2)]).

(** The loop of [learn_from_outcome] over the words of the title. *)
Definition nudge_title_words (boost : Z) (title_lower : string) (d : table) : table :=
  fold_left
    (fun acc word => if 3 <? PyStr.len word then nudge boost acc (PyStr.strip word) else acc)
    (PyStr.split_ws title_lower) d.

Definition set_adaptive_weights (aw : AdaptiveWeights) (e : ScoringEngine) : ScoringEngine :=
  {| config := config e;
     adaptive_weights := aw;
     strategy := strategy e;
     keyword_weights := keyword_weights e;
     seniority_boosts := seniority_boosts e;
     company_tiers := company_tiers e;
     preferred_locations := preferred_locations e |}.

Definition set_strategy (st : string) (e : ScoringEngine) : ScoringEngine :=
  {| config := config e;
     adaptive_weights := adaptive_weights e;
     strategy := st;
     keyword_weights := keyword_weights e;
     seniority_boosts := seniority_boosts e;
     company_tiers := company_tiers e;
     preferred_locations := preferred_locations e |}.

(** [learn_from_outcome(job, outcome)]: the engine afterwards and the
    content of the weights file ([weights_file] before the call). *)
Definition learn_from_outcome (e : ScoringEngine) (weights_file : option AdaptiveWeights)
           (job : Job) (outcome : string)
  : ScoringEngine * option AdaptiveWeights :=
  let boost := outcome_boost outcome in
  if boost =? 0 then (e, weights_file)
  else
    let title_lower := PyStr.lower (title job) in
    let company_lower := PyStr.lower (company job) in
    let tb := nudge_title_words boost title_lower (title_boosts (adaptive_weights e)) in
    let cb := if PyStr.truthy company_lower
              then nudge boost (company_boosts (adaptive_weights e)) company_lower
              else company_boosts (adaptive_weights e) in
    let aw := {| title_boosts := tb; company_boosts := cb |} in
    (set_adaptive_weights aw e, Some aw).

Definition contains_any (words : list string) (text : string) : bool :=
  existsb (fun w => PyStr.contains w text) words.

(** [_categorize_sector(job)]. *)
Definition _categorize_sector (job : Job) : string :=
  let text := PyStr.lower (title job +:+ " " +:+ company job +:+ " " +:+ description job) in
  if contains_any ["biotech"; "pharma"; "clinical"; "therapeutics"; "drug";
                   "genomic"; "amgen"; "genentech"] text then "biotech"
  else if contains_any ["defense"; "aerospace"; "military"; "dod"; "clearance";
                        "navy"; "air force"] text then "defense"
  else if contains_any ["adjunct"; "professor"; "instructor"; "lecturer"; "faculty";
                        "university"; "college"] text then "education"
  else if contains_any ["government"; "federal"; "state of california"; "county";
                        "city of"] text then "government"
  else if contains_any ["startup"; "seed"; "series a"; "venture"] text then "startup"
  else if contains_any ["remote"; "anywhere"] text then "remote"
  else "tech".

(** A job with the keys [batch_score] writes onto it. *)
Record ScoredJob := mkScoredJob {
  sj_job : Job;
  sj_match : Z;
  sj_score_breakdown : Breakdown;
  sj_meets_threshold : bool;
  sj_apply_type : string;
  sj_sector : string
}.

(** The body of the loop of [batch_score]. *)
Definition annotate (e : ScoringEngine) (days_old : string -> option Z) (job : Job)
  : ScoredJob :=
  let result := score e days_old job in
  {| sj_job := job;
     sj_match := total result;
     sj_score_breakdown := breakdown result;
     sj_meets_threshold := meets_threshold result;
     sj_apply_type := apply_type result;
     sj_sector := _categorize_sector job |}.

(** [batch_score(jobs)]. *)
Definition batch_score (e : ScoringEngine) (days_old : string -> option Z)
           (jobs : list Job) : list ScoredJob :=
  PyList.sorted_desc sj_match (map (annotate e days_old) jobs).

(** [score_jobs(jobs, config_manager, strategy)]. *)
Definition score_jobs (weights_file : option AdaptiveWeights)
           (days_old : string -> option Z) (jobs : list Job)
           (config_manager : option ConfigManager) (strategy_arg : string)
  : list ScoredJob :=
  batch_score (set_strategy strategy_arg (init config_manager weights_file)) days_old jobs.

(** Every boost of the table lies between -5 and 5. *)
Definition boosts_small (d : table) : Prop :=
  Forall (fun kv => -5 <= snd kv <= 5) d.

(** The key has a boost in the table and it lies between -5 and 5. *)
Definition boost_small_at (d : table) (key : string) : Prop :=
  exists v, lookup_key key d = Some v /\ -5 <= v <= 5.

Definition sample_engine : ScoringEngine := init None None.

Definition sample_listing : Job :=
  mkJob "Senior Product Manager" "Own the roadmap." "Acme" "Remote" "" "" false.

(** The configuration with another [automation.strategy]. *)
Definition with_strategy (st : option string) (c : ConfigManager) : ConfigManager :=
  {| automation_strategy := st;
     scoring_keyword_weights := scoring_keyword_weights c;
     scoring_seniority_boosts := scoring_seniority_boosts c;
     scoring_company_tiers := scoring_company_tiers c;
     scoring_preferred_locations := scoring_preferred_locations c;
     watchlist := watchlist c |}.

End ScoringEngine.

(** ** dedup_engine.py *)

Module DedupEngine.

(** The library routines the module calls: [urlparse] (network location
    and path of a URL), [re.sub(pattern, repl, s)], and
    [SequenceMatcher(None, a, b).ratio()]. *)
Record Lib := mkLib {
  urlparse : string -> string * string;
  re_sub : string -> string -> string -> string;
  sequence_ratio : string -> string -> Q
}.

(** A job in the dictionary form of a [RawJob], with the keys that
    deduplication adds ([None] while a key is absent). *)
Record Job := mkJob {
  title : string;
  company : string;
  location : string;
  url : string;
  board_source : string;
  description : string;
  salary_range : string;
  posted_date : string;
  easy_apply : bool;
  ats_platform : string;
  job_type : string;
  remote : bool;
  scraped_at : string;
  raw_id : string;
  sources : option (list string);
  easy_apply_url : option string;
  all_urls : option (list string)
}.

Definition set_sources (v : list string) (j : Job) : Job :=
  {| title := title j; company := company j; location := location j;
     url := url j; board_source := board_source j;
     description := description j; salary_range := salary_range j;
     posted_date := posted_date j; easy_apply := easy_apply j;
     ats_platform := ats_platform j; job_type := job_type j;
     remote := remote j; scraped_at := scraped_at j; raw_id := raw_id j;
     sources := Some v; easy_apply_url := easy_apply_url j;
     all_urls := all_urls j |}.

Definition set_all_urls (v : list string) (j : Job) : Job :=
  {| title := title j; company := company j; location := location j;
     url := url j; board_source := board_source j;
     description := description j; salary_range := salary_range j;
     posted_date := posted_date j; easy_apply := easy_apply j;
     ats_platform := ats_platform j; job_type := job_type j;
     remote := remote j; scraped_at := scraped_at j; raw_id := raw_id j;
     sources := sources j; easy_apply_url := easy_apply_url j;
     all_urls := Some v |}.

(** [normalize_title(title)]. *)
Definition normalize_title (lib : Lib) (t0 : string) : string :=
  let t := PyStr.strip (PyStr.lower t0) in
  let t := re_sub lib
    "\s*[-–—|]\s*(remote|hybrid|onsite|on-site|full-time|part-time|contract).*$"
    "" t in
  let t := re_sub lib
    "\s*(i{1,3}|iv|v|vi|1|2|3|4|5|senior|sr\.?|junior|jr\.?|lead|principal|staff)\s*$"
    "" t in
  let t := re_sub lib "^(senior|sr\.?|junior|jr\.?|lead|principal|staff)\s+" "" t in
  let t := re_sub lib "\s*[-–—@]\s*\w+.*$" "" t in
  PyStr.strip (re_sub lib "\s+" " " t).

(** [normalize_company(company)]. *)
Definition normalize_company (lib : Lib) (c0 : string) : string :=
  let c := PyStr.strip (PyStr.lower c0) in
  let c := re_sub lib
    ",?\s*(inc\.?|llc|ltd\.?|corp\.?|co\.?|corporation|company|group|holdings?|technologies|technology|tech)\.?\s*$"
    "" c in
  PyStr.strip (re_sub lib "\s+" " " c).

(** [normalize_url(url)]. *)
Definition normalize_url (lib : Lib) (u : string) : string :=
  if negb (PyStr.truthy u) then ""
  else
    let '(netloc, path0) := urlparse lib u in
    let path := PyStr.rstrip_char "/"%char path0 in
    let clean := PyStr.lower (netloc +:+ path) in
    re_sub lib "^www\." "" clean.

(** [fuzzy_match(s1, s2, threshold)]. *)
Definition fuzzy_match (lib : Lib) (s1 s2 : string) (threshold : Q) : bool :=
  if negb (PyStr.truthy s1) || negb (PyStr.truthy s2) then false
  else Qle_bool threshold (sequence_ratio lib s1 s2).

(** [richness_score(job_dict)]. *)
Definition richness_score (j : Job) : Q :=
  let s0 := 0%Q in
  let s1 := if PyStr.truthy (description j)
            then (s0 + inject_Z (Z.min (PyStr.len (description j)) 5000) / 100)%Q
            else s0 in
  let s2 := if PyStr.truthy (salary_range j) then (s1 + 20)%Q else s1 in
  let s3 := if PyStr.truthy (posted_date j) then (s2 + 10)%Q else s2 in
  let s4 := if easy_apply j then (s3 + 15)%Q else s3 in
  let s5 := if PyStr.truthy (ats_platform j) then (s4 + 5)%Q else s4 in
  let s6 := if PyStr.truthy (job_type j) then (s5 + 5)%Q else s5 in
  if PyStr.truthy (url j) then (s6 + 5)%Q else s6.

(** [group.sort(key=richness_score, reverse=True)]: richest first, equal
    keys in their original order. *)
Fixpoint insert_by_richness (x : Job) (sorted : list Job) : list Job :=
  match sorted with
  | [] => [x]
  | y :: rest =>
      if negb (Qle_bool (richness_score y) (richness_score x))
      then y :: insert_by_richness x rest
      else x :: sorted
  end.

Definition sort_by_richness (group : list Job) : list Job :=
  fold_right insert_by_richness [] group.

(** [list(set(xs))]; Python leaves the order open, the model keeps the
    order of first occurrence. *)
Definition list_set (xs : list string) : list string := remove_dups xs.

(** One pass of the back-fill loop of [_merge_group]. *)
Definition backfill (best job : Job) : Job :=
  let pick (mine theirs : string) :=
    if negb (PyStr.truthy mine) && PyStr.truthy theirs then theirs else mine in
  {| title := title best; company := company best; location := location best;
     url := url best; board_source := board_source best;
     description := pick (description best) (description job);
     salary_range := pick (salary_range best) (salary_range job);
     posted_date := pick (posted_date best) (posted_date job);
     easy_apply := if easy_apply job then true else easy_apply best;
     ats_platform := pick (ats_platform best) (ats_platform job);
     job_type := pick (job_type best) (job_type job);
     remote := remote best; scraped_at := scraped_at best; raw_id := raw_id best;
     sources := sources best;
     easy_apply_url :=
       if easy_apply job && PyStr.truthy (url job) then Some (url job)
       else easy_apply_url best;
     all_urls := all_urls best |}.

(** [_merge_group(group)]; the group is never empty. *)
Definition _merge_group (group : list Job) : option Job :=
  match group with
  | [] => None
  | [job] => Some (set_sources [board_source job] job)
  | _ =>
      match sort_by_richness group with
      | [] => None
      | first :: others =>
          let best := set_sources (list_set (map board_source group)) first in
          let best := fold_left backfill others best in
          Some (set_all_urls
                  (list_set (map url (filter (fun j => PyStr.truthy (url j) = true) group)))
                  best)
      end
  end.

(** [url_groups[norm_url].append(job)] on an insertion-ordered dictionary. *)
Fixpoint group_append (key : string) (job : Job) (groups : list (string * list Job))
  : list (string * list Job) :=
  match groups with
  | [] => [(key, [job])]
  | (k, g) :: rest =>
      if String.eqb k key then (k, (g ++ [job])%list) :: rest
      else (k, g) :: group_append key job rest
  end.

(** Phase 1: the URL groups and the jobs without a URL. *)
Definition split_by_url (lib : Lib) (jobs : list Job)
  : list (string * list Job) * list Job :=
  fold_left
    (fun acc job =>
       let norm_url := normalize_url lib (url job) in
       if PyStr.truthy norm_url
       then (group_append norm_url job (fst acc), snd acc)
       else (fst acc, (snd acc ++ [job])%list))
    jobs ([], []).

Record DeduplicationEngine := mkDedup {
  title_threshold : Q;
  company_threshold : Q
}.

(** The test that puts [job_b] into the cluster opened by [job_a]. *)
Definition same_posting (lib : Lib) (eng : DeduplicationEngine) (job_a job_b : Job) : bool :=
  fuzzy_match lib (normalize_title lib (title job_a)) (normalize_title lib (title job_b))
              (title_threshold eng)
  && fuzzy_match lib (normalize_company lib (company job_a))
                 (normalize_company lib (company job_b)) (company_threshold eng).

(** Phase 2: every candidate not yet used opens a cluster and takes the
    later unused candidates that match it.  [fuel] bounds the number of
    clusters; the length of the candidate list is enough. *)
Fixpoint cluster_from (lib : Lib) (eng : DeduplicationEngine) (fuel : nat)
         (candidates : list Job) : list (list Job) :=
  match fuel, candidates with
  | S fuel', job_a :: rest =>
      (job_a :: filter (fun b => same_posting lib eng job_a b = true) rest)
      :: cluster_from lib eng fuel'
           (filter (fun b => same_posting lib eng job_a b <> true) rest)
  | _, _ => []
  end.

Record Stats := mkStats {
  total_input : nat;
  duplicates_found : nat;
  unique_output : nat;
  cross_board_merges : nat
}.

(** The members a cluster took from another board than its head. *)
Definition cross_board (cluster : list Job) : nat :=
  match cluster with
  | [] => 0
  | job_a :: members =>
      length (filter (fun b => board_source b <> board_source job_a) members)
  end.

(** The merge of one cluster at the end of [deduplicate]. *)
Definition merge_cluster (cluster : list Job) : option Job :=
  match cluster with
  | [job] => Some (set_sources [board_source job] job)
  | _ => _merge_group cluster
  end.

(** [DeduplicationEngine.deduplicate(jobs)]: the result and the
    statistics of the run. *)
Definition deduplicate (lib : Lib) (eng : DeduplicationEngine) (jobs : list Job)
  : list Job * Stats :=
  match jobs with
  | [] => ([], mkStats 0 0 0 0)
  | _ =>
      let '(url_groups, no_url) := split_by_url lib jobs in
      let merged := omap (fun kg => _merge_group (snd kg)) url_groups in
      let all_candidates := (merged ++ no_url)%list in
      let clusters := cluster_from lib eng (length all_candidates) all_candidates in
      let result := omap merge_cluster clusters in
      (result,
       {| total_input := length jobs;
          duplicates_found :=
            list_sum (map (fun c => match c with
                                    | [_] => 0%nat
                                    | _ => (length c - 1)%nat
                                    end) clusters);
          unique_output := length result;
          cross_board_merges := list_sum (map cross_board clusters) |})
  end.

(** The outcome the specification promises for two postings of one URL:
    a single record with description and salary range filled and both
    boards among its sources. *)
Definition merged_with_both_sources (j1 j2 : Job) (result : list Job) : Prop :=
  exists r, result = [r] /\
    description r <> "" /\ salary_range r <> "" /\
    exists srcs, sources r = Some srcs /\
                 In (board_source j1) srcs /\ In (board_source j2) srcs.

(** *** Auxiliary notions and sample data *)

(** Text up to the first character satisfying [stop], and the rest. *)
Fixpoint break_at (stop : ascii -> bool) (s : string) : string * string :=
  match s with
  | EmptyString => (EmptyString, EmptyString)
  | String c r =>
      if stop c then (EmptyString, s)
      else let '(a, b) := break_at stop r in (String c a, b)
  end.

Definition drop2 (r : string) : string :=
  match r with
  | String _ (String _ rest) => rest
  | _ => EmptyString
  end.

(** The text after the first ["://"], if any. *)
Fixpoint after_scheme (s : string) : option string :=
  match s with
  | EmptyString => None
  | String c r => if PyStr.starts_with "://" s then Some (drop2 r) else after_scheme r
  end.

(** Network location and path of URLs of the form
    [scheme://host/path?query#fragment], as [urlparse] splits them. *)
Definition sample_urlparse (u : string) : string * string :=
  match after_scheme u with
  | None => (EmptyString, fst (break_at (fun c => bool_decide (c = "?"%char)
                                               || bool_decide (c = "#"%char)) u))
  | Some rest =>
      let '(netloc, tail) :=
        break_at (fun c => bool_decide (c = "/"%char) || bool_decide (c = "?"%char)
                           || bool_decide (c = "#"%char)) rest in
      (netloc, fst (break_at (fun c => bool_decide (c = "?"%char)
                                       || bool_decide (c = "#"%char)) tail))
  end.

(** [re.sub] on the sample postings: only the leading ["www."] of a URL
    is ever matched there. *)
Definition sample_re_sub (pattern repl s : string) : string :=
  if String.eqb pattern "^www\." && PyStr.starts_with "www." s
  then repl +:+ String.substring 4 (String.length s - 4) s
  else s.

Definition sample_lib : Lib :=
  mkLib sample_urlparse sample_re_sub
        (fun a b => if String.eqb a b then 1%Q else 0%Q).

Definition default_engine : DeduplicationEngine := mkDedup (85 # 100) (80 # 100).

Definition raw_job (t c u board desc salary : string) : Job :=
  mkJob t c "Remote" u board desc salary "" false "" "" false
        "2024-01-01T09:00:00" "0123456789ab" None None None.

Definition indeed_posting : Job :=
  raw_job "Product Manager" "Acme" "https://www.example.com/jobs/1/" "indeed"
          "Own the roadmap for the data platform." "".

Definition linkedin_posting : Job :=
  raw_job "Product Manager" "Acme" "https://example.com/jobs/1" "linkedin"
          "" "$150k-$180k".

(** *** Notions used to state what the merge keeps *)

(** The record carries a non-empty [sources] list. *)
Definition has_sources (j : Job) : Prop :=
  exists srcs, sources j = Some srcs /\ srcs <> [].

(** [base] is a member of the group that no member is richer than. *)
Definition richest_in (group : list Job) (base : Job) : Prop :=
  In base group /\
  forall j, In j group -> (richness_score j <= richness_score base)%Q.

(** The list is ordered by richness, richest first. *)
Definition richest_first (l : list Job) : Prop :=
  StronglySorted (fun a b => (richness_score b <= richness_score a)%Q) l.

End DedupEngine.

(* ===================================================================== *)
(** * Properties *)
(* ===================================================================== *)

(** ** Facts about the string primitives *)

Module PyStrFacts.
Import PyStr.

Lemma take_length (n : nat) (s : string) :
  String.length (take n s) = Nat.min n (String.length s).
Proof.
  revert s; induction n as [|n IH]; intros [|c r]; simpl; auto.
Qed.

Lemma length_app (a b : string) :
  String.length (a +:+ b) = (String.length a + String.length b)%nat.
Proof. induction a as [|c a IH]; simpl; auto. Qed.

Lemma starts_with_app (p s : string) : starts_with p (p +:+ s) = true.
Proof.
  induction p as [|c p IH]; simpl; [reflexivity|].
  destruct (ascii_dec c c); [exact IH | congruence].
Qed.

Lemma contains_cons (n : string) (c : ascii) (h : string) :
  contains n h = true -> contains n (String c h) = true.
Proof.
  intros H. simpl. rewrite H. apply orb_true_r.
Qed.

(** A needle found in a text is still found after text is put in front. *)
Lemma contains_prepend (n p h : string) :
  contains n h = true -> contains n (p +:+ h) = true.
Proof.
  intros H. induction p as [|c p IH]; simpl; [exact H|].
  change (contains n (String c (p +:+ h)) = true).
  apply contains_cons, IH.
Qed.

Lemma truthy_false (s : string) : truthy s = false <-> s = "".
Proof. destruct s; simpl; split; congruence. Qed.

Lemma app_cons (x : ascii) (a b : string) : String x a +:+ b = String x (a +:+ b).
Proof. reflexivity. Qed.

Lemma app_empty (b : string) : "" +:+ b = b.
Proof. reflexivity. Qed.

Lemma app_assoc (a b c : string) : (a +:+ b) +:+ c = a +:+ (b +:+ c).
Proof.
  induction a as [|x a IH]; [reflexivity|]. rewrite !app_cons, IH. reflexivity.
Qed.

Lemma take_all (n : nat) (s : string) :
  (String.length s <= n)%nat -> take n s = s.
Proof.
  revert s; induction n as [|n IH]; intros [|c r]; simpl; intros H;
    try reflexivity; try lia.
  f_equal. apply IH. lia.
Qed.

(** *** Facts about [all_chars] *)

Lemma all_chars_impl (p q : ascii -> bool) (s : string) :
  (forall c, p c = true -> q c = true) -> all_chars p s = true -> all_chars q s = true.
Proof.
  intros Hpq. induction s as [|c r IH]; simpl; [reflexivity|].
  intros H. apply andb_true_iff in H as [Hc Hr]. rewrite (Hpq c Hc). apply IH, Hr.
Qed.

Lemma all_chars_app (p : ascii -> bool) (a b : string) :
  all_chars p (a +:+ b) = all_chars p a && all_chars p b.
Proof.
  induction a as [|x a IH]; [reflexivity|].
  rewrite app_cons. simpl. rewrite IH. apply andb_assoc.
Qed.

Lemma all_chars_take (p : ascii -> bool) (n : nat) (s : string) :
  all_chars p s = true -> all_chars p (take n s) = true.
Proof.
  revert s; induction n as [|n IH]; intros [|c r]; simpl; auto.
  intros H. apply andb_true_iff in H as [Hc Hr]. rewrite Hc. simpl. apply IH, Hr.
Qed.

Lemma all_chars_drop_while (p q : ascii -> bool) (s : string) :
  all_chars p s = true -> all_chars p (drop_while q s) = true.
Proof.
  induction s as [|c r IH]; simpl; [reflexivity|].
  intros H. destruct (q c); [|exact H].
  apply andb_true_iff in H as [_ Hr]. apply IH, Hr.
Qed.

Lemma all_chars_drop_while_end (p q : ascii -> bool) (s : string) :
  all_chars p s = true -> all_chars p (drop_while_end q s) = true.
Proof.
  induction s as [|c r IH]; simpl; [reflexivity|].
  intros H. apply andb_true_iff in H as [Hc Hr]. specialize (IH Hr).
  destruct (drop_while_end q r) as [|c' r'].
  - destruct (q c); simpl; [reflexivity|]. rewrite Hc. reflexivity.
  - change (p c && all_chars p (String c' r') = true). rewrite Hc, IH. reflexivity.
Qed.

Lemma all_chars_collapse (p : ascii -> bool) (c : ascii) (s : string) :
  all_chars p s = true -> all_chars p (collapse_runs c s) = true.
Proof.
  induction s as [|x r IH]; simpl; [reflexivity|].
  intros H. apply andb_true_iff in H as [Hx Hr].
  destruct (_ && _); [apply IH, Hr|]. simpl. rewrite Hx. apply IH, Hr.
Qed.

Lemma all_chars_sub_class (p q0 q : ascii -> bool) (repl s : string) :
  all_chars q repl = true ->
  (forall c, q0 c = true -> p c = false -> q c = true) ->
  all_chars q0 s = true ->
  all_chars q (sub_class p repl s) = true.
Proof.
  intros Hrepl Hq. induction s as [|x r IH]; simpl; [reflexivity|].
  intros H. apply andb_true_iff in H as [Hx Hr].
  destruct (p x) eqn:Hp.
  - rewrite all_chars_app, Hrepl. apply IH, Hr.
  - simpl. rewrite (Hq x Hx Hp). apply IH, Hr.
Qed.

Lemma replace_char_clears (c : ascii) (s : string) :
  all_chars (fun x => negb (Ascii.eqb x c)) (replace_char c "" s) = true.
Proof.
  induction s as [|x r IH]; simpl; [reflexivity|].
  destruct (Ascii.eqb x c) eqn:E; [rewrite app_empty; exact IH|].
  simpl. rewrite E. exact IH.
Qed.

Lemma replace_char_absent (c : ascii) (val s : string) :
  all_chars (fun x => negb (Ascii.eqb x c)) s = true -> replace_char c val s = s.
Proof.
  induction s as [|x r IH]; simpl; [reflexivity|].
  intros H. apply andb_true_iff in H as [Hx Hr].
  apply negb_true_iff in Hx. rewrite Hx. f_equal. apply IH, Hr.
Qed.

Lemma replace_char_app (c : ascii) (val a b : string) :
  replace_char c val (a +:+ b) = replace_char c val a +:+ replace_char c val b.
Proof.
  induction a as [|x a IH]; [reflexivity|].
  rewrite app_cons. simpl.
  destruct (Ascii.eqb x c); rewrite IH; [|reflexivity].
  symmetry. apply app_assoc.
Qed.

Lemma sub_class_absent (p : ascii -> bool) (repl s : string) :
  all_chars (fun x => negb (p x)) s = true -> sub_class p repl s = s.
Proof.
  induction s as [|x r IH]; simpl; [reflexivity|].
  intros H. apply andb_true_iff in H as [Hx Hr].
  apply negb_true_iff in Hx. rewrite Hx. f_equal. apply IH, Hr.
Qed.

(** *** First characters *)

Lemma starts_with_one (c : ascii) (s : string) :
  starts_with (String c "") s = head_sat (fun b => Ascii.eqb c b) s.
Proof.
  destruct s as [|b r]; simpl; [reflexivity|].
  destruct (ascii_dec c b) as [->|Hne].
  - symmetry. apply Ascii.eqb_refl.
  - symmetry. apply Ascii.eqb_neq, Hne.
Qed.

Lemma head_drop_while (p : ascii -> bool) (s : string) :
  head_sat p (drop_while p s) = false.
Proof.
  induction s as [|c r IH]; simpl; [reflexivity|].
  destruct (p c) eqn:E; [exact IH|]. simpl. exact E.
Qed.

Lemma drop_while_fixed (p : ascii -> bool) (s : string) :
  head_sat p s = false -> drop_while p s = s.
Proof. destruct s as [|c r]; simpl; [reflexivity|]. intros ->. reflexivity. Qed.

Lemma head_collapse (q : ascii -> bool) (c : ascii) (s : string) :
  head_sat q (collapse_runs c s) = head_sat q s.
Proof.
  induction s as [|x r IH]; simpl; [reflexivity|].
  destruct (Ascii.eqb_spec x c) as [->|Hne]; simpl; [|reflexivity].
  destruct r as [|b r']; [reflexivity|].
  cbn [starts_with]. destruct (ascii_dec c b) as [->|Hb]; [|reflexivity].
  rewrite IH. reflexivity.
Qed.

Lemma head_take (q : ascii -> bool) (n : nat) (s : string) :
  head_sat q s = false -> head_sat q (take n s) = false.
Proof. destruct n, s; simpl; auto. Qed.

Lemma head_drop_while_end (q p : ascii -> bool) (s : string) :
  head_sat q s = false -> head_sat q (drop_while_end p s) = false.
Proof.
  destruct s as [|c r]; simpl; [reflexivity|]. intros H.
  destruct (drop_while_end p r); [destruct (p c)|]; simpl; auto.
Qed.

(** *** Runs of one character *)

Lemma no_double_collapse (c : ascii) (s : string) :
  no_double c (collapse_runs c s) = true.
Proof.
  induction s as [|x r IH]; [reflexivity|]. cbn [collapse_runs].
  destruct (Ascii.eqb x c && starts_with (String c "") r) eqn:E; [exact IH|].
  cbn [no_double]. rewrite IH, andb_true_r.
  rewrite starts_with_one, head_collapse, <- starts_with_one, E. reflexivity.
Qed.

Lemma collapse_fixed (c : ascii) (s : string) :
  no_double c s = true -> collapse_runs c s = s.
Proof.
  induction s as [|x r IH]; [reflexivity|]. cbn [collapse_runs no_double].
  intros H. apply andb_true_iff in H as [Hx Hr].
  apply negb_true_iff in Hx. rewrite Hx. f_equal. apply IH, Hr.
Qed.

Lemma no_double_take (c : ascii) (n : nat) (s : string) :
  no_double c s = true -> no_double c (take n s) = true.
Proof.
  revert s; induction n as [|n IH]; intros [|x r]; try reflexivity.
  cbn [take no_double].
  intros H. apply andb_true_iff in H as [Hx Hr].
  rewrite (IH r Hr), andb_true_r.
  apply negb_true_iff in Hx. apply negb_true_iff.
  apply andb_false_iff in Hx as [Hx|Hx]; [rewrite Hx; reflexivity|].
  rewrite starts_with_one in *. rewrite (head_take _ n r Hx). apply andb_false_r.
Qed.

Lemma no_double_drop_while_end (c : ascii) (p : ascii -> bool) (s : string) :
  no_double c s = true -> no_double c (drop_while_end p s) = true.
Proof.
  induction s as [|x r IH]; [reflexivity|]. cbn [drop_while_end no_double].
  intros H. apply andb_true_iff in H as [Hx Hr]. specialize (IH Hr).
  assert (Hhead : negb (Ascii.eqb x c && starts_with (String c "") (drop_while_end p r))
                  = true).
  { apply negb_true_iff in Hx. apply negb_true_iff.
    apply andb_false_iff in Hx as [Hx|Hx]; [rewrite Hx; reflexivity|].
    rewrite starts_with_one in *. rewrite (head_drop_while_end _ p r Hx).
    apply andb_false_r. }
  destruct (drop_while_end p r) as [|c' r'].
  - destruct (p x); [reflexivity|]. cbn. rewrite andb_false_r. reflexivity.
  - change (negb (Ascii.eqb x c && starts_with (String c "") (String c' r'))
            && no_double c (String c' r') = true).
    rewrite Hhead, IH. reflexivity.
Qed.

(** *** Stripping at the end *)

Lemma drop_while_end_idem (p : ascii -> bool) (s : string) :
  drop_while_end p (drop_while_end p s) = drop_while_end p s.
Proof.
  induction s as [|c r IH]; simpl; [reflexivity|].
  destruct (drop_while_end p r) as [|c' r'] eqn:E.
  - destruct (p c) eqn:Hc; simpl; [reflexivity|]. rewrite Hc. reflexivity.
  - change (drop_while_end p (String c (String c' r'))) with
      (match drop_while_end p (String c' r') with
       | EmptyString => if p c then EmptyString else String c EmptyString
       | r0 => String c r0
       end).
    rewrite IH. reflexivity.
Qed.

Lemma drop_while_end_length (p : ascii -> bool) (s : string) :
  (String.length (drop_while_end p s) <= String.length s)%nat.
Proof.
  induction s as [|c r IH]; simpl; [lia|].
  destruct (drop_while_end p r) as [|c' r']; [destruct (p c)|]; simpl in *; lia.
Qed.

End PyStrFacts.

(** ** Facts about the list primitives *)

Module PyListFacts.
Import PyList.

Lemma insert_desc_perm {A} (key : A -> Z) (x : A) (l : list A) :
  Permutation (insert_desc key x l) (x :: l).
Proof.
  induction l as [|y l IH]; simpl; [reflexivity|].
  destruct (key x <? key y); [|reflexivity].
  rewrite IH. apply perm_swap.
Qed.

Lemma sorted_desc_perm {A} (key : A -> Z) (l : list A) :
  Permutation (sorted_desc key l) l.
Proof.
  induction l as [|x l IH]; simpl; [reflexivity|].
  rewrite insert_desc_perm. constructor. exact IH.
Qed.

Lemma insert_desc_descending {A} (key : A -> Z) (x : A) (l : list A) :
  descending key l -> descending key (insert_desc key x l).
Proof.
  unfold descending. induction 1 as [|y l Hs IH Hy]; simpl.
  - repeat constructor.
  - destruct (Z.ltb_spec (key x) (key y)) as [Hlt|Hge].
    + constructor; [exact IH|].
      rewrite (Forall_forall (fun b => key b <= key y)).
      intros z Hz. rewrite insert_desc_perm in Hz.
      apply elem_of_cons in Hz as [->|Hz]; [lia|].
      rewrite Forall_forall in Hy. apply Hy, Hz.
    + constructor; [constructor; assumption|].
      constructor; [lia|].
      eapply Forall_impl; [exact Hy|]. intros z Hz. simpl in Hz. lia.
Qed.

Lemma sorted_desc_descending {A} (key : A -> Z) (l : list A) :
  descending key (sorted_desc key l).
Proof.
  induction l as [|x l IH]; simpl; [constructor|].
  apply insert_desc_descending, IH.
Qed.

Lemma slice_to_length {A} (xs : list A) (n : Z) :
  0 <= n -> (length (slice_to xs n) <= Z.to_nat n)%nat.
Proof.
  intros Hn. unfold slice_to.
  destruct (Z.leb_spec 0 n); [|lia]. rewrite length_take. lia.
Qed.

End PyListFacts.

(** ** security.py *)

Module SecurityFacts.
Import PyStr PyStrFacts Security.

Example mask_docstring : mask_credential "my_secret_password" 4 = "my_s***".
Proof. reflexivity. Qed.

(** C3, as stated, fails: a four-character credential masked with
    [visible_chars = 4] comes back as three stars, although it is not
    strictly shorter than [visible_chars] and its four-character prefix
    followed by stars is something else. *)
Lemma mask_credential_boundary_refutes_spec : ~ masks_as_specified "abcd" 4.
Proof.
  intros [Hiff _].
  assert (H : mask_credential "abcd" 4 = "***") by reflexivity.
  apply Hiff in H. vm_compute in H. discriminate H.
Qed.

(** C3 (amended): for a positive [visible_chars], the empty value is
    rendered "[EMPTY]"; a non-empty value is rendered "***" exactly
    when its length is at most [visible_chars] (equality included); and
    a strictly longer value is rendered as its first [visible_chars]
    characters followed by "***". *)
Theorem mask_credential_cases (value : string) (visible_chars : Z) :
  0 < visible_chars ->
  (value = "" -> mask_credential value visible_chars = "[EMPTY]") /\
  (value <> "" ->
     (mask_credential value visible_chars = "***" <->
      len value <= visible_chars)) /\
  (visible_chars < len value ->
     mask_credential value visible_chars =
     take (Z.to_nat visible_chars) value +:+ "***").
Proof.
  intros Hpos. unfold mask_credential, slice_to.
  split; [intros ->; reflexivity|].
  assert (Hge : (0 <=? visible_chars) = true) by (apply Z.leb_le; lia).
  rewrite Hge.
  split.
  - intros Hne.
    assert (Ht : truthy value = true) by (destruct value; [congruence|reflexivity]).
    rewrite Ht. simpl negb. cbv iota.
    destruct (Z.leb_spec (len value) visible_chars) as [Hle|Hgt].
    + split; [intros _; exact Hle | reflexivity].
    + split; [|lia].
      intros Heq. exfalso.
      apply (f_equal String.length) in Heq.
      rewrite length_app, take_length in Heq. simpl in Heq.
      unfold len in Hgt. lia.
  - intros Hlt.
    assert (Ht : truthy value = true).
    { destruct value; [|reflexivity]. unfold len in Hlt. simpl in Hlt. lia. }
    rewrite Ht. simpl negb. cbv iota.
    destruct (Z.leb_spec (len value) visible_chars) as [Hle|_]; [lia|reflexivity].
Qed.

Lemma mask_credential_cases_witness :
  0 < 4 /\ mask_credential "abcde" 4 = take 4 "abcde" +:+ "***".
Proof.
  split; [lia|].
  apply (mask_credential_cases "abcde" 4); [lia | vm_compute; reflexivity].
Defined.

(** *** [sanitize_html] *)

Lemma escape_app (a b : string) : escape (a +:+ b) = escape a +:+ escape b.
Proof. unfold escape. rewrite !replace_char_app. reflexivity. Qed.

Lemma escape_one (c : ascii) : escape (String c "") = escape_char c.
Proof. destruct c as [[] [] [] [] [] [] [] []]; reflexivity. Qed.

Lemma escape_cons (c : ascii) (r : string) :
  escape (String c r) = escape_char c +:+ escape r.
Proof.
  change (String c r) with (String c "" +:+ r).
  rewrite escape_app, escape_one. reflexivity.
Qed.

Lemma escape_char_clean (c : ascii) :
  all_chars (fun x => negb (char_in x MARKUP_CHARS)) (escape_char c) = true.
Proof. destruct c as [[] [] [] [] [] [] [] []]; reflexivity. Qed.

Lemma escape_char_plain (c : ascii) :
  char_in c (String "&" MARKUP_CHARS) = false -> escape_char c = String c "".
Proof. destruct c as [[] [] [] [] [] [] [] []]; intros H; try reflexivity; discriminate H. Qed.

Lemma escape_char_length (c : ascii) : (1 <= String.length (escape_char c))%nat.
Proof.
  unfold escape_char.
  repeat match goal with |- context [Ascii.eqb ?a ?b] => destruct (Ascii.eqb a b) end;
    simpl; lia.
Qed.

Lemma escape_char_inj (c c' : ascii) (x y : string) :
  escape_char c +:+ x = escape_char c' +:+ y -> c = c' /\ x = y.
Proof.
  unfold escape_char.
  destruct (Ascii.eqb_spec c "&") as [->|N1];
    [|destruct (Ascii.eqb_spec c "<") as [->|N2];
      [|destruct (Ascii.eqb_spec c ">") as [->|N3];
        [|destruct (Ascii.eqb_spec c "034") as [->|N4];
          [|destruct (Ascii.eqb_spec c "'") as [->|N5]]]]];
  (destruct (Ascii.eqb_spec c' "&") as [->|M1];
    [|destruct (Ascii.eqb_spec c' "<") as [->|M2];
      [|destruct (Ascii.eqb_spec c' ">") as [->|M3];
        [|destruct (Ascii.eqb_spec c' "034") as [->|M4];
          [|destruct (Ascii.eqb_spec c' "'") as [->|M5]]]]]);
  cbv [String.append]; intros H; try discriminate H;
  try (injection H as H; subst; split; reflexivity);
  try (injection H as Hc Hr; subst; congruence).
Qed.

(** X22: [sanitize_html] leaves no angle bracket and no single or double
    quote in its result, returns a text without any of the five special
    characters as it is, never shortens a text, and loses nothing: two
    different texts never get the same escaped form. *)
Theorem sanitize_html_is_clean_and_lossless :
  (forall text,
     all_chars (fun c => negb (char_in c MARKUP_CHARS)) (sanitize_html text) = true) /\
  (forall text,
     all_chars (fun c => negb (char_in c (String "&" MARKUP_CHARS))) text = true ->
     sanitize_html text = text) /\
  (forall text, (String.length text <= String.length (sanitize_html text))%nat) /\
  (forall a b, sanitize_html a = sanitize_html b -> a = b).
Proof.
  unfold sanitize_html. repeat split.
  - intros text. induction text as [|c r IH]; [reflexivity|].
    rewrite escape_cons, all_chars_app, escape_char_clean, IH. reflexivity.
  - intros text. induction text as [|c r IH]; [reflexivity|].
    cbn [all_chars]. intros H. apply andb_true_iff in H as [Hc Hr].
    apply negb_true_iff in Hc.
    rewrite escape_cons, (escape_char_plain c Hc), (IH Hr). reflexivity.
  - intros text. induction text as [|c r IH]; [simpl; lia|].
    rewrite escape_cons, length_app. pose proof (escape_char_length c). simpl. lia.
  - intros a. induction a as [|c r IH]; intros [|c' r'] H.
    + reflexivity.
    + exfalso. rewrite escape_cons in H. apply (f_equal String.length) in H.
      rewrite length_app in H. pose proof (escape_char_length c'). simpl in H. lia.
    + exfalso. rewrite escape_cons in H. apply (f_equal String.length) in H.
      rewrite length_app in H. pose proof (escape_char_length c). simpl in H. lia.
    + rewrite !escape_cons in H. apply escape_char_inj in H as [-> H].
      f_equal. apply IH, H.
Qed.

(** *** [sanitize_filename] *)

Lemma unnamed_shape :
  all_chars safe_char "unnamed" = true /\
  head_sat (fun c => char_in c ". ") "unnamed" = false /\
  no_double "_" "unnamed" = true /\
  rstrip_chars "_. " "unnamed" = "unnamed".
Proof. repeat split; reflexivity. Qed.

(** The shape of every result of [sanitize_filename]. *)
Lemma sanitize_filename_shape (nfkd : string -> string) (name : string) (max_length : Z) :
  let r := sanitize_filename nfkd name max_length in
  r <> "" /\
  all_chars safe_char r = true /\
  head_sat (fun c => char_in c ". ") r = false /\
  no_double "_" r = true /\
  rstrip_chars "_. " r = r /\
  (0 <= max_length -> r = "unnamed" \/ len r <= max_length).
Proof.
  unfold sanitize_filename.
  set (n2 := sub_class (fun c => char_in c DANGEROUS_CHARS) "_"
               (replace_char "000" "" (nfkd name))).
  set (n4 := collapse_runs "_" (lstrip_chars ". " n2)).
  set (n5 := rstrip_chars "_. " (slice_to n4 max_length)).
  assert (H2 : all_chars safe_char n2 = true).
  { apply (all_chars_sub_class _ (fun x => negb (Ascii.eqb x "000")));
      [reflexivity| |apply replace_char_clears].
    intros c Hc Hp. unfold safe_char. rewrite Hc, Hp. reflexivity. }
  assert (Hslice : exists k, slice_to n4 max_length = take k n4).
  { unfold slice_to. destruct (0 <=? max_length); eauto. }
  destruct Hslice as [k Hk].
  assert (Hsafe : all_chars safe_char n5 = true).
  { unfold n5, rstrip_chars. rewrite Hk.
    apply all_chars_drop_while_end, all_chars_take, all_chars_collapse,
      all_chars_drop_while, H2. }
  assert (Hhead : head_sat (fun c => char_in c ". ") n5 = false).
  { unfold n5, rstrip_chars. rewrite Hk.
    apply head_drop_while_end, head_take. unfold n4. rewrite head_collapse.
    apply head_drop_while. }
  assert (Hrun : no_double "_" n5 = true).
  { unfold n5, rstrip_chars. rewrite Hk.
    apply no_double_drop_while_end, no_double_take, no_double_collapse. }
  assert (Hstrip : rstrip_chars "_. " n5 = n5)
    by apply drop_while_end_idem.
  assert (Hlen : 0 <= max_length -> len n5 <= max_length).
  { intros Hm. unfold n5, rstrip_chars, slice_to.
    destruct (Z.leb_spec 0 max_length); [|lia].
    pose proof (drop_while_end_length (fun c => char_in c "_. ")
                  (take (Z.to_nat max_length) n4)) as Hd.
    rewrite take_length in Hd. unfold len. lia. }
  destruct (truthy n5) eqn:Ht; cbv zeta.
  - split; [intros ->; discriminate Ht|]. auto 10.
  - destruct unnamed_shape as (U1 & U2 & U3 & U4). split; [discriminate|]. auto 10.
Qed.

(** X23: whatever the name and the length bound, the result of
    [sanitize_filename] is not empty, holds no NUL and none of the
    dangerous characters (path separators among them), does not begin
    with a dot or a space, does not end with an underscore, a dot or a
    space, and, for a non-negative bound, is either the fallback "unnamed"
    or at most [max_length] characters long. *)
Theorem sanitize_filename_is_safe (nfkd : string -> string) (name : string)
        (max_length : Z) :
  let r := sanitize_filename nfkd name max_length in
  r <> "" /\
  all_chars safe_char r = true /\
  lstrip_chars ". " r = r /\
  rstrip_chars "_. " r = r /\
  (0 <= max_length -> r = "unnamed" \/ len r <= max_length).
Proof.
  destruct (sanitize_filename_shape nfkd name max_length) as (H1 & H2 & H3 & _ & H5 & H6).
  cbv zeta. split; [exact H1|]. split; [exact H2|].
  split; [apply drop_while_fixed, H3|]. split; [exact H5|exact H6].
Qed.

(** X24: with a length bound of at least 7 (the length of the fallback
    name), sanitizing a sanitized name again changes nothing, provided
    Unicode normalisation leaves the sanitized name alone (as it does for
    ASCII names). *)
Theorem sanitize_filename_idempotent (nfkd : string -> string) (name : string)
        (max_length : Z) :
  7 <= max_length ->
  nfkd (sanitize_filename nfkd name max_length) = sanitize_filename nfkd name max_length ->
  sanitize_filename nfkd (sanitize_filename nfkd name max_length) max_length
  = sanitize_filename nfkd name max_length.
Proof.
  intros Hm Hn.
  destruct (sanitize_filename_shape nfkd name max_length) as (H1 & H2 & H3 & H4 & H5 & H6).
  cbv zeta in *. set (r := sanitize_filename nfkd name max_length) in *.
  unfold sanitize_filename at 1. rewrite Hn.
  assert (Hnul : replace_char "000" "" r = r).
  { apply replace_char_absent. revert H2. apply all_chars_impl. intros c Hc.
    apply andb_true_iff in Hc as [Hc _]. exact Hc. }
  rewrite Hnul.
  assert (Hsub : sub_class (fun c => char_in c DANGEROUS_CHARS) "_" r = r).
  { apply sub_class_absent. revert H2. apply all_chars_impl. intros c Hc.
    apply andb_true_iff in Hc as [_ Hc]. exact Hc. }
  rewrite Hsub. unfold lstrip_chars. rewrite (drop_while_fixed _ r H3).
  rewrite (collapse_fixed _ r H4).
  assert (Hlen : len r <= max_length).
  { destruct (H6 ltac:(lia)) as [->|Hl]; [exact Hm|exact Hl]. }
  unfold slice_to. destruct (Z.leb_spec 0 max_length); [|lia].
  rewrite take_all by (unfold len in Hlen; lia).
  rewrite H5. destruct r; [congruence|reflexivity].
Qed.

Lemma sanitize_filename_idempotent_witness :
  7 <= 100 /\
  sanitize_filename (fun s => s) "../etc/passwd" 100 = "_etc_passwd" /\
  sanitize_filename (fun s => s) (sanitize_filename (fun s => s) "../etc/passwd" 100) 100
  = sanitize_filename (fun s => s) "../etc/passwd" 100.
Proof.
  split; [lia|]. split; [reflexivity|].
  apply (sanitize_filename_idempotent (fun s => s) "../etc/passwd" 100); [lia|reflexivity].
Defined.

End SecurityFacts.

(** ** rate_limiter.py *)

Module RateLimiterFacts.
Import RateLimiter.

Lemma dd_get_touch {V} (d0 : V) (m : gmap string V) (k k' : string) :
  dd_get d0 (dd_touch d0 m k) k' = dd_get d0 m k'.
Proof.
  unfold dd_get, dd_touch.
  destruct (m !! k) as [v|] eqn:Hk; [reflexivity|].
  destruct (decide (k = k')) as [->|Hne].
  - rewrite lookup_insert_eq, Hk. reflexivity.
  - rewrite lookup_insert_ne by exact Hne. reflexivity.
Qed.

Lemma dd_get_insert {V} (d0 v : V) (m : gmap string V) (k : string) :
  dd_get d0 (<[k := v]> m) k = v.
Proof. unfold dd_get. rewrite lookup_insert_eq. reflexivity. Qed.

Lemma dd_get_insert_ne {V} (d0 v : V) (m : gmap string V) (k k' : string) :
  k <> k' -> dd_get d0 (<[k := v]> m) k' = dd_get d0 m k'.
Proof. intros H. unfold dd_get. rewrite lookup_insert_ne by exact H. reflexivity. Qed.

Lemma dd_get_empty {V} (d0 : V) (k : string) : dd_get d0 (∅ : gmap string V) k = d0.
Proof. unfold dd_get. rewrite lookup_empty. reflexivity. Qed.

(** *** The three feedback calls, seen through [backoff_level] *)

Lemma level_throttled (s : RateLimiter) (b : string) :
  backoff_level (report_throttled b s) b = Z.min (backoff_level s b + 1) 5.
Proof. unfold backoff_level, report_throttled. simpl. apply dd_get_insert. Qed.

Lemma level_blocked (s : RateLimiter) (b : string) :
  backoff_level (report_blocked b s) b = 5.
Proof. unfold backoff_level, report_blocked. simpl. apply dd_get_insert. Qed.

Lemma level_success (s : RateLimiter) (b : string) :
  backoff_level (report_success b s) b =
  if 0 <? backoff_level s b then backoff_level s b - 1 else backoff_level s b.
Proof.
  unfold backoff_level, report_success.
  destruct (0 <? dd_get 0 (_backoff_level s) b); simpl.
  - apply dd_get_insert.
  - apply dd_get_touch.
Qed.

Lemma level_report_other (r : Report) (s : RateLimiter) (b : string) :
  match r with Success b' | Throttled b' | Blocked b' => b' <> b end ->
  backoff_level (report r s) b = backoff_level s b.
Proof.
  destruct r as [b'|b'|b']; intros Hne; unfold backoff_level; simpl.
  - unfold report_success.
    destruct (0 <? dd_get 0 (_backoff_level s) b'); simpl.
    + apply dd_get_insert_ne, Hne.
    + apply dd_get_touch.
  - apply dd_get_insert_ne, Hne.
  - apply dd_get_insert_ne, Hne.
Qed.

(** One feedback call keeps a level that is in range in range. *)
Lemma report_keeps_range (r : Report) (s : RateLimiter) (b : string) :
  0 <= backoff_level s b <= 5 -> 0 <= backoff_level (report r s) b <= 5.
Proof.
  intros Hr.
  assert (Hcases : match r with Success b' | Throttled b' | Blocked b' =>
                     b' = b \/ b' <> b end).
  { destruct r as [b'|b'|b']; destruct (decide (b' = b)); auto. }
  destruct r as [b'|b'|b']; destruct Hcases as [->|Hne];
    try (rewrite level_report_other by exact Hne; exact Hr); simpl.
  - rewrite level_success. destruct (Z.ltb_spec 0 (backoff_level s b)); lia.
  - rewrite level_throttled. lia.
  - rewrite level_blocked. lia.
Qed.

Lemma reports_keep_range (rs : list Report) (s : RateLimiter) (b : string) :
  0 <= backoff_level s b <= 5 -> 0 <= backoff_level (reports rs s) b <= 5.
Proof.
  revert s. induction rs as [|r rs IH]; intros s Hr; simpl; [exact Hr|].
  apply IH, report_keeps_range, Hr.
Qed.

Lemma level_init (custom : gmap string RateConfig) (d : Z) (b : string) :
  backoff_level (init custom d) b = 0.
Proof. unfold backoff_level, init. simpl. apply dd_get_empty. Qed.

Lemma level_iter_throttled (n : nat) (s : RateLimiter) (b : string) :
  backoff_level s b <= 5 ->
  backoff_level (Nat.iter n (report_throttled b) s) b =
  Z.min (backoff_level s b + Z.of_nat n) 5.
Proof.
  intros Hle. induction n as [|n IH].
  - simpl. lia.
  - rewrite Nat.iter_succ, level_throttled, IH. lia.
Qed.

Lemma level_iter_success (n : nat) (s : RateLimiter) (b : string) :
  0 <= backoff_level s b ->
  backoff_level (Nat.iter n (report_success b) s) b =
  Z.max (backoff_level s b - Z.of_nat n) 0.
Proof.
  intros Hge. induction n as [|n IH].
  - simpl. lia.
  - rewrite Nat.iter_succ, level_success, IH.
    destruct (Z.ltb_spec 0 (Z.max (backoff_level s b - Z.of_nat n) 0)); lia.
Qed.

(** *** The daily cap *)

Lemma reset_same_day (s : RateLimiter) (d : Z) :
  _daily_date s = d -> _reset_daily_if_needed s d = s.
Proof.
  intros H. unfold _reset_daily_if_needed.
  rewrite bool_decide_eq_true_2 by (symmetry; exact H). reflexivity.
Qed.

Lemma get_rate_rates (s s' : RateLimiter) (b : string) :
  rates s' = rates s -> _get_rate s' b = _get_rate s b.
Proof. intros H. unfold _get_rate. rewrite H. reflexivity. Qed.

Lemma reports_rates (rs : list Report) (s : RateLimiter) :
  rates (reports rs s) = rates s /\ _daily_date (reports rs s) = _daily_date s.
Proof.
  revert s. induction rs as [|r rs IH]; intros s; simpl; [auto|].
  destruct (IH (report r s)) as [-> ->].
  destruct r as [b|b|b]; simpl; auto.
  unfold report_success. destruct (0 <? _); auto.
Qed.

(** Below the cap on the current day, [wait] grants the slot and counts it. *)
Lemma wait_below_cap (s : RateLimiter) (e : WaitEnv) (b : string) (r : RateConfig) :
  _daily_date s = today e ->
  _get_rate s b = Some r ->
  requests_today s b < daily_cap r ->
  exists w s',
    wait s e b = Some (mkWaitResult true w, s') /\
    rates s' = rates s /\ _daily_date s' = _daily_date s /\
    requests_today s' b = requests_today s b + 1.
Proof.
  intros Hd Hr Hlt. unfold wait.
  rewrite (reset_same_day s (today e) Hd), Hr.
  unfold requests_today in *.
  destruct (Z.leb_spec (daily_cap r) (dd_get 0 (_daily_counts s) b)) as [Hle|_]; [lia|].
  eexists _, _. split; [reflexivity|]. simpl.
  repeat split. apply dd_get_insert.
Qed.

(** At the cap, [wait] refuses and counts nothing. *)
Lemma wait_at_cap (s : RateLimiter) (e : WaitEnv) (b : string) (r : RateConfig) :
  _daily_date s = today e ->
  _get_rate s b = Some r ->
  daily_cap r <= requests_today s b ->
  exists s',
    wait s e b = Some (mkWaitResult false 0, s') /\
    rates s' = rates s /\ _daily_date s' = _daily_date s /\
    requests_today s' b = requests_today s b.
Proof.
  intros Hd Hr Hle. unfold wait.
  rewrite (reset_same_day s (today e) Hd), Hr.
  unfold requests_today in *.
  destruct (Z.leb_spec (daily_cap r) (dd_get 0 (_daily_counts s) b)) as [_|Hlt]; [|lia].
  eexists. split; [reflexivity|]. simpl.
  repeat split. apply dd_get_touch.
Qed.

Lemma can_request_same_day (s : RateLimiter) (d : Z) (b : string) (r : RateConfig) :
  _daily_date s = d ->
  _get_rate s b = Some r ->
  fst <$> can_request s d b = Some (requests_today s b <? daily_cap r).
Proof.
  intros Hd Hr. unfold can_request.
  rewrite (reset_same_day s d Hd), Hr. reflexivity.
Qed.

(** On a new day the counters and the backoff table are cleared first. *)
Lemma can_request_new_day (s : RateLimiter) (d : Z) (b : string) (r : RateConfig) :
  _daily_date s <> d ->
  _get_rate s b = Some r ->
  exists s',
    can_request s d b = Some (0 <? daily_cap r, s') /\
    backoff_level s' b = 0 /\ requests_today s' b = 0 /\ _daily_date s' = d.
Proof.
  intros Hd Hr. unfold can_request, _reset_daily_if_needed.
  rewrite bool_decide_eq_false_2 by (intros E; apply Hd; symmetry; exact E).
  unfold _get_rate in *. simpl. 
  destruct (rates s !! "default") as [dflt|]; [|discriminate].
  injection Hr as <-.
  eexists. split; [rewrite dd_get_empty; reflexivity|].
  unfold backoff_level, requests_today. simpl.
  rewrite dd_get_touch, !dd_get_empty. auto.
Qed.

(** C5: on a day with no request yet to a source whose daily cap is 3,
    four consecutive [wait] calls return true, true, true, false, and
    [can_request] is false after the third; once the date has moved on,
    whatever feedback was reported meanwhile, [can_request] is true
    again and leaves the source's backoff level at 0. *)
Theorem daily_cap_three
    (s : RateLimiter) (board : string) (rate : RateConfig)
    (e1 e2 e3 e4 : WaitEnv) :
  _get_rate s board = Some rate ->
  daily_cap rate = 3 ->
  _daily_date s = today e1 ->
  requests_today s board = 0 ->
  today e2 = today e1 -> today e3 = today e1 -> today e4 = today e1 ->
  exists s3 s4,
    wait_all s [e1; e2; e3] board = Some ([true; true; true], s3) /\
    fst <$> can_request s3 (today e1) board = Some false /\
    wait_all s [e1; e2; e3; e4] board = Some ([true; true; true; false], s4) /\
    forall (rs : list Report) (next_day : Z),
      next_day <> today e1 ->
      exists s5,
        can_request (reports rs s4) next_day board = Some (true, s5) /\
        backoff_level s5 board = 0.
Proof.
  intros Hr Hcap Hd H0 E2 E3 E4.
  destruct (wait_below_cap s e1 board rate Hd Hr ltac:(lia))
    as (w1 & s1 & W1 & R1 & D1 & C1).
  assert (Hr1 : _get_rate s1 board = Some rate)
    by (rewrite (get_rate_rates s s1 board R1); exact Hr).
  destruct (wait_below_cap s1 e2 board rate ltac:(congruence) Hr1 ltac:(lia))
    as (w2 & s2 & W2 & R2 & D2 & C2).
  assert (Hr2 : _get_rate s2 board = Some rate)
    by (rewrite (get_rate_rates s1 s2 board R2); exact Hr1).
  destruct (wait_below_cap s2 e3 board rate ltac:(congruence) Hr2 ltac:(lia))
    as (w3 & s3 & W3 & R3 & D3 & C3).
  assert (Hr3 : _get_rate s3 board = Some rate)
    by (rewrite (get_rate_rates s2 s3 board R3); exact Hr2).
  destruct (wait_at_cap s3 e4 board rate ltac:(congruence) Hr3 ltac:(lia))
    as (s4 & W4 & R4 & D4 & C4).
  exists s3, s4. repeat split.
  - simpl. rewrite W1, W2, W3. reflexivity.
  - rewrite (can_request_same_day s3 (today e1) board rate ltac:(congruence) Hr3).
    f_equal. apply Z.ltb_ge. lia.
  - simpl. rewrite W1, W2, W3, W4. reflexivity.
  - intros rs next_day Hnext.
    destruct (reports_rates rs s4) as [Rr Dr].
    assert (Hr5 : _get_rate (reports rs s4) board = Some rate).
    { rewrite (get_rate_rates s4 _ board Rr), (get_rate_rates s3 s4 board R4). exact Hr3. }
    destruct (can_request_new_day (reports rs s4) next_day board rate
                ltac:(congruence) Hr5) as (s5 & Hc & Hb & _ & _).
    exists s5. split; [|exact Hb].
    rewrite Hc, Hcap. reflexivity.
Qed.

Lemma daily_cap_three_witness :
  exists s3 s4,
    wait_all (init cap3_rates 100) [same_day 100; same_day 100; same_day 100] "testboard"
      = Some ([true; true; true], s3) /\
    fst <$> can_request s3 100 "testboard" = Some false /\
    wait_all (init cap3_rates 100)
      [same_day 100; same_day 100; same_day 100; same_day 100] "testboard"
      = Some ([true; true; true; false], s4) /\
    forall (rs : list Report) (next_day : Z),
      next_day <> 100 ->
      exists s5,
        can_request (reports rs s4) next_day "testboard" = Some (true, s5) /\
        backoff_level s5 "testboard" = 0.
Proof.
  apply (daily_cap_three (init cap3_rates 100) "testboard" (mkRate 0 0 3 2)
           (same_day 100) (same_day 100) (same_day 100) (same_day 100));
    reflexivity.
Defined.

(** C6: starting from a fresh limiter, after any run of feedback calls
    (on any boards) every board's backoff level lies in [0,5].  From
    there [n] calls of [report_throttled] give [min (level + n) 5] and
    [n] calls of [report_success] give [max (level - n) 0]; so five or
    more throttles from level 0 give exactly 5, five or more successes
    after that give exactly 0 and never a negative level, and
    [report_blocked] sets the level to 5. *)
Theorem backoff_level_in_range
    (custom : gmap string RateConfig) (d : Z) (rs : list Report) (board : string) :
  let s0 := init custom d in
  let s := reports rs s0 in
  0 <= backoff_level s board <= 5 /\
  (forall n, backoff_level (Nat.iter n (report_throttled board) s) board =
             Z.min (backoff_level s board + Z.of_nat n) 5) /\
  (forall n, backoff_level (Nat.iter n (report_success board) s) board =
             Z.max (backoff_level s board - Z.of_nat n) 0) /\
  (forall n, backoff_level (Nat.iter (5 + n) (report_throttled board) s0) board = 5) /\
  (forall n m, backoff_level
                 (Nat.iter (5 + m) (report_success board)
                    (Nat.iter (5 + n) (report_throttled board) s0)) board = 0) /\
  backoff_level (report_blocked board s) board = 5.
Proof.
  intros s0 s.
  assert (H0 : backoff_level s0 board = 0) by apply level_init.
  assert (Hs : 0 <= backoff_level s board <= 5).
  { apply reports_keep_range. lia. }
  assert (H5 : forall n,
             backoff_level (Nat.iter (5 + n) (report_throttled board) s0) board = 5).
  { intros n. rewrite level_iter_throttled by lia. lia. }
  repeat split; try lia.
  - intros n. apply level_iter_throttled. lia.
  - intros n. apply level_iter_success. lia.
  - exact H5.
  - intros n m. rewrite level_iter_success; rewrite H5; lia.
  - apply level_blocked.
Qed.

(** *** The daily cap over arbitrary runs *)

Lemma init_has_default (custom : gmap string RateConfig) (d : Z) :
  is_Some (rates (init custom d) !! "default").
Proof.
  unfold init. simpl. rewrite lookup_union.
  assert (H : is_Some (DEFAULT_BOARD_RATES !! "default")) by (eexists; reflexivity).
  destruct H as [r ->]. destruct (custom !! "default"); simpl; eauto.
Qed.

Lemma get_rate_some (s : RateLimiter) (b : string) :
  is_Some (rates s !! "default") -> is_Some (_get_rate s b).
Proof. intros [d Hd]. unfold _get_rate. rewrite Hd. eauto. Qed.

Lemma sound_reset (s : RateLimiter) (d : Z) :
  sound s -> sound (_reset_daily_if_needed s d).
Proof.
  intros (Hd & Hn & Hc). unfold _reset_daily_if_needed.
  destruct (bool_decide (d = _daily_date s)); [exact (conj Hd (conj Hn Hc))|].
  split; [exact Hd|]. split.
  - intros b. unfold requests_today. simpl. rewrite dd_get_empty. lia.
  - intros b rate Hr Hcap. unfold requests_today. simpl. rewrite dd_get_empty. lia.
Qed.

Lemma sound_report (r : Report) (s : RateLimiter) : sound s -> sound (report r s).
Proof.
  intros (Hd & Hn & Hc).
  assert (E : rates (report r s) = rates s /\
              _daily_counts (report r s) = _daily_counts s).
  { destruct r as [b|b|b]; simpl; auto.
    unfold report_success. destruct (0 <? _); auto. }
  destruct E as [Er Ec].
  split; [rewrite Er; exact Hd|]. split.
  - intros b. unfold requests_today. rewrite Ec. apply Hn.
  - intros b rate Hr Hcap. unfold requests_today. rewrite Ec.
    apply Hc; [|exact Hcap]. rewrite <- (get_rate_rates s _ b Er). exact Hr.
Qed.

Lemma sound_can_request (s s' : RateLimiter) (d : Z) (b : string) (ok : bool) :
  sound s -> can_request s d b = Some (ok, s') -> sound s'.
Proof.
  intros Hs Hcr. apply (sound_reset s d) in Hs. unfold can_request in Hcr.
  destruct (_get_rate (_reset_daily_if_needed s d) b) as [rate|]; [|discriminate].
  injection Hcr as _ <-. destruct Hs as (Hd & Hn & Hc).
  split; [exact Hd|]. split.
  - intros b'. unfold requests_today. simpl. rewrite dd_get_touch. apply Hn.
  - intros b' r Hr Hcap. unfold requests_today. simpl. rewrite dd_get_touch.
    apply Hc; [exact Hr|exact Hcap].
Qed.

Lemma sound_wait (s s' : RateLimiter) (e : WaitEnv) (b : string) (r : WaitResult) :
  sound s -> wait s e b = Some (r, s') -> sound s'.
Proof.
  intros Hs Hw. apply (sound_reset s (today e)) in Hs. unfold wait in Hw.
  set (s1 := _reset_daily_if_needed s (today e)) in *.
  destruct (_get_rate s1 b) as [rate|] eqn:Hrate; [|discriminate].
  destruct Hs as (Hd & Hn & Hc).
  destruct (Z.leb_spec (daily_cap rate) (dd_get 0 (_daily_counts s1) b)) as [Hle|Hlt];
    injection Hw as _ <-.
  - split; [exact Hd|]. split.
    + intros b'. unfold requests_today. simpl. rewrite dd_get_touch. apply Hn.
    + intros b' r' Hr Hcap. unfold requests_today. simpl. rewrite dd_get_touch.
      apply Hc; [exact Hr|exact Hcap].
  - split; [exact Hd|]. split.
    + intros b'. unfold requests_today. simpl.
      destruct (decide (b = b')) as [<-|Hne].
      * rewrite dd_get_insert. pose proof (Hn b). unfold requests_today in *. lia.
      * rewrite dd_get_insert_ne by exact Hne. apply Hn.
    + intros b' r' Hr Hcap. unfold requests_today. simpl.
      destruct (decide (b = b')) as [<-|Hne].
      * rewrite dd_get_insert.
        assert (r' = rate) as -> by (unfold _get_rate in *; simpl in *; congruence).
        pose proof (Hn b). unfold requests_today in *. lia.
      * rewrite dd_get_insert_ne by exact Hne. apply Hc; [exact Hr|exact Hcap].
Qed.

(** X1: whatever a client of a fresh limiter does (waits and cap checks
    on any boards and dates, feedback of any kind), no call raises, and
    afterwards no board has more requests counted for the day than its
    non-negative daily cap allows. *)
Theorem calls_respect_daily_caps
    (custom : gmap string RateConfig) (d : Z) (cs : list Call) :
  exists s', calls cs (init custom d) = Some s' /\ within_caps s'.
Proof.
  assert (H0 : sound (init custom d)).
  { split; [apply init_has_default|]. split.
    - intros b. unfold requests_today. simpl. rewrite dd_get_empty. lia.
    - intros b r _ Hcap. unfold requests_today. simpl. rewrite dd_get_empty. lia. }
  revert H0. generalize (init custom d) as s.
  induction cs as [|c cs IH]; intros s Hs.
  - exists s. split; [reflexivity|apply Hs].
  - simpl. destruct c as [b e|b day|r]; simpl.
    + destruct (wait s e b) as [[r s1]|] eqn:Hw.
      * simpl. apply IH. eapply sound_wait; eauto.
      * exfalso. unfold wait in Hw.
        destruct (get_rate_some (_reset_daily_if_needed s (today e)) b) as [rate Hr].
        { apply (sound_reset s (today e)) in Hs. apply Hs. }
        rewrite Hr in Hw. destruct (daily_cap rate <=? _); discriminate.
    + destruct (can_request s day b) as [[ok s1]|] eqn:Hc.
      * simpl. apply IH. eapply sound_can_request; eauto.
      * exfalso. unfold can_request in Hc.
        destruct (get_rate_some (_reset_daily_if_needed s day) b) as [rate Hr].
        { apply (sound_reset s day) in Hs. apply Hs. }
        rewrite Hr in Hc. discriminate.
    + apply IH, sound_report, Hs.
Qed.

(** *** How many waits a day grants *)

Lemma wait_all_counts (es : list WaitEnv) :
  forall (s : RateLimiter) (b : string) (rate : RateConfig) (d : Z),
    Forall (fun e => today e = d) es ->
    _daily_date s = d ->
    _get_rate s b = Some rate ->
    0 <= requests_today s b <= daily_cap rate ->
    exists s',
      wait_all s es b =
      Some (repeat true (Nat.min (length es)
                           (Z.to_nat (daily_cap rate - requests_today s b)))
            ++ repeat false (length es -
                             Z.to_nat (daily_cap rate - requests_today s b)),
            s')%list.
Proof.
  induction es as [|e es IH]; intros s b rate d Hall Hd Hr Hc.
  - exists s. reflexivity.
  - apply Forall_cons in Hall as [He Hes].
    assert (Hd' : _daily_date s = today e) by congruence.
    destruct (Z_lt_le_dec (requests_today s b) (daily_cap rate)) as [Hlt|Hge].
    + destruct (wait_below_cap s e b rate Hd' Hr Hlt) as (w & s1 & Hw & R1 & D1 & C1).
      destruct (IH s1 b rate d Hes ltac:(congruence)
                  ltac:(rewrite (get_rate_rates s s1 b R1); exact Hr) ltac:(lia))
        as (s' & Hs').
      exists s'. cbn [wait_all]. rewrite Hw, Hs'. cbn [allowed].
      rewrite C1.
      replace (Z.to_nat (daily_cap rate - requests_today s b))
        with (S (Z.to_nat (daily_cap rate - (requests_today s b + 1)))) by lia.
      reflexivity.
    + destruct (wait_at_cap s e b rate Hd' Hr Hge) as (s1 & Hw & R1 & D1 & C1).
      destruct (IH s1 b rate d Hes ltac:(congruence)
                  ltac:(rewrite (get_rate_rates s s1 b R1); exact Hr) ltac:(lia))
        as (s' & Hs').
      exists s'. cbn [wait_all]. rewrite Hw, Hs'. cbn [allowed].
      rewrite C1.
      replace (Z.to_nat (daily_cap rate - requests_today s b)) with O by lia.
      rewrite Nat.min_0_r, !Nat.sub_0_r. reflexivity.
Qed.

(** X2: on a day with no request yet to a board whose cap is a
    non-negative [cap], [n] consecutive waits for that board are granted
    [min n cap] times, all at the start, and refused from then on. *)
Theorem waits_granted_up_to_cap
    (s : RateLimiter) (board : string) (rate : RateConfig) (d : Z)
    (es : list WaitEnv) :
  Forall (fun e => today e = d) es ->
  _daily_date s = d ->
  _get_rate s board = Some rate ->
  0 <= daily_cap rate ->
  requests_today s board = 0 ->
  exists s',
    wait_all s es board =
    Some (repeat true (Nat.min (length es) (Z.to_nat (daily_cap rate)))
          ++ repeat false (length es - Z.to_nat (daily_cap rate)), s')%list.
Proof.
  intros Hall Hd Hr Hcap H0.
  destruct (wait_all_counts es s board rate d Hall Hd Hr ltac:(lia)) as (s' & Hs').
  exists s'. rewrite Hs', H0, Z.sub_0_r. reflexivity.
Qed.

Lemma waits_granted_up_to_cap_witness :
  exists s',
    wait_all (init cap3_rates 100)
      [same_day 100; same_day 100; same_day 100; same_day 100; same_day 100] "testboard"
    = Some ([true; true; true; false; false], s').
Proof.
  apply (waits_granted_up_to_cap (init cap3_rates 100) "testboard" (mkRate 0 0 3 2) 100
           [same_day 100; same_day 100; same_day 100; same_day 100; same_day 100]).
  - repeat constructor.
  - reflexivity.
  - reflexivity.
  - simpl. lia.
  - reflexivity.
Defined.

(** X3: on the current day a wait for one board changes neither the
    request count nor the backoff level of any other board, and feedback
    about one board changes neither for any other board. *)
Theorem boards_are_independent
    (s s' : RateLimiter) (e : WaitEnv) (board other : string) (r : WaitResult)
    (fb : Report) :
  board <> other ->
  _daily_date s = today e ->
  wait s e board = Some (r, s') ->
  match fb with Success b | Throttled b | Blocked b => b = board end ->
  requests_today s' other = requests_today s other /\
  backoff_level s' other = backoff_level s other /\
  requests_today (report fb s) other = requests_today s other /\
  backoff_level (report fb s) other = backoff_level s other.
Proof.
  intros Hne Hd Hw Hfb. unfold wait in Hw.
  rewrite (reset_same_day s (today e) Hd) in Hw.
  destruct (_get_rate s board) as [rate|]; [|discriminate].
  assert (Hfb' : requests_today (report fb s) other = requests_today s other /\
                 backoff_level (report fb s) other = backoff_level s other).
  { split.
    - destruct fb as [b|b|b]; simpl; try reflexivity.
      unfold report_success. destruct (0 <? _); reflexivity.
    - apply level_report_other. destruct fb; congruence. }
  destruct (daily_cap rate <=? dd_get 0 (_daily_counts s) board);
    injection Hw as _ <-; unfold requests_today, backoff_level; simpl.
  - rewrite dd_get_touch. auto.
  - rewrite dd_get_insert_ne by exact Hne. rewrite dd_get_touch. auto.
Qed.

Lemma boards_are_independent_witness :
  exists r s',
    wait (init cap3_rates 100) (same_day 100) "testboard" = Some (r, s') /\
    requests_today s' "indeed" = requests_today (init cap3_rates 100) "indeed" /\
    backoff_level (report (Throttled "testboard") (init cap3_rates 100)) "indeed"
    = backoff_level (init cap3_rates 100) "indeed".
Proof.
  destruct (wait (init cap3_rates 100) (same_day 100) "testboard") as [[r s']|] eqn:Hw.
  - exists r, s'. split; [reflexivity|].
    destruct (boards_are_independent (init cap3_rates 100) s' (same_day 100)
                "testboard" "indeed" r (Throttled "testboard"))
      as (H1 & _ & _ & H4).
    + discriminate.
    + reflexivity.
    + exact Hw.
    + reflexivity.
    + split; [exact H1|exact H4].
  - vm_compute in Hw. discriminate Hw.
Defined.

End RateLimiterFacts.

(** ** scheduler.py *)

Module SchedulerFacts.
Import Scheduler.

Example strptime_HM_samples :
  strptime_HM "09:00" = Some (9, 0) /\ strptime_HM "9:5" = Some (9, 5) /\
  strptime_HM "23:59" = Some (23, 59) /\ strptime_HM "24:00" = None /\
  strptime_HM "9:60" = None /\ strptime_HM "0900" = None.
Proof. repeat split; reflexivity. Qed.

(** The dry-run flag is set exactly when the document spells the mode out
    as "semi-auto". *)
Lemma apply_call_dry_run (cfg : task) (m l : json) (d : bool) :
  apply_call cfg = ProcessQueue m l d ->
  m = configured_mode cfg /\
  (d = true <-> cfg !! "mode" = Some (JStr "semi-auto")).
Proof.
  unfold apply_call, configured_mode. intros H. injection H as <- <- <-.
  split; [reflexivity|].
  destruct (cfg !! "mode") as [v|] eqn:E; [|split; discriminate].
  destruct v as [|b|n|str|js]; simpl; try (split; discriminate).
  destruct (decide (str = "semi-auto")) as [->|Hne].
  - rewrite bool_decide_eq_true_2 by reflexivity. split; reflexivity.
  - rewrite bool_decide_eq_false_2 by exact Hne. split; [discriminate|].
    intros Heq. congruence.
Qed.

(** C1, at the failing input: with the apply task enabled and due and no
    [mode] key in the document, [run_once] configures the engine with the
    default mode "semi-auto" and calls [process_queue] with
    [dry_run = False]. *)
Theorem run_once_mode_absent_not_dry_run :
  calls_of (run_once scheduler_without_mode env_monday_9am) =
    Some [ProcessQueue (JStr "semi-auto") (JNum 10) false] /\
  ~ semi_auto_is_dry_run scheduler_without_mode env_monday_9am.
Proof.
  assert (Hrun : exists ran s',
             run_once scheduler_without_mode env_monday_9am =
             Some (ran, [ProcessQueue (JStr "semi-auto") (JNum 10) false], s')).
  { eexists _, _. vm_compute. reflexivity. }
  destruct Hrun as (ran & s' & Hrun).
  split.
  - rewrite Hrun. reflexivity.
  - intros Hspec.
    specialize (Hspec ran _ s' (JStr "semi-auto") (JNum 10) false Hrun
                      (or_introl eq_refl) eq_refl).
    discriminate Hspec.
Qed.

(** With the mode spelled out as "semi-auto" the call is a dry run. *)
Lemma run_once_mode_explicit_dry_run (cfg : task) :
  cfg !! "mode" = Some (JStr "semi-auto") ->
  apply_call cfg =
  ProcessQueue (JStr "semi-auto") (default (JNum 10) (cfg !! "max_per_run")) true.
Proof.
  intros H. unfold apply_call. rewrite H. reflexivity.
Qed.

(** *** When a task is due *)

Lemma should_run_switched_off (s : Scheduler) (now : datetime) (task_name : string) :
  switched_off s task_name -> should_run s now task_name = Some false.
Proof.
  unfold switched_off, task_entry, should_run. intros ->. reflexivity.
Qed.

(** X4: a task whose [enabled] flag is absent or falsy is never due,
    whatever the clock and the rest of its entry say; so a pass of
    [run_once] over a schedule with the apply task switched off (the
    built-in schedule is one) makes no call of [process_queue]. *)
Theorem switched_off_apply_is_never_processed (s : Scheduler) (e : RunEnv) :
  switched_off s "apply" ->
  (forall now, should_run s now "apply" = Some false) /\
  (forall ran trace s',
     run_once s e = Some (ran, trace, s') ->
     Forall (fun ev => ev = RunDiscovery) trace).
Proof.
  intros Hoff. split; [intros now; apply should_run_switched_off, Hoff|].
  intros ran trace s' Hrun. unfold run_once in Hrun.
  destruct (should_run s (discovery_check e) "discovery") as [due_d|]; [|discriminate].
  assert (Hoff' : forall key t, switched_off (record_run s key t) "apply") by (intros; exact Hoff).
  destruct due_d; [destruct (discovery_completes e)|].
  - rewrite (should_run_switched_off _ _ _ (Hoff' _ _)) in Hrun.
    injection Hrun as _ <- _. repeat constructor.
  - rewrite (should_run_switched_off _ _ _ Hoff) in Hrun.
    injection Hrun as _ <- _. repeat constructor.
  - rewrite (should_run_switched_off _ _ _ Hoff) in Hrun.
    injection Hrun as _ <- _. constructor.
Qed.

Lemma switched_off_apply_is_never_processed_witness :
  switched_off default_scheduler "apply" /\
  should_run default_scheduler monday_9am "apply" = Some false.
Proof.
  split; [reflexivity|].
  apply (switched_off_apply_is_never_processed default_scheduler env_monday_9am).
  reflexivity.
Defined.

Lemma scan_times_due (s : Scheduler) (now : datetime) (task_name : string)
      (times : list json) :
  scan_times s now task_name times = Some true ->
  exists t, In (JStr t) times /\ in_window now t.
Proof.
  induction times as [|v rest IH]; simpl; [discriminate|].
  destruct v as [|b|n|t|l]; try discriminate.
  destruct (strptime_HM t) as [[h m]|] eqn:Hp; [|discriminate].
  destruct (Qle_bool (inject_Z (h * 3600 + m * 60) - 120) (seconds_of_day now)) eqn:E1;
    [destruct (Qle_bool (seconds_of_day now) (inject_Z (h * 3600 + m * 60) + 300)) eqn:E2|];
    simpl.
  - intros _. exists t. split; [left; reflexivity|].
    exists h, m. split; [exact Hp|]. split; apply Qle_bool_iff; assumption.
  - intros H. destruct (IH H) as (t' & Hin & Hw). exists t'. split; [right; exact Hin|exact Hw].
  - intros H. destruct (IH H) as (t' & Hin & Hw). exists t'. split; [right; exact Hin|exact Hw].
Qed.

(** X5: a task is reported due only if it is switched on, the current
    weekday is among its days, and the clock lies within the window (two
    minutes before to five minutes after) of one of its scheduled
    times. *)
Theorem due_only_inside_a_window (s : Scheduler) (now : datetime) (task_name : string) :
  should_run s now task_name = Some true ->
  ~ switched_off s task_name /\
  day_allowed (day_name now)
    (default (JList weekdays) (task_entry s task_name !! "days")) = Some true /\
  exists times t,
    task_entry s task_name !! "times" = Some (JList times) /\
    In (JStr t) times /\ in_window now t.
Proof.
  unfold should_run, switched_off. fold (task_entry s task_name).
  destruct (json_truthy (default (JBool false) (task_entry s task_name !! "enabled")));
    simpl; [|discriminate].
  destruct (day_allowed _ _) as [[|]|]; try discriminate.
  intros H. split; [discriminate|]. split; [reflexivity|].
  destruct (task_entry s task_name !! "times") as [v|] eqn:Ht; simpl in H; [|discriminate].
  destruct v as [|b|n|str|times]; try discriminate.
  - destruct str; discriminate.
  - destruct (scan_times_due _ _ _ _ H) as (t & Hin & Hw).
    exists times, t. auto.
Qed.

Lemma due_only_inside_a_window_witness :
  exists times t,
    task_entry scheduler_without_mode "apply" !! "times" = Some (JList times) /\
    In (JStr t) times /\ in_window monday_9am t.
Proof.
  apply (due_only_inside_a_window scheduler_without_mode monday_9am "apply").
  vm_compute. reflexivity.
Defined.

End SchedulerFacts.

(** ** qa_bank.py *)

Module QABankFacts.
Import QABank.

Example normalize_sample :
  normalize_question "  Why do you want to work here? * " = "why do you want to work here".
Proof. vm_compute. reflexivity. Qed.

Example fill_template_sample :
  _fill_template "I like {company} and {role} at {company}."
    (mkJobContext (Some "Acme") None None None None None)
  = "I like Acme and this role at Acme.".
Proof. vm_compute. reflexivity. Qed.

(** C2, at the failing input: the stored question keeps its question
    mark when compared, so the incoming text "why do you want to work
    here" (and even the stored text itself) misses the exact-match branch
    and is answered through the word-overlap branch with confidence
    6/8 * 0.8 = 0.6. *)
Theorem stored_question_mark_defeats_exact_match :
  (exists m, get_answer [why_here] "why do you want to work here" None = Some m /\
             m_answer m = "I admire the mission." /\
             (m_confidence m == 3 # 5)%Q /\ ~ (m_confidence m == 1)%Q) /\
  (exists m, get_answer [why_here] "Why do you want to work here?" None = Some m /\
             (m_confidence m == 3 # 5)%Q) /\
  same_question "why do you want to work here" (question why_here) /\
  ~ exact_match_as_specified [why_here] "why do you want to work here".
Proof.
  assert (H1 : exists m, get_answer [why_here] "why do you want to work here" None = Some m /\
             m_answer m = "I admire the mission." /\
             (m_confidence m == 3 # 5)%Q /\ ~ (m_confidence m == 1)%Q).
  { eexists. split; [vm_compute; reflexivity|]. simpl.
    split; [reflexivity|]. split; [reflexivity|]. intros H. discriminate H. }
  split; [exact H1|].
  split.
  { eexists. split; [vm_compute; reflexivity|]. reflexivity. }
  split; [vm_compute; reflexivity|].
  intros Hspec.
  destruct (Hspec why_here (or_introl eq_refl) ltac:(vm_compute; reflexivity))
    as (m & Hm & Hc).
  destruct H1 as (m' & Hm' & _ & _ & Hne).
  rewrite Hm in Hm'. injection Hm' as <-. exact (Hne Hc).
Qed.

Lemma scan_exact (q_lower : string) (entries : list Entry) (st : best) :
  (exists e, In e entries /\ q_lower = PyStr.lower (question e)) ->
  exists e, In e entries /\ q_lower = PyStr.lower (question e) /\
            scan q_lower entries st = (Some e, 1%Q).
Proof.
  revert st. induction entries as [|entry rest IH]; intros st (e & Hin & Hq).
  - destruct Hin.
  - simpl. destruct (String.eqb q_lower (PyStr.lower (question entry))) eqn:E.
    + apply String.eqb_eq in E. exists entry. split; [left; reflexivity|]. auto.
    + destruct Hin as [->|Hin].
      * apply String.eqb_neq in E. contradiction.
      * destruct (IH (fuzzy_step q_lower entry
                        (fold_left (alias_step q_lower entry) (aliases entry) st)))
          as (e' & Hin' & Hq' & Hscan); [exists e; auto|].
        exists e'. split; [right; exact Hin'|]. auto.
Qed.

(** What the exact-match branch does deliver: an incoming text whose
    normal form equals a stored question merely lowercased is answered
    with confidence 1 from an entry with that question, whatever the
    other entries are. *)
Lemma get_answer_exact_when_stored_is_normal
    (entries : list Entry) (question_text : string) :
  (exists e, In e entries /\
             normalize_question question_text = PyStr.lower (question e)) ->
  exists m, get_answer entries question_text None = Some m /\
            m_confidence m = 1%Q /\
            PyStr.lower (m_source_question m) = normalize_question question_text.
Proof.
  intros H. unfold get_answer.
  destruct (scan_exact _ entries (None, 0%Q) H) as (e & _ & Hq & Hscan).
  rewrite Hscan. simpl. eexists. split; [reflexivity|]. simpl. auto.
Qed.

(** *** What [get_answer] can return *)

Lemma alias_step_plausible (pool : list Entry) (q : string) (e : Entry)
      (st : best) (alias : string) :
  In e pool -> plausible pool st -> plausible pool (alias_step q e st alias).
Proof.
  intros He Hst. unfold alias_step.
  destruct (_ || _); [|exact Hst].
  destruct (Qgt_bool _ _); [|exact Hst].
  split; simpl; [|exact He].
  eapply Qle_trans; [apply Q.le_min_r|]. unfold Qle; simpl; lia.
Qed.

Lemma fuzzy_step_plausible (pool : list Entry) (q : string) (e : Entry) (st : best) :
  In e pool -> plausible pool st -> plausible pool (fuzzy_step q e st).
Proof.
  intros He Hst. unfold fuzzy_step.
  set (A := words (PyStr.lower (question e))). set (B := words q).
  destruct (3 <=? Z.of_nat (size (A ∩ B))); [|exact Hst].
  destruct (Qgt_bool _ _); [|exact Hst].
  split; simpl; [|exact He].
  assert (Hsz : (size (A ∩ B) <= size (A ∪ B))%nat).
  { apply subseteq_size. intros x Hx. apply elem_of_intersection in Hx.
    apply elem_of_union. left. apply Hx. }
  set (o := Z.of_nat (size (A ∩ B))) in *.
  set (u := Z.max (Z.of_nat (size (A ∪ B))) 1).
  assert (Hou : o <= u) by (unfold o, u; lia).
  assert (Hu : 0 < u) by (unfold u; lia).
  assert (Ho : 0 <= o) by (unfold o; lia).
  assert (Hx : (inject_Z o / inject_Z u <= 1)%Q).
  { apply Qle_shift_div_r.
    - change 0%Q with (inject_Z 0). rewrite <- Zlt_Qlt. exact Hu.
    - rewrite Qmult_1_l. rewrite <- Zle_Qle. exact Hou. }
  assert (Hx0 : (0 <= inject_Z o / inject_Z u)%Q).
  { apply Qle_shift_div_l.
    - change 0%Q with (inject_Z 0). rewrite <- Zlt_Qlt. exact Hu.
    - rewrite Qmult_0_l. change 0%Q with (inject_Z 0). rewrite <- Zle_Qle. exact Ho. }
  lra.
Qed.

Lemma scan_plausible (pool : list Entry) (q : string) (entries : list Entry) (st : best) :
  (forall e, In e entries -> In e pool) ->
  plausible pool st -> plausible pool (scan q entries st).
Proof.
  revert st. induction entries as [|e rest IH]; intros st Hsub Hst; simpl; [exact Hst|].
  assert (He : In e pool) by (apply Hsub; left; reflexivity).
  destruct (String.eqb q (PyStr.lower (question e))).
  - split; simpl; [apply Qle_refl|exact He].
  - apply IH; [intros x Hx; apply Hsub; right; exact Hx|].
    apply fuzzy_step_plausible; [exact He|].
    generalize (aliases e) as als. intros als. revert st Hst.
    induction als as [|a als IHa]; intros st Hst; simpl; [exact Hst|].
    apply IHa, alias_step_plausible; assumption.
Qed.

(** X6: an empty bank answers nothing; and whatever [get_answer]
    returns carries a confidence between 0.3 and 1 and comes from a
    stored entry: its source question is that entry's, its field type and
    category are the entry's (or the defaults), and without a job context
    its answer is the entry's answer verbatim. *)
Theorem get_answer_is_grounded
    (entries : list Entry) (question_text : string) (ctx : option JobContext) :
  get_answer [] question_text ctx = None /\
  (forall m,
     get_answer entries question_text ctx = Some m ->
     (3 # 10 <= m_confidence m)%Q /\ (m_confidence m <= 1)%Q /\
     exists e, In e entries /\
       m_source_question m = question e /\
       m_field_type m = default "text" (field_type e) /\
       m_category m = default "" (category e) /\
       (ctx = None -> m_answer m = answer e)).
Proof.
  split; [reflexivity|].
  intros m. unfold get_answer.
  pose proof (scan_plausible entries (normalize_question question_text) entries (None, 0%Q)
                (fun e H => H)) as Hp.
  destruct (scan (normalize_question question_text) entries (None, 0%Q)) as [[e|] sc];
    [|discriminate].
  destruct Hp as [Hle Hin]; [split; simpl; [unfold Qle; simpl; lia|exact I]|].
  simpl in Hle, Hin.
  destruct (Qle_bool (3 # 10) sc) eqn:E; [|discriminate].
  intros [= <-]. simpl.
  split; [apply Qle_bool_iff, E|]. split; [exact Hle|].
  exists e. split; [exact Hin|]. repeat split. intros ->. reflexivity.
Qed.

Lemma get_answer_is_grounded_witness :
  exists m, get_answer [why_here] "why do you want to work here" None = Some m /\
            (3 # 10 <= m_confidence m)%Q /\ (m_confidence m <= 1)%Q.
Proof.
  destruct (get_answer [why_here] "why do you want to work here" None) as [m|] eqn:E.
  - exists m. split; [reflexivity|].
    destruct (get_answer_is_grounded [why_here] "why do you want to work here" None)
      as [_ H].
    destruct (H m E) as (H1 & H2 & _). split; assumption.
  - vm_compute in E. discriminate E.
Defined.

(** *** Templates *)

Lemma replace_without_first_char (c : ascii) (k val s : string) :
  PyStr.contains (String c EmptyString) s = false ->
  replace (String c k) val s = s.
Proof.
  unfold replace. induction s as [|x r IH]; intros H; [reflexivity|].
  simpl in H. apply orb_false_iff in H as [H1 H2].
  cbn [replace_from PyStr.starts_with].
  destruct (ascii_dec c x) as [->|Hne].
  - simpl in H1. destruct (ascii_dec x x); [discriminate|congruence].
  - f_equal. apply IH. exact H2.
Qed.

(** X7: an answer in which no opening brace occurs passes through
    [_fill_template] unchanged, whatever the job context holds. *)
Theorem fill_template_keeps_plain_answers (answer : string) (ctx : JobContext) :
  PyStr.contains "{" answer = false ->
  _fill_template answer ctx = answer.
Proof.
  intros H. unfold _fill_template. cbn [fold_left fst snd].
  repeat (rewrite (replace_without_first_char "{"%char _ _ answer) by exact H).
  reflexivity.
Qed.

Lemma fill_template_keeps_plain_answers_witness :
  _fill_template "I admire the mission."
    (mkJobContext (Some "Acme") (Some "PM") None None None None)
  = "I admire the mission.".
Proof.
  apply fill_template_keeps_plain_answers. reflexivity.
Defined.

(** *** Maintenance of the bank *)

Lemma update_first_entry_spec (q a : string) (es : list Entry) :
  match update_first_entry q a es with
  | None => forall e, In e es -> PyStr.lower (question e) <> PyStr.lower q
  | Some es' =>
      map question es' = map question es /\
      length es' = length es /\
      (exists e, In e es /\ PyStr.lower (question e) = PyStr.lower q) /\
      (exists e', In e' es' /\ PyStr.lower (question e') = PyStr.lower q /\
                  answer e' = a)
  end.
Proof.
  induction es as [|e rest IH]; simpl; [intros e []|].
  destruct (String.eqb (PyStr.lower (question e)) (PyStr.lower q)) eqn:E.
  - apply String.eqb_eq in E. simpl. repeat split.
    + exists e. auto.
    + exists (set_answer a e). simpl. auto.
  - apply String.eqb_neq in E.
    destruct (update_first_entry q a rest) as [rest'|].
    + destruct IH as (Hq & Hl & (e1 & Hin1 & He1) & (e2 & Hin2 & He2)).
      simpl. rewrite Hq, Hl. repeat split.
      * exists e1. auto.
      * exists e2. auto.
    + intros x [<-|Hx]; [exact E|apply IH, Hx].
Qed.

(** X8: [update_entry] finds its entry ignoring case.  It returns false
    and leaves bank and file alone exactly when no stored question equals
    the given one up to case; otherwise it keeps the number and the
    questions of the entries, gives an entry with that question the new
    answer and writes the file.  An entry just added is always found. *)
Theorem update_entry_behaviour (b : Bank) (q new_answer : string) :
  let r := update_entry b q new_answer in
  (fst r = true <->
   exists e, In e (bank_entries b) /\ PyStr.lower (question e) = PyStr.lower q) /\
  (fst r = false -> snd r = b) /\
  map question (bank_entries (snd r)) = map question (bank_entries b) /\
  (fst r = true ->
   bank_file (snd r) = Some (bank_entries (snd r)) /\
   exists e, In e (bank_entries (snd r)) /\
             PyStr.lower (question e) = PyStr.lower q /\ answer e = new_answer) /\
  (forall a0 cat ftype als,
     fst (update_entry (add_entry b q a0 cat ftype als) (PyStr.lower q) new_answer) = true).
Proof.
  assert (Hlow : forall s, PyStr.lower (PyStr.lower s) = PyStr.lower s).
  { induction s as [|c s IH]; simpl; [reflexivity|]. rewrite IH. f_equal.
    unfold PyStr.lower_ascii.
    destruct ((65 <=? nat_of_ascii c)%nat && (nat_of_ascii c <=? 90)%nat) eqn:E;
      [|rewrite E; reflexivity].
    apply andb_true_iff in E as [E1 E2].
    apply Nat.leb_le in E1, E2.
    rewrite nat_ascii_embedding by lia.
    replace ((nat_of_ascii c + 32 <=? 90)%nat) with false
      by (symmetry; apply Nat.leb_gt; lia).
    rewrite andb_false_r. reflexivity. }
  cbv zeta. split; [|split; [|split; [|split]]].
  - unfold update_entry.
    pose proof (update_first_entry_spec q new_answer (bank_entries b)) as H.
    destruct (update_first_entry q new_answer (bank_entries b)); simpl.
    + split; [intros _; apply H|reflexivity].
    + split; [discriminate|]. intros (e & Hin & He). exfalso. exact (H e Hin He).
  - unfold update_entry.
    destruct (update_first_entry q new_answer (bank_entries b)); simpl;
      [discriminate|reflexivity].
  - unfold update_entry.
    pose proof (update_first_entry_spec q new_answer (bank_entries b)) as H.
    destruct (update_first_entry q new_answer (bank_entries b)); simpl;
      [apply H|reflexivity].
  - unfold update_entry.
    pose proof (update_first_entry_spec q new_answer (bank_entries b)) as H.
    destruct (update_first_entry q new_answer (bank_entries b)); simpl;
      [|discriminate].
    intros _. split; [reflexivity|apply H].
  - intros a0 cat ftype als. unfold update_entry.
    pose proof (update_first_entry_spec (PyStr.lower q) new_answer
                  (bank_entries (add_entry b q a0 cat ftype als))) as H.
    destruct (update_first_entry (PyStr.lower q) new_answer
                (bank_entries (add_entry b q a0 cat ftype als))); [reflexivity|].
    exfalso. apply (H {| question := q; answer := a0; aliases := default [] als;
                         field_type := Some ftype; category := Some cat |}).
    + simpl. apply in_or_app. right. left. reflexivity.
    + simpl. symmetry. apply Hlow.
Qed.

End QABankFacts.

(** ** material_manager.py *)

Module MaterialManagerFacts.
Import MaterialManager.

Lemma outcome_weights :
  OUTCOME_WEIGHTS !!! "callback" = 1 /\ OUTCOME_WEIGHTS !!! "interview" = 3 /\
  OUTCOME_WEIGHTS !!! "offer" = 5 /\ OUTCOME_WEIGHTS !!! "rejected" = -1 /\
  OUTCOME_WEIGHTS !!! "ghosted" = -2.
Proof. repeat split; vm_compute; reflexivity. Qed.

(** *** Rounding keeps integer bounds *)

Lemma round_half_even_between (x : Q) (a b : Z) :
  (inject_Z a <= x)%Q -> (x <= inject_Z b)%Q -> a <= round_half_even x <= b.
Proof.
  intros Ha Hb. unfold round_half_even.
  assert (Hfa : a <= Qfloor x).
  { rewrite <- (Qfloor_Z a). apply Qfloor_resp_le, Ha. }
  assert (Hfb : Qfloor x <= b).
  { rewrite <- (Qfloor_Z b). apply Qfloor_resp_le, Hb. }
  assert (Hup : (0 < x - inject_Z (Qfloor x))%Q -> Qfloor x + 1 <= b).
  { intros Hpos. assert (Hlt : (inject_Z (Qfloor x) < inject_Z b)%Q) by lra.
    rewrite <- Zlt_Qlt in Hlt. lia. }
  destruct (Qcompare_spec (x - inject_Z (Qfloor x)) (1 # 2)) as [He|Hl|Hg].
  - destruct (Z.even (Qfloor x)); [lia|]. split; [lia|]. apply Hup. lra.
  - lia.
  - split; [lia|]. apply Hup. lra.
Qed.


(** *** The score at the edges *)





(** *** A/B selection *)






End MaterialManagerFacts.

(** ** material_manager.py: the score on doubles *)

Module Binary64Facts.
Import MaterialManager MaterialManagerFacts MaterialManager.Binary64.

(** *** Rounding to an integer *)

Lemma round_half_even_near (x : Q) :
  (Qabs (x - inject_Z (round_half_even x)) <= 1 # 2)%Q /\
  ((Qabs (x - inject_Z (round_half_even x)) == 1 # 2)%Q ->
   Z.even (round_half_even x) = true).
Proof.
  unfold round_half_even.
  pose proof (Qfloor_le x) as Hlo. pose proof (Qlt_floor x) as Hhi.
  rewrite inject_Z_plus in Hhi. change (inject_Z 1) with 1%Q in Hhi.
  destruct (Qcompare_spec (x - inject_Z (Qfloor x)) (1 # 2)) as [He|Hl|Hg].
  - destruct (Z.even (Qfloor x)) eqn:Ev.
    + split; [|intros _; exact Ev]. apply Qabs_Qle_condition. split; lra.
    + split.
      * rewrite inject_Z_plus. change (inject_Z 1) with 1%Q.
        apply Qabs_Qle_condition. split; lra.
      * intros _. rewrite Z.even_add, Ev. reflexivity.
  - split; [apply Qabs_Qle_condition; split; lra|].
    intros Habs. exfalso. rewrite Qabs_pos in Habs by lra. lra.
  - rewrite inject_Z_plus. change (inject_Z 1) with 1%Q.
    split; [apply Qabs_Qle_condition; split; lra|].
    intros Habs. exfalso. rewrite Qabs_neg in Habs by lra. lra.
Qed.

(** *** Powers of two and the binary logarithm *)

Lemma pow2_pos (e : Z) : (0 < pow2 e)%Q.
Proof. apply Qpower_0_lt. reflexivity. Qed.

Lemma pow2_plus (a b : Z) : (pow2 (a + b) == pow2 a * pow2 b)%Q.
Proof. apply Qpower_plus. discriminate. Qed.

Lemma pow2_le (a b : Z) : a <= b -> (pow2 a <= pow2 b)%Q.
Proof. intros H. apply Qpower_le_compat_l; [exact H|discriminate]. Qed.

Lemma pow2_inject (a : Z) : 0 <= a -> (inject_Z (2 ^ a) == pow2 a)%Q.
Proof. intros H. apply Zpower_Qpower, H. Qed.

Lemma ilog2_spec (x : Q) :
  (0 < x)%Q -> (pow2 (ilog2 x) <= x)%Q /\ (x < pow2 (ilog2 x + 1))%Q.
Proof.
  intros Hx. destruct x as [n d].
  assert (Hn : 0 < n) by (unfold Qlt in Hx; simpl in Hx; lia).
  unfold ilog2. cbn [Qnum Qden].
  set (a := Z.log2 n). set (b := Z.log2 (Z.pos d)).
  assert (Ha0 : 0 <= a) by apply Z.log2_nonneg.
  assert (Hb0 : 0 <= b) by apply Z.log2_nonneg.
  destruct (Z.log2_spec n Hn) as [Ha1 Ha2]. fold a in Ha1, Ha2.
  destruct (Z.log2_spec (Z.pos d) (Pos2Z.is_pos d)) as [Hb1 Hb2]. fold b in Hb1, Hb2.
  assert (Hd : (0 < inject_Z (Z.pos d))%Q) by reflexivity.
  assert (Hq : (n # d == inject_Z n / inject_Z (Z.pos d))%Q) by apply Qmake_Qdiv.
  rewrite Zle_Qle, pow2_inject in Ha1, Hb1 by assumption.
  rewrite Zlt_Qlt, <- Z.add_1_r, pow2_inject in Ha2, Hb2 by lia.
  destruct (Qle_bool (pow2 (a - b)) (n # d)) eqn:E.
  - apply Qle_bool_iff in E. split; [exact E|].
    rewrite Hq. apply Qlt_shift_div_r; [exact Hd|].
    apply Qlt_le_trans with (pow2 (a + 1)); [exact Ha2|].
    replace (a + 1) with ((a - b + 1) + b) by lia. rewrite pow2_plus.
    apply Qmult_le_l; [apply pow2_pos|exact Hb1].
  - assert (Hlt : (n # d < pow2 (a - b))%Q).
    { apply Qnot_le_lt. intros H. apply Qle_bool_iff in H. congruence. }
    replace (a - b - 1 + 1) with (a - b) by lia. split; [|exact Hlt].
    rewrite Hq. apply Qle_shift_div_l; [exact Hd|].
    apply Qle_trans with (pow2 a); [|exact Ha1].
    replace a with ((a - b - 1) + (b + 1)) at 2 by lia. rewrite pow2_plus.
    apply Qmult_le_l; [apply pow2_pos|apply Qlt_le_weak, Hb2].
Qed.

Lemma quantum_spec (x : Q) :
  ~ (x == 0)%Q ->
  -1074 <= quantum x /\
  (Qabs x < pow2 (quantum x + 53))%Q /\
  (quantum x = -1074 \/ (pow2 (quantum x + 52) <= Qabs x)%Q).
Proof.
  intros Hx.
  assert (Hpos : (0 < Qabs x)%Q).
  { destruct (Qlt_le_dec 0 (Qabs x)) as [H|H]; [exact H|].
    exfalso. apply Hx. apply Qabs_Qle_condition in H. lra. }
  destruct (ilog2_spec (Qabs x) Hpos) as [Hlo Hhi].
  unfold quantum. split; [lia|]. split.
  - apply Qlt_le_trans with (pow2 (ilog2 (Qabs x) + 1)); [exact Hhi|].
    apply pow2_le. lia.
  - destruct (Z.max_spec (ilog2 (Qabs x) - 52) (-1074)) as [[_ ->]|[_ ->]].
    + left. reflexivity.
    + right. replace (ilog2 (Qabs x) - 52 + 52) with (ilog2 (Qabs x)) by lia. exact Hlo.
Qed.

(** *** Rounding to a double *)

Lemma nearest_zero (x : Q) : (x == 0)%Q -> nearest x = 0%Q.
Proof. intros H. unfold nearest. apply Qeq_bool_iff in H. rewrite H. reflexivity. Qed.

Lemma nearest_spec (x : Q) :
  ~ (x == 0)%Q ->
  exists m : Z,
    (nearest x == inject_Z m * pow2 (quantum x))%Q /\
    - 2 ^ 53 <= m <= 2 ^ 53 /\
    (Qabs (x - nearest x) <= pow2 (quantum x) * (1 # 2))%Q /\
    ((Qabs (x - nearest x) == pow2 (quantum x) * (1 # 2))%Q -> Z.even m = true).
Proof.
  intros Hx. destruct (quantum_spec x Hx) as (He & Hhi & _).
  set (e := quantum x) in *. set (p := pow2 e).
  assert (Hp : (0 < p)%Q) by apply pow2_pos.
  exists (round_half_even (x / p)).
  assert (Hn : (nearest x == inject_Z (round_half_even (x / p)) * p)%Q).
  { unfold nearest. destruct (Qeq_bool x 0) eqn:E.
    - apply Qeq_bool_iff in E. contradiction.
    - apply Qred_correct. }
  split; [exact Hn|].
  assert (Hdiff : (Qabs (x - nearest x)
                   == p * Qabs (x / p - inject_Z (round_half_even (x / p))))%Q).
  { transitivity (Qabs (p * (x / p - inject_Z (round_half_even (x / p))))).
    - apply Qabs_wd. rewrite Hn. field. lra.
    - rewrite Qabs_Qmult, (Qabs_pos p) by lra. reflexivity. }
  destruct (round_half_even_near (x / p)) as [Hnear Htie].
  split; [|split].
  - assert (Hb : (Qabs (x / p) <= inject_Z (2 ^ 53))%Q).
    { rewrite pow2_inject by lia. unfold Qdiv. rewrite Qabs_Qmult.
      rewrite (Qabs_pos (/ p)) by (apply Qlt_le_weak, Qinv_lt_0_compat, Hp).
      apply Qle_shift_div_r; [exact Hp|].
      apply Qlt_le_weak. unfold p. rewrite <- pow2_plus.
      replace (53 + e) with (e + 53) by lia. exact Hhi. }
    apply Qabs_Qle_condition in Hb as [Hb1 Hb2].
    apply round_half_even_between.
    + rewrite inject_Z_opp. exact Hb1.
    + exact Hb2.
  - rewrite Hdiff. apply Qmult_le_l; [exact Hp|exact Hnear].
  - intros Habs. apply Htie. rewrite Hdiff in Habs.
    apply (Qmult_inj_l _ _ p); [lra|exact Habs].
Qed.

Lemma nearest_correct (x : Q) : correctly_rounded x (nearest x).
Proof.
  split; [apply nearest_zero|]. intros Hx.
  destruct (nearest_spec x Hx) as (m & H1 & H2 & H3 & H4).
  destruct (quantum_spec x Hx) as (H5 & _ & H6).
  exists m, (quantum x). auto 10.
Qed.

Lemma nearest_bound (x M : Q) :
  (Qabs x <= M)%Q -> (Qabs (nearest x) <= 2 * M + 1)%Q.
Proof.
  intros HM. pose proof (Qabs_nonneg x) as H0.
  destruct (Qeq_dec x 0) as [Hz|Hx].
  - rewrite (nearest_zero x Hz). change (Qabs 0) with 0%Q. lra.
  - destruct (nearest_spec x Hx) as (m & _ & _ & Hd & _).
    destruct (quantum_spec x Hx) as (_ & _ & Hq).
    assert (Hp : (pow2 (quantum x) <= Qabs x + 1)%Q).
    { destruct Hq as [->|Hq].
      - apply Qle_trans with (pow2 0); [apply pow2_le; lia|]. unfold pow2. simpl. lra.
      - apply Qle_trans with (pow2 (quantum x + 52)); [apply pow2_le; lia|]. lra. }
    apply Qabs_Qle_condition in Hd as [Hd1 Hd2].
    destruct (proj1 (Qabs_Qle_condition _ _) HM) as [HM1 HM2].
    apply Qabs_Qle_condition. split; lra.
Qed.

Lemma not_too_large (r M : Q) :
  (Qabs r <= M)%Q -> (M < pow2 1024)%Q -> too_large r = false.
Proof.
  intros Hr HM. unfold too_large.
  destruct (Qle_bool (pow2 1024) (Qabs r)) eqn:E; [|reflexivity].
  apply Qle_bool_iff in E. lra.
Qed.


(** *** When the operations return *)

Lemma quotient_bound (a b : Z) :
  1 <= b -> (Qabs (inject_Z a / inject_Z b) <= inject_Z (Z.abs a))%Q.
Proof.
  intros Hb.
  assert (HbQ : (0 < inject_Z b)%Q).
  { change (inject_Z 0 < inject_Z b)%Q. rewrite <- Zlt_Qlt. lia. }
  apply Qabs_Qle_condition. split.
  - apply Qle_shift_div_l; [exact HbQ|].
    rewrite <- inject_Z_opp, <- inject_Z_mult, <- Zle_Qle. nia.
  - apply Qle_shift_div_r; [exact HbQ|].
    rewrite <- inject_Z_mult, <- Zle_Qle. nia.
Qed.

Lemma true_div_returns (a b : Z) (M : Q) :
  1 <= b ->
  (inject_Z (Z.abs a) <= M)%Q -> (2 * M + 1 < pow2 1024)%Q ->
  true_div a b = Some (nearest (inject_Z a / inject_Z b)) /\
  (Qabs (nearest (inject_Z a / inject_Z b)) <= 2 * M + 1)%Q.
Proof.
  intros Hb HM Hlim.
  assert (Hn : (Qabs (nearest (inject_Z a / inject_Z b)) <= 2 * M + 1)%Q).
  { apply nearest_bound. eapply Qle_trans; [apply quotient_bound, Hb|exact HM]. }
  split; [|exact Hn]. unfold true_div.
  destruct (Z.eqb_spec b 0) as [->|_]; [lia|]. cbv zeta.
  rewrite (not_too_large _ _ Hn Hlim). reflexivity.
Qed.

Lemma true_div_correct (a b : Z) (raw : Q) :
  true_div a b = Some raw -> correctly_rounded (inject_Z a / inject_Z b) raw.
Proof.
  unfold true_div. destruct (b =? 0); [discriminate|]. cbv zeta.
  destruct (too_large _); [discriminate|]. intros [= <-]. apply nearest_correct.
Qed.

Lemma float_mul_correct (x y p : Q) :
  float_mul x y = Finite p -> correctly_rounded (x * y) p.
Proof.
  unfold float_mul. cbv zeta. destruct (too_large _); [discriminate|].
  intros [= <-]. apply nearest_correct.
Qed.

Lemma float_min_is_min (x y : Q) : (float_min x y == Qmin x y)%Q.
Proof.
  unfold float_min, Qlt_bool. destruct (Qle_bool x y) eqn:E; cbn [negb].
  - apply Qle_bool_iff in E. rewrite Q.min_l by exact E. reflexivity.
  - assert (Hlt : (y < x)%Q).
    { apply Qnot_le_lt. intros H. apply Qle_bool_iff in H. congruence. }
    rewrite Q.min_r by (apply Qlt_le_weak, Hlt). reflexivity.
Qed.

Lemma thousandth_of_round (v : Q) : nearest_thousandth v (round_half_even (v * 1000)).
Proof.
  destruct (round_half_even_near (v * 1000)) as [Hnear Htie].
  assert (Hdiff : (Qabs (v - inject_Z (round_half_even (v * 1000)) / 1000)
                   == Qabs (v * 1000 - inject_Z (round_half_even (v * 1000))) * (1 # 1000))%Q).
  { transitivity (Qabs ((v * 1000 - inject_Z (round_half_even (v * 1000))) * (1 # 1000))).
    - apply Qabs_wd. field.
    - rewrite Qabs_Qmult. reflexivity. }
  split.
  - rewrite Hdiff. lra.
  - intros H. apply Htie. rewrite Hdiff in H. lra.
Qed.

Lemma float_round_three (v : Q) :
  float_round (Finite v) 3 =
  if too_large (nearest (inject_Z (round_half_even (v * 1000)) / 1000)) then None
  else Some (Finite (nearest (inject_Z (round_half_even (v * 1000)) / 1000))).
Proof. reflexivity. Qed.

Lemma float_round_returns (v M : Q) :
  (Qabs v <= M)%Q -> (2 * (M + 1) + 1 < pow2 1024)%Q ->
  float_round (Finite v) 3
  = Some (Finite (nearest (inject_Z (round_half_even (v * 1000)) / 1000))).
Proof.
  intros HM Hlim. rewrite float_round_three.
  destruct (thousandth_of_round v) as [Hk _].
  assert (Hb : (Qabs (inject_Z (round_half_even (v * 1000)) / 1000) <= M + 1)%Q).
  { apply Qabs_Qle_condition in Hk as [Hk1 Hk2].
    apply Qabs_Qle_condition in HM as [HM1 HM2].
    apply Qabs_Qle_condition. split; lra. }
  rewrite (not_too_large _ _ (nearest_bound _ _ Hb) Hlim). reflexivity.
Qed.

Lemma modest_score_returns {A} `{Variant A} (variant : A) :
  modest variant ->
  exists raw q product k,
    true_div (callbacks variant * 1 + interviews variant * 3 + offers variant * 5
              - rejections variant * 1 - ghosted variant * 2)
             (Z.max (applications_used variant) 1) = Some raw /\
    true_div (applications_used variant) 3 = Some q /\
    float_mul raw (float_min 1 q) = Finite product /\
    nearest_thousandth product k /\
    calculate_variant_score variant = Some (Finite (nearest (inject_Z k / 1000))).
Proof.
  intros (Ha & Hcb & Hiv & Hoff & Hrej & Hgh).
  unfold calculate_variant_score, MIN_APPS_FOR_FULL_CONFIDENCE.
  destruct outcome_weights as (-> & -> & -> & -> & ->).
  replace (callbacks variant * 1 + interviews variant * 3 + offers variant * 5
           + rejections variant * -1 + ghosted variant * -2)
    with (callbacks variant * 1 + interviews variant * 3 + offers variant * 5
          - rejections variant * 1 - ghosted variant * 2) by lia.
  set (n := callbacks variant * 1 + interviews variant * 3 + offers variant * 5
            - rejections variant * 1 - ghosted variant * 2).
  set (B := inject_Z (2 ^ 200)).
  assert (HB : (B == inject_Z (2 ^ 200))%Q) by reflexivity.
  assert (HB0 : (0 <= B)%Q) by discriminate.
  assert (Hn : (inject_Z (Z.abs n) <= 12 * B)%Q).
  { unfold B. change 12%Q with (inject_Z 12). rewrite <- inject_Z_mult, <- Zle_Qle.
    unfold n. lia. }
  assert (Hlim1 : (2 * (12 * B) + 1 < pow2 1024)%Q) by (vm_compute; reflexivity).
  destruct (true_div_returns n (Z.max (applications_used variant) 1) (12 * B)
              ltac:(lia) Hn Hlim1) as [Hraw Hrawb].
  set (raw := nearest (inject_Z n / inject_Z (Z.max (applications_used variant) 1))) in *.
  assert (Hq0 : (inject_Z (Z.abs (applications_used variant)) <= B)%Q).
  { unfold B. rewrite <- Zle_Qle. exact Ha. }
  assert (Hlim2 : (2 * B + 1 < pow2 1024)%Q) by (vm_compute; reflexivity).
  destruct (true_div_returns (applications_used variant) 3 B ltac:(lia) Hq0 Hlim2)
    as [Hq Hqb].
  set (q := nearest (inject_Z (applications_used variant) / inject_Z 3)) in *.
  assert (Hc : (Qabs (float_min 1 q) <= 2 * B + 1)%Q).
  { unfold float_min. destruct (Qlt_bool q 1); [exact Hqb|].
    change (Qabs 1) with 1%Q. lra. }
  set (c := float_min 1 q) in *.
  assert (Hx : (Qabs (raw * c) <= (2 * (12 * B) + 1) * (2 * B + 1))%Q).
  { rewrite Qabs_Qmult. apply Qmult_le_compat_nonneg.
    - split; [apply Qabs_nonneg|exact Hrawb].
    - split; [apply Qabs_nonneg|exact Hc]. }
  pose proof (nearest_bound _ _ Hx) as Hp.
  assert (Hlim3 : (2 * ((2 * (12 * B) + 1) * (2 * B + 1)) + 1 < pow2 1024)%Q)
    by (vm_compute; reflexivity).
  assert (Hmul : float_mul raw c = Finite (nearest (raw * c))).
  { unfold float_mul. cbv zeta. rewrite (not_too_large _ _ Hp Hlim3). reflexivity. }
  assert (Hlim4 : (2 * (2 * ((2 * (12 * B) + 1) * (2 * B + 1)) + 1 + 1) + 1 < pow2 1024)%Q)
    by (vm_compute; reflexivity).
  exists raw, q, (nearest (raw * c)), (round_half_even (nearest (raw * c) * 1000)).
  split; [exact Hraw|]. split; [exact Hq|]. split; [exact Hmul|].
  split; [apply thousandth_of_round|].
  rewrite Hraw, Hq. cbv zeta. fold c. rewrite Hmul.
  apply (float_round_returns _ _ Hp Hlim4).
Qed.


(** *** The formula *)

(** C9: the score is computed by the stated formula, on doubles.  For
    every variant of either kind the code agrees with the formula, errors
    included.  When no counter exceeds 2^200 in magnitude the call
    returns, and its result is obtained as stated: raw is the quotient
    of callbacks + 3 interviews + 5 offers - rejections - 2 ghosted by
    max(applications_used, 1), confidence is min(1, applications_used / 3),
    and the score is the double of the three-decimal number nearest to
    raw * confidence; quotient, product and the final conversion are each
    correctly rounded.  Five applications with one callback, one
    interview and one rejection score 0.6, a single application with one
    interview scores 1.0, and eighty applications with nine callbacks
    score 0.113. *)
Theorem variant_score_formula :
  (forall (A : Type) (V : Variant A) (variant : A),
     calculate_variant_score variant = spec_score variant) /\
  (forall (A : Type) (V : Variant A) (variant : A),
     modest variant ->
     exists raw q product k,
       true_div (callbacks variant * 1 + interviews variant * 3 + offers variant * 5
                 - rejections variant * 1 - ghosted variant * 2)
                (Z.max (applications_used variant) 1) = Some raw /\
       true_div (applications_used variant) 3 = Some q /\
       float_mul raw (float_min 1 q) = Finite product /\
       nearest_thousandth product k /\
       calculate_variant_score variant = Some (Finite (nearest (inject_Z k / 1000)))) /\
  (forall a b raw,
     true_div a b = Some raw -> correctly_rounded (inject_Z a / inject_Z b) raw) /\
  (forall x y product,
     float_mul x y = Finite product -> correctly_rounded (x * y) product) /\
  (forall x y, (float_min x y == Qmin x y)%Q) /\
  (forall x, correctly_rounded x (nearest x)) /\
  calculate_variant_score (counters 5 1 1 0 1 0) = Some (Finite (nearest (6 # 10))) /\
  spec_raw (counters 5 1 1 0 1 0) = Some (nearest (6 # 10)) /\
  spec_confidence (counters 5 1 1 0 1 0) = Some 1%Q /\
  nearest (6 # 10) = (5404319552844595 # 9007199254740992)%Q /\
  calculate_variant_score (counters 1 0 1 0 0 0) = Some (Finite 1) /\
  spec_raw (counters 1 0 1 0 0 0) = Some 3%Q /\
  spec_confidence (counters 1 0 1 0 0 0) = Some (nearest (1 # 3)) /\
  calculate_variant_score (letter_counters 5 1 1 0 1 0) = Some (Finite (nearest (6 # 10))) /\
  calculate_variant_score (counters 80 9 0 0 0 0) = Some (Finite (nearest (113 # 1000))).
Proof.
  split.
  { intros A V variant.
    unfold calculate_variant_score, spec_score, spec_raw, spec_confidence,
      MIN_APPS_FOR_FULL_CONFIDENCE.
    destruct outcome_weights as (-> & -> & -> & -> & ->).
    replace (callbacks variant * 1 + interviews variant * 3 + offers variant * 5
             + rejections variant * -1 + ghosted variant * -2)
      with (callbacks variant * 1 + interviews variant * 3 + offers variant * 5
            - rejections variant * 1 - ghosted variant * 2) by lia.
    destruct (true_div _ (Z.max _ 1)); [|reflexivity].
    destruct (true_div _ 3); reflexivity. }
  split; [intros A V variant; apply modest_score_returns|].
  split; [exact true_div_correct|].
  split; [exact float_mul_correct|].
  split; [exact float_min_is_min|].
  split; [exact nearest_correct|].
  repeat split; vm_compute; reflexivity.
Qed.

Lemma variant_score_formula_witness :
  modest (counters 5 1 1 0 1 0) /\
  exists raw q product k,
    true_div (1 * 1 + 1 * 3 + 0 * 5 - 1 * 1 - 0 * 2) (Z.max 5 1) = Some raw /\
    true_div 5 3 = Some q /\
    float_mul raw (float_min 1 q) = Finite product /\
    nearest_thousandth product k /\
    calculate_variant_score (counters 5 1 1 0 1 0)
    = Some (Finite (nearest (inject_Z k / 1000))).
Proof.
  assert (Hm : modest (counters 5 1 1 0 1 0)).
  { unfold modest. cbn. repeat split; lia. }
  split; [exact Hm|].
  exact (proj1 (proj2 variant_score_formula) ResumeVariant resume_is_variant
               (counters 5 1 1 0 1 0) Hm).
Defined.

End Binary64Facts.

(** ** apply_engine.py: the application queue *)

Module ApplyEngineFacts.
Import ApplyEngine.

(** *** [update_status] *)

Lemma update_first_none (env : Env) (t : nat) (app_id st : string)
      (kw : list override) (apps : list ApplicationRecord) :
  update_first env t app_id st kw apps = None <->
  (forall app, In app apps -> id app <> app_id).
Proof.
  induction apps as [|app rest IH]; simpl.
  - split; [intros _ app []|reflexivity].
  - destruct (String.eqb (id app) app_id) eqn:E.
    + apply String.eqb_eq in E. split; [discriminate|].
      intros H. exfalso. exact (H app (or_introl eq_refl) E).
    + apply String.eqb_neq in E.
      destruct (update_first env t app_id st kw rest) as [rest'|].
      * split; [discriminate|]. intros H.
        assert (Hn : @None (list ApplicationRecord) = None) by reflexivity.
        destruct IH as [_ IH]. discriminate IH.
        intros a Ha. apply H. right. exact Ha.
      * split; [|reflexivity]. intros _ a [<-|Ha]; [exact E|].
        destruct IH as [IH _]. exact (IH eq_refl a Ha).
Qed.

(** C10: when no record of the queue has the given id, [update_status]
    returns false and leaves the queue object as it was: same records
    (statuses, action logs and fields), same file, no write, no clock
    reading; and it returns true exactly when some record has that id. *)
Theorem update_status_unknown_id
    (env : Env) (q : ApplicationQueue) (app_id new_status : string)
    (kwargs : list override) :
  ((forall app, In app (queue q) -> id app <> app_id) ->
   update_status env q app_id new_status kwargs = (false, q)) /\
  (fst (update_status env q app_id new_status kwargs) = true <->
   exists app, In app (queue q) /\ id app = app_id).
Proof.
  unfold update_status.
  pose proof (update_first_none env (clock q) app_id new_status kwargs (queue q)) as Hn.
  destruct (update_first env (clock q) app_id new_status kwargs (queue q)) as [apps|].
  - split.
    + intros H. destruct Hn as [_ Hn]. discriminate (Hn H).
    + split; [intros _|reflexivity].
      assert (Hex : ~ forall app, In app (queue q) -> id app <> app_id).
      { intros H. destruct Hn as [_ Hn']. discriminate (Hn' H). }
      clear Hn. induction (queue q) as [|a l IH].
      * exfalso. apply Hex. intros app [].
      * destruct (string_dec (id a) app_id) as [E|NE].
        -- exists a. split; [left; reflexivity|exact E].
        -- destruct IH as (app & Hin & Hid).
           ++ intros H. apply Hex. intros app [<-|Hin]; [exact NE|exact (H app Hin)].
           ++ exists app. split; [right; exact Hin|exact Hid].
  - split; [reflexivity|]. simpl. split; [discriminate|].
    intros (app & Hin & Hid). destruct Hn as [Hn _].
    exfalso. exact (Hn eq_refl app Hin Hid).
Qed.

Lemma update_status_unknown_id_witness :
  update_status sample_env sample_queue "app_missing" "submitted" [kw_submitted_at "now"]
  = (false, sample_queue).
Proof.
  apply (update_status_unknown_id sample_env sample_queue "app_missing" "submitted").
  intros app Hin. vm_compute in Hin. destruct Hin as [<-|[]].
  vm_compute. discriminate.
Defined.

(** *** [add_jobs] *)

Lemma new_record_job_id (env : Env) (t n : nat) (job : Job) :
  job_id (new_record env t n job) = job_key job.
Proof. reflexivity. Qed.

Lemma add_job_noop (env : Env) (st : AddState) (job : Job) :
  (job_key job ∈ existing_ids st) \/ j_apply_type job = Some "skip" ->
  add_job env st job = st.
Proof.
  intros H. unfold add_job.
  destruct (decide (job_key job ∈ existing_ids st)) as [Hin|Hnin].
  - rewrite bool_decide_eq_true_2 by exact Hin. reflexivity.
  - rewrite bool_decide_eq_false_2 by exact Hnin.
    destruct H as [H|H]; [contradiction|].
    rewrite bool_decide_eq_true_2 by exact H. reflexivity.
Qed.

(** One step of the loop either changes nothing or appends one record for
    a fresh id of a job that is not marked "skip". *)
Lemma add_job_cases (env : Env) (st : AddState) (job : Job) :
  add_job env st job = st \/
  ((job_key job ∉ existing_ids st) /\ j_apply_type job <> Some "skip" /\
   add_job env st job =
   {| existing_ids := {[job_key job]} ∪ existing_ids st;
      added := S (added st);
      acc_queue := (acc_queue st ++ [new_record env (acc_clock st) (added st) job])%list;
      acc_clock := (acc_clock st + 3)%nat |}).
Proof.
  unfold add_job.
  destruct (decide (job_key job ∈ existing_ids st)) as [Hin|Hnin].
  - rewrite bool_decide_eq_true_2 by exact Hin. left; reflexivity.
  - rewrite bool_decide_eq_false_2 by exact Hnin.
    destruct (decide (j_apply_type job = Some "skip")) as [Hs|Hs].
    + rewrite bool_decide_eq_true_2 by exact Hs. left; reflexivity.
    + rewrite bool_decide_eq_false_2 by exact Hs. right. auto.
Qed.

Lemma add_job_tracks (env : Env) (st : AddState) (job : Job) :
  ids_track_queue st -> ids_track_queue (add_job env st job).
Proof.
  intros Hinv. destruct (add_job_cases env st job) as [->|(_ & _ & ->)]; [exact Hinv|].
  unfold ids_track_queue in *. simpl.
  rewrite map_app, list_to_set_app_L, <- Hinv.
  change (map job_id [new_record env (acc_clock st) (added st) job]) with [job_key job].
  rewrite list_to_set_singleton_L. apply (comm_L (∪)).
Qed.

Lemma add_job_grows (env : Env) (st : AddState) (job : Job) :
  existing_ids st ⊆ existing_ids (add_job env st job).
Proof.
  destruct (add_job_cases env st job) as [->|(_ & _ & ->)]; simpl; set_solver.
Qed.

Lemma add_job_settles (env : Env) (st : AddState) (job : Job) :
  (job_key job ∈ existing_ids (add_job env st job)) \/ j_apply_type job = Some "skip".
Proof.
  unfold add_job.
  destruct (decide (job_key job ∈ existing_ids st)) as [Hin|Hnin].
  - rewrite bool_decide_eq_true_2 by exact Hin. left; exact Hin.
  - rewrite bool_decide_eq_false_2 by exact Hnin.
    destruct (decide (j_apply_type job = Some "skip")) as [Hs|Hs].
    + right; exact Hs.
    + rewrite bool_decide_eq_false_2 by exact Hs. left. simpl. set_solver.
Qed.

Lemma fold_add_tracks (env : Env) (jobs : list Job) (st : AddState) :
  ids_track_queue st -> ids_track_queue (fold_left (add_job env) jobs st).
Proof.
  revert st. induction jobs as [|job jobs IH]; intros st H; simpl; [exact H|].
  apply IH, add_job_tracks, H.
Qed.

Lemma fold_add_grows (env : Env) (jobs : list Job) (st : AddState) :
  existing_ids st ⊆ existing_ids (fold_left (add_job env) jobs st).
Proof.
  revert st. induction jobs as [|job jobs IH]; intros st; simpl; [set_solver|].
  etransitivity; [apply (add_job_grows env st job)|apply IH].
Qed.

(** After the loop every job of the list is either in the id set or
    marked "skip". *)
Lemma fold_add_settles (env : Env) (jobs : list Job) (st : AddState) (job : Job) :
  In job jobs ->
  (job_key job ∈ existing_ids (fold_left (add_job env) jobs st)) \/
  j_apply_type job = Some "skip".
Proof.
  revert st. induction jobs as [|j jobs IH]; intros st Hin; [destruct Hin|].
  simpl. destruct Hin as [->|Hin]; [|apply IH, Hin].
  destruct (add_job_settles env st job) as [H|H]; [left|right; exact H].
  apply (fold_add_grows env jobs (add_job env st job)), H.
Qed.

Lemma fold_add_noop (env : Env) (jobs : list Job) (st : AddState) :
  (forall job, In job jobs ->
     (job_key job ∈ existing_ids st) \/ j_apply_type job = Some "skip") ->
  fold_left (add_job env) jobs st = st.
Proof.
  induction jobs as [|j jobs IH]; intros H; simpl; [reflexivity|].
  rewrite (add_job_noop env st j) by (apply H; left; reflexivity).
  apply IH. intros job Hin. apply H. right. exact Hin.
Qed.

Lemma fold_add_shape (env : Env) (jobs : list Job) (st : AddState) :
  exists new,
    acc_queue (fold_left (add_job env) jobs st) = (acc_queue st ++ new)%list /\
    added (fold_left (add_job env) jobs st) = (added st + length new)%nat /\
    NoDup (map job_id new) /\
    Forall (added_from jobs (existing_ids st)) new.
Proof.
  revert st. induction jobs as [|j jobs IH]; intros st; simpl.
  - exists []. rewrite app_nil_r, Nat.add_0_r. repeat split; constructor.
  - destruct (IH (add_job env st j)) as (new & Hq & Ha & Hnd & Hall).
    assert (Hweak : forall known r,
               added_from jobs known r -> added_from (j :: jobs) known r).
    { intros known r (H1 & H2 & job & Hin & H3). split; [exact H1|]. split; [exact H2|].
      exists job. split; [right; exact Hin|exact H3]. }
    destruct (add_job_cases env st j) as [E|(Hfresh & Hns & E)]; rewrite E in *.
    + exists new. repeat split; auto.
      eapply Forall_impl; [exact Hall|]. intros r Hr. apply Hweak, Hr.
    + simpl in *. exists (new_record env (acc_clock st) (added st) j :: new).
      rewrite <- app_assoc in Hq. simpl in Hq.
      split; [exact Hq|]. split; [simpl; lia|]. split.
      * simpl. constructor; [|exact Hnd].
        rewrite list_elem_of_In. intros Hin. apply in_map_iff in Hin.
        destruct Hin as (r & Hr & Hin).
        rewrite Forall_forall in Hall. apply list_elem_of_In in Hin.
        destruct (Hall r Hin) as (Hnotin & _).
        apply Hnotin. rewrite Hr. set_solver.
      * constructor.
        -- split; [exact Hfresh|]. split; [reflexivity|].
           exists j. split; [left; reflexivity|]. split; [reflexivity|exact Hns].
        -- eapply Forall_impl; [exact Hall|].
           intros r (H1 & H2 & H3). apply Hweak.
           split; [intros Hin; apply H1, elem_of_union; right; exact Hin|]. auto.
Qed.

(** A call of [add_jobs] with nothing but "skip" jobs adds nothing. *)
Lemma add_jobs_all_skip (env : Env) (q : ApplicationQueue) (jobs : list Job) :
  (forall job, In job jobs -> j_apply_type job = Some "skip") ->
  fst (add_jobs env q jobs) = 0%nat /\
  queue (snd (add_jobs env q jobs)) = queue q.
Proof.
  intros H. unfold add_jobs. rewrite fold_add_noop; [simpl; auto|].
  intros job Hin. right. apply H, Hin.
Qed.

(** C8: a second [add_jobs] with the same list returns 0 and leaves the
    records as the first call left them; the first call appends exactly
    the returned number of records, with pairwise distinct job ids that
    were not in the queue before, each for a job of the list that is not
    marked "skip"; and a job marked "skip" is not added however often
    [add_jobs] is called with it. *)
Theorem add_jobs_idempotent (env : Env) (q : ApplicationQueue) (jobs : list Job) :
  let first := add_jobs env q jobs in
  let second := add_jobs env (snd first) jobs in
  fst second = 0%nat /\
  queue (snd second) = queue (snd first) /\
  (exists new,
     queue (snd first) = (queue q ++ new)%list /\
     length new = fst first /\
     NoDup (map job_id new) /\
     Forall (added_from jobs (list_to_set (map job_id (queue q)))) new) /\
  (forall (job : Job) (n : nat),
     j_apply_type job = Some "skip" ->
     queue (add_jobs_times env n q [job]) = queue q /\
     fst (add_jobs env (add_jobs_times env n q [job]) [job]) = 0%nat).
Proof.
  intros first second.
  set (st0 := {| existing_ids := list_to_set (map job_id (queue q));
                 added := 0; acc_queue := queue q; acc_clock := clock q |}).
  set (st1 := fold_left (add_job env) jobs st0).
  assert (Hfirst : first = (added st1, save {| queue := acc_queue st1;
                        queue_file := queue_file q; writes := writes q;
                        clock := acc_clock st1 |})) by reflexivity.
  assert (Htrack : ids_track_queue st1).
  { apply fold_add_tracks. reflexivity. }
  assert (Hnoop : fold_left (add_job env) jobs
                    {| existing_ids := list_to_set (map job_id (acc_queue st1));
                       added := 0; acc_queue := acc_queue st1;
                       acc_clock := acc_clock st1 |}
                  = {| existing_ids := list_to_set (map job_id (acc_queue st1));
                       added := 0; acc_queue := acc_queue st1;
                       acc_clock := acc_clock st1 |}).
  { apply fold_add_noop. intros job Hin. simpl. rewrite <- Htrack.
    apply fold_add_settles, Hin. }
  assert (Hsecond : second = (0%nat, save (snd first))).
  { subst second. rewrite Hfirst. unfold add_jobs. simpl.
    rewrite Hnoop. reflexivity. }
  split; [rewrite Hsecond; reflexivity|].
  split; [rewrite Hsecond; reflexivity|].
  split.
  - destruct (fold_add_shape env jobs st0) as (new & Hq & Ha & Hnd & Hall).
    exists new. rewrite Hfirst. simpl. fold st1.
    split; [exact Hq|].
    split; [change (length new = added st1); unfold st1; rewrite Ha; reflexivity|].
    split; [exact Hnd|exact Hall].
  - intros job n Hskip.
    assert (Hone : forall j, In j [job] -> j_apply_type j = Some "skip").
    { intros j [<-|[]]. exact Hskip. }
    assert (Hq : queue (add_jobs_times env n q [job]) = queue q).
    { induction n as [|n IH]; [reflexivity|].
      change (queue (snd (add_jobs env (add_jobs_times env n q [job]) [job])) = queue q).
      destruct (add_jobs_all_skip env (add_jobs_times env n q [job]) [job] Hone)
        as [_ E]. rewrite E. exact IH. }
    split; [exact Hq|].
    apply (add_jobs_all_skip env _ [job] Hone).
Qed.

Lemma add_jobs_idempotent_witness :
  queue (add_jobs_times sample_env 3 sample_queue [skip_job]) = queue sample_queue /\
  fst (add_jobs sample_env (add_jobs_times sample_env 3 sample_queue [skip_job])
         [skip_job]) = 0%nat.
Proof.
  apply (add_jobs_idempotent sample_env sample_queue [skip_job]).
  reflexivity.
Defined.

(** *** [get_pending] *)

Lemma descending_take {A} (key : A -> Z) (n : nat) (l : list A) :
  PyList.descending key l -> PyList.descending key (take n l).
Proof.
  unfold PyList.descending. intros H. revert n.
  induction H as [|x l Hs IH Hx]; intros [|n]; simpl; try constructor.
  - apply IH.
  - rewrite Forall_forall in *. intros y Hy. apply Hx.
    exact (sublist_subseteq _ _ (sublist_take _ _) _ Hy).
Qed.

(** X17: [get_pending] returns queued records of the queue only, ordered
    by score from the highest down; without a limit (or with limit 0) it
    returns every queued record exactly once, and with a positive limit
    [n] it returns the first [n] of that list, so at most [n] records. *)
Theorem get_pending_returns_the_best_queued (q : ApplicationQueue) (limit : option Z) :
  Forall (fun a => status a = "queued" /\ In a (queue q)) (get_pending q limit) /\
  PyList.descending score (get_pending q limit) /\
  Permutation (get_pending q None) (filter (fun a => status a = "queued") (queue q)) /\
  get_pending q (Some 0) = get_pending q None /\
  (forall n, 0 < n ->
     get_pending q (Some n) = take (Z.to_nat n) (get_pending q None) /\
     (length (get_pending q (Some n)) <= Z.to_nat n)%nat).
Proof.
  set (pending := PyList.sorted_desc score
                    (filter (fun a => status a = "queued") (queue q))).
  assert (Hperm : Permutation pending (filter (fun a => status a = "queued") (queue q)))
    by apply PyListFacts.sorted_desc_perm.
  assert (Hall : Forall (fun a => status a = "queued" /\ In a (queue q)) pending).
  { rewrite Hperm. rewrite Forall_forall. intros a Ha.
    apply list_elem_of_filter in Ha as [Hs Hin]. split; [exact Hs|].
    apply list_elem_of_In, Hin. }
  assert (Hsorted : PyList.descending score pending)
    by apply PyListFacts.sorted_desc_descending.
  assert (Hsub : forall k, Forall (fun a => status a = "queued" /\ In a (queue q))
                                  (take k pending)).
  { intros k. rewrite Forall_forall in *. intros a Ha. apply Hall.
    exact (sublist_subseteq _ _ (sublist_take _ _) _ Ha). }
  split; [|split; [|split; [exact Hperm|split; [reflexivity|]]]].
  - unfold get_pending. fold pending. destruct limit as [n|]; [|exact Hall].
    destruct (n =? 0); [exact Hall|]. unfold PyList.slice_to.
    destruct (0 <=? n); apply Hsub.
  - unfold get_pending. fold pending. destruct limit as [n|]; [|exact Hsorted].
    destruct (n =? 0); [exact Hsorted|]. unfold PyList.slice_to.
    destruct (0 <=? n); apply descending_take, Hsorted.
  - intros n Hn. unfold get_pending. fold pending.
    destruct (Z.eqb_spec n 0) as [->|_]; [lia|].
    unfold PyList.slice_to. destruct (Z.leb_spec 0 n); [|lia].
    split; [reflexivity|]. rewrite length_take. lia.
Qed.

(** *** [update_status] on a known id *)

Lemma update_first_some (env : Env) (t : nat) (app_id st : string)
      (kw : list override) (apps apps' : list ApplicationRecord) :
  update_first env t app_id st kw apps = Some apps' ->
  exists pre app post,
    apps = (pre ++ app :: post)%list /\
    (forall a, In a pre -> id a <> app_id) /\
    id app = app_id /\
    apps' = (pre ++ updated_record env t st kw app :: post)%list.
Proof.
  revert apps'. induction apps as [|a rest IH]; intros apps'; simpl; [discriminate|].
  destruct (String.eqb (id a) app_id) eqn:E.
  - intros [= <-]. apply String.eqb_eq in E.
    exists [], a, rest. repeat split; auto.
  - apply String.eqb_neq in E.
    destruct (update_first env t app_id st kw rest) as [rest'|]; [|discriminate].
    intros [= <-]. destruct (IH rest' eq_refl) as (pre & app & post & -> & Hpre & Hid & ->).
    exists (a :: pre), app, post. repeat split; auto.
    intros x [<-|Hx]; [exact E|apply Hpre, Hx].
Qed.

(** X18: when [update_status] returns true it has changed exactly one
    record, the first one with the given id: that record gets the new
    status, one more log line and then the field overrides; all other
    records stay as they were and in place; the file is written with the
    new queue.  Without overrides the record is found under its new
    status afterwards. *)
Theorem update_status_changes_first_match
    (env : Env) (q q' : ApplicationQueue) (app_id new_status : string)
    (kwargs : list override) :
  update_status env q app_id new_status kwargs = (true, q') ->
  exists pre app post,
    queue q = (pre ++ app :: post)%list /\
    (forall a, In a pre -> id a <> app_id) /\
    id app = app_id /\
    queue q' = (pre ++ updated_record env (clock q) new_status kwargs app :: post)%list /\
    queue_file q' = Some (queue q') /\
    writes q' = S (writes q) /\
    (kwargs = [] ->
     In (updated_record env (clock q) new_status [] app) (get_by_status q' new_status) /\
     length (action_log (updated_record env (clock q) new_status [] app))
     = S (length (action_log app))).
Proof.
  unfold update_status. intros H.
  destruct (update_first env (clock q) app_id new_status kwargs (queue q)) as [apps|] eqn:E;
    [|discriminate].
  injection H as <-.
  destruct (update_first_some _ _ _ _ _ _ _ E) as (pre & app & post & Hq & Hpre & Hid & ->).
  exists pre, app, post. simpl. repeat split; auto.
  - subst kwargs. unfold get_by_status. simpl.
    apply list_elem_of_In, list_elem_of_filter. split; [reflexivity|].
    apply list_elem_of_In, in_or_app. right. left. reflexivity.
  - subst kwargs. unfold updated_record. simpl. rewrite length_app. simpl. lia.
Qed.

Lemma update_status_changes_first_match_witness :
  update_status sample_env sample_queue "app_20240101090000_0" "filling" []
  = (true, sample_queue_filling) /\
  exists pre app post,
    queue sample_queue = (pre ++ app :: post)%list /\
    (forall a, In a pre -> id a <> "app_20240101090000_0") /\
    id app = "app_20240101090000_0" /\
    queue sample_queue_filling
    = (pre ++ updated_record sample_env (clock sample_queue) "filling" [] app :: post)%list /\
    queue_file sample_queue_filling = Some (queue sample_queue_filling) /\
    writes sample_queue_filling = S (writes sample_queue) /\
    (@nil override = [] ->
     In (updated_record sample_env (clock sample_queue) "filling" [] app)
        (get_by_status sample_queue_filling "filling") /\
     length (action_log (updated_record sample_env (clock sample_queue) "filling" [] app))
     = S (length (action_log app))).
Proof.
  split; [reflexivity|].
  apply (update_status_changes_first_match sample_env sample_queue sample_queue_filling
           "app_20240101090000_0" "filling" []).
  reflexivity.
Defined.

(** *** Board names *)

(** X19: the board name inferred from a URL is always one of "default",
    "indeed", "linkedin", "glassdoor" and "career_page" ("default" for an
    empty URL), and each of these has a row of its own in the rate table
    of every limiter, so rate limiting by inferred board never falls back
    and never fails. *)
Theorem board_name_has_its_own_rate
    (url_text : string) (custom : gmap string RateLimiter.RateConfig) (d : Z) :
  In (_get_board_name url_text)
     ["default"; "indeed"; "linkedin"; "glassdoor"; "career_page"] /\
  _get_board_name "" = "default" /\
  exists rate,
    RateLimiter.rates (RateLimiter.init custom d) !! _get_board_name url_text = Some rate /\
    RateLimiter._get_rate (RateLimiter.init custom d) (_get_board_name url_text) = Some rate.
Proof.
  assert (Hin : In (_get_board_name url_text)
                   ["default"; "indeed"; "linkedin"; "glassdoor"; "career_page"]).
  { unfold _get_board_name. destruct (negb (PyStr.truthy url_text)); [left; reflexivity|].
    cbn [first_board].
    repeat (match goal with
            | |- context [PyStr.contains ?p ?t] => destruct (PyStr.contains p t)
            end; [simpl; tauto|]).
    simpl. tauto. }
  split; [exact Hin|]. split; [reflexivity|].
  assert (Hrow : is_Some (RateLimiter.DEFAULT_BOARD_RATES !! _get_board_name url_text)).
  { simpl in Hin. destruct Hin as [<-|[<-|[<-|[<-|[<-|[]]]]]]; eexists; reflexivity. }
  assert (Hrates : is_Some (RateLimiter.rates (RateLimiter.init custom d)
                              !! _get_board_name url_text)).
  { unfold RateLimiter.init. simpl. rewrite lookup_union.
    destruct Hrow as [r ->]. destruct (custom !! _); simpl; eauto. }
  destruct Hrates as [rate Hrate]. exists rate. split; [exact Hrate|].
  unfold RateLimiter._get_rate.
  destruct (RateLimiterFacts.init_has_default custom d) as [dflt ->].
  rewrite Hrate. reflexivity.
Qed.

(** *** [get_stats] *)

Lemma status_counts_le (l : list ApplicationRecord) :
  (length (filter (fun a => status a = "queued") l)
   + length (filter (fun a => status a = "filling") l)
   + length (filter (fun a => status a = "ready-for-review") l)
   + length (filter (fun a => status a = "submitted") l)
   + length (filter (fun a => status a = "confirmed") l)
   + length (filter (fun a => status a = "error") l)
   <= length l)%nat.
Proof.
  induction l as [|a l IH]; [simpl; lia|].
  rewrite !filter_cons.
  repeat case_decide; cbn [length]; try lia; congruence.
Qed.

Lemma today_count_le (today : string) (l : list ApplicationRecord) :
  (length (filter (fun a => submitted_today today a = true) l)
   <= length (filter (fun a => status a = "submitted") l)
      + length (filter (fun a => status a = "confirmed") l))%nat.
Proof.
  induction l as [|a l IH]; [simpl; lia|].
  rewrite !filter_cons.
  destruct (decide (submitted_today today a = true)) as [Ht|Ht].
  - unfold submitted_today in Ht.
    apply andb_true_iff in Ht as [Ht _]. apply andb_true_iff in Ht as [Ht _].
    apply orb_true_iff in Ht as [Ht|Ht]; apply String.eqb_eq in Ht;
      repeat case_decide; cbn [length]; try lia; congruence.
  - repeat case_decide; cbn [length]; lia.
Qed.

(** X26: in the statistics of a queue the six status counts never add
    up to more than the total (a record is counted under at most one
    status), the number submitted today is at most the submitted and
    confirmed records together, the queued count is the number of records
    [get_pending] returns without a limit, and a status change by
    [update_status] leaves the total as it is. *)
Theorem get_stats_counts_are_consistent
    (env : Env) (today : string) (q : ApplicationQueue)
    (app_id new_status : string) (kwargs : list override) :
  let s := get_stats today q in
  (st_queued s + st_filling s + st_ready_for_review s + st_submitted s
   + st_confirmed s + st_errors s <= st_total s)%nat /\
  (st_today_submitted s <= st_submitted s + st_confirmed s)%nat /\
  st_queued s = length (get_pending q None) /\
  st_total (get_stats today (snd (update_status env q app_id new_status kwargs)))
  = st_total s.
Proof.
  cbv zeta. unfold get_stats. cbn [st_total st_queued st_filling st_ready_for_review
                                    st_submitted st_confirmed st_errors st_today_submitted].
  split; [apply status_counts_le|]. split; [apply today_count_le|]. split.
  - unfold get_pending. symmetry. apply Permutation_length, PyListFacts.sorted_desc_perm.
  - unfold update_status.
    destruct (update_first env (clock q) app_id new_status kwargs (queue q))
      as [apps|] eqn:E; [|reflexivity].
    destruct (update_first_some _ _ _ _ _ _ _ E) as (pre & app & post & -> & _ & _ & ->).
    cbn [snd save queue]. rewrite !length_app. reflexivity.
Qed.

End ApplyEngineFacts.

(** ** scoring_engine.py *)

Module ScoringEngineFacts.
Import PyStr ScoringEngine.

Lemma lower_app (a b : string) : lower (a +:+ b) = lower a +:+ lower b.
Proof. induction a as [|c a IH]; simpl; [reflexivity|]. rewrite IH. reflexivity. Qed.

(** *** The keyword dimension *)

Lemma keyword_pass_sums (text : string) (w : table) (acc : Z * Z) :
  keyword_pass text w acc = (fst acc + matched text w, snd acc + weight_sum w).
Proof.
  unfold keyword_pass. revert acc.
  induction w as [|kv rest IH]; intros [s m]; simpl.
  - f_equal; lia.
  - rewrite IH. simpl. destruct (contains (lower (fst kv)) text); f_equal; lia.
Qed.

Lemma matched_nonneg (text : string) (w : table) :
  nonneg_weights w -> 0 <= matched text w.
Proof.
  induction 1 as [|kv rest Hkv _ IH]; simpl; [lia|].
  destruct (contains (lower (fst kv)) text); lia.
Qed.

(** With non-negative weights, a text in which more phrases occur
    collects at least as much. *)
Lemma matched_mono (small big : string) (w : table) :
  nonneg_weights w ->
  (forall k, contains k small = true -> contains k big = true) ->
  matched small w <= matched big w.
Proof.
  intros Hw Hsub. induction Hw as [|kv rest Hkv _ IH]; simpl; [lia|].
  destruct (contains (lower (fst kv)) small) eqn:E.
  - rewrite (Hsub _ E). lia.
  - destruct (contains (lower (fst kv)) big); lia.
Qed.

Lemma builtin_weights_nonneg :
  nonneg_weights high_value /\ nonneg_weights medium_value /\ nonneg_weights low_value.
Proof.
  repeat split; unfold nonneg_weights; repeat constructor; simpl; lia.
Qed.

Lemma score_keywords_builtin (e : ScoringEngine) (job : Job) :
  keyword_weights e = RESUME_KEYWORDS ->
  _score_keywords e job =
  Z.min 30 (Z.quot (matched_builtin (lower (title job +:+ " " +:+ description job)) * 30) 117).
Proof.
  intros Hk. unfold _score_keywords. rewrite Hk.
  fold high_value medium_value low_value.
  rewrite !keyword_pass_sums. cbn [fst snd].
  replace (0 + weight_sum high_value + weight_sum medium_value + weight_sum low_value)
    with 117 by (vm_compute; reflexivity).
  simpl (117 =? 0). cbv iota. unfold matched_builtin. reflexivity.
Qed.

Lemma matched_builtin_mono (small big : string) :
  (forall k, contains k small = true -> contains k big = true) ->
  0 <= matched_builtin small <= matched_builtin big.
Proof.
  intros Hsub. destruct builtin_weights_nonneg as (Hh & Hm & Hl).
  unfold matched_builtin.
  pose proof (matched_nonneg small _ Hh). pose proof (matched_nonneg small _ Hm).
  pose proof (matched_nonneg small _ Hl).
  pose proof (matched_mono small big _ Hh Hsub).
  pose proof (matched_mono small big _ Hm Hsub).
  pose proof (matched_mono small big _ Hl Hsub). lia.
Qed.

(** *** Bounds on the other dimensions *)

Lemma first_tier_in (text : string) (tiers : list (string * Tier)) (t : Tier) :
  first_tier text tiers = Some t -> In t (map snd tiers).
Proof.
  induction tiers as [|[n t'] rest IH]; simpl; [discriminate|].
  destruct (existsb _ (names t')).
  - intros [= <-]. left; reflexivity.
  - intros H. right. apply IH, H.
Qed.

Lemma score_company_builtin (e : ScoringEngine) (job : Job) :
  company_tiers e = COMPANY_TIERS -> 3 <= _score_company e job <= 10.
Proof.
  intros Hc. unfold _score_company. rewrite Hc.
  destruct (first_tier _ COMPANY_TIERS) as [t|] eqn:E; [|lia].
  apply first_tier_in in E. simpl in E.
  destruct E as [<-|[<-|[<-|[]]]]; simpl; lia.
Qed.

Lemma score_freshness_range (days_old : string -> option Z) (job : Job) :
  2 <= _score_freshness days_old job <= 10.
Proof.
  unfold _score_freshness.
  destruct (negb (truthy (posted_date job))); [lia|].
  destruct (days_old _) as [d|]; [|lia].
  destruct (d <=? 1); [lia|]. destruct (d <=? 3); [lia|].
  destruct (d <=? 7); [lia|]. destruct (d <=? 14); lia.
Qed.

Lemma apply_adaptive_range (e : ScoringEngine) (job : Job) :
  -10 <= _apply_adaptive e job <= 10.
Proof. unfold _apply_adaptive. lia. Qed.

(** *** The total *)

Lemma total_in_range (e : ScoringEngine) (days_old : string -> option Z) (job : Job) :
  0 <= total (score e days_old job) <= 100.
Proof. unfold score. simpl. lia. Qed.

Lemma bonuses_gap (e : ScoringEngine) (desc comp salary posted : string) :
  salary <> "" ->
  bonuses_of e (senior_remote desc comp salary posted) =
  bonuses_of e (plain_chicago desc comp posted) + 5 /\
  0 <= bonuses_of e (plain_chicago desc comp posted) <= 5.
Proof.
  intros Hs. unfold bonuses_of, senior_remote, plain_chicago. simpl.
  assert (Ht : truthy salary = true) by (destruct salary; [congruence|reflexivity]).
  rewrite Ht.
  destruct (config e) as [c|]; [|simpl; lia].
  destruct (existsb _ (get_watchlist c)); simpl; lia.
Qed.

(** C4: the total is an integer between 0 and 100 for every engine, clock
    and job; and with the built-in tables (any learned weights, any
    watchlist, any strategy) the listing titled "Senior Product Manager",
    located "Remote", with easy apply and a salary range scores strictly
    higher than the otherwise identical listing titled "Product Manager",
    located "Chicago, IL", without easy apply and without salary range. *)
Theorem score_range_and_senior_remote_advantage :
  (forall (e : ScoringEngine) (days_old : string -> option Z) (job : Job),
     0 <= total (score e days_old job) <= 100) /\
  (forall (e : ScoringEngine) (days_old : string -> option Z)
          (desc comp salary posted : string),
     built_in_tables e ->
     salary <> "" ->
     total (score e days_old (plain_chicago desc comp posted)) <
     total (score e days_old (senior_remote desc comp salary posted))).
Proof.
  split; [exact total_in_range|].
  intros e days_old desc comp salary posted (Hk & Hs & Hc & Hl) Hsal.
  set (A := senior_remote desc comp salary posted).
  set (B := plain_chicago desc comp posted).
  (* keywords: the longer title only adds text in front *)
  assert (Hkw : 0 <= _score_keywords e B <= _score_keywords e A /\
                _score_keywords e A <= 30).
  { rewrite !(score_keywords_builtin e _ Hk).
    assert (Htext : lower (title A +:+ " " +:+ description A) =
                    "senior " +:+ lower (title B +:+ " " +:+ description B)).
    { unfold A, B, senior_remote, plain_chicago. simpl title. simpl description.
      rewrite !lower_app. reflexivity. }
    rewrite Htext.
    set (tb := lower (title B +:+ " " +:+ description B)).
    destruct (matched_builtin_mono tb ("senior " +:+ tb)) as [H0 H1].
    { intros k Hin. apply PyStrFacts.contains_prepend, Hin. }
    assert (Hq : 0 <= Z.quot (matched_builtin tb * 30) 117
                 <= Z.quot (matched_builtin ("senior " +:+ tb) * 30) 117).
    { split; [apply Z.quot_pos; lia|apply Z.quot_le_mono; lia]. }
    lia. }
  assert (Hti : _score_title A = 20 /\ _score_title B = 20)
    by (split; vm_compute; reflexivity).
  assert (Hse : _score_seniority e A = 15 /\ _score_seniority e B = 8).
  { unfold _score_seniority. rewrite Hs. split; vm_compute; reflexivity. }
  assert (Hlo : _score_location e A = 12 /\ _score_location e B = 0).
  { unfold _score_location. rewrite Hl. split; vm_compute; reflexivity. }
  assert (Hco : _score_company e A = _score_company e B) by reflexivity.
  pose proof (score_company_builtin e B Hc) as Hcb.
  assert (Hfr : _score_freshness days_old A = _score_freshness days_old B) by reflexivity.
  pose proof (score_freshness_range days_old B) as Hfb.
  destruct (bonuses_gap e desc comp salary posted Hsal) as [Hbo Hbb].
  fold A B in Hbo, Hbb.
  pose proof (apply_adaptive_range e A) as Haa.
  pose proof (apply_adaptive_range e B) as Hab.
  unfold score, sum_breakdown. cbn [total b_keywords b_title b_seniority b_location
    b_company b_freshness b_bonuses b_adaptive].
  destruct Hti as [-> ->]. destruct Hse as [-> ->]. destruct Hlo as [-> ->].
  rewrite Hco, Hfr, Hbo. lia.
Qed.

Lemma score_range_and_senior_remote_advantage_witness :
  total (score (init None None) no_clock (plain_chicago "Own the roadmap." "Acme" "")) <
  total (score (init None None) no_clock
           (senior_remote "Own the roadmap." "Acme" "$150k-$180k" "")).
Proof.
  apply score_range_and_senior_remote_advantage.
  - repeat split; reflexivity.
  - discriminate.
Defined.

(** *** The caps of the dimensions *)

Lemma best_points_nonneg (text : string) (phrases : table) : 0 <= best_points text phrases.
Proof.
  unfold best_points.
  assert (H : forall acc, 0 <= acc ->
            0 <= fold_left (fun score rp =>
                   if contains (fst rp) text then Z.max score (snd rp) else score)
                 phrases acc).
  { induction phrases as [|p ps IH]; intros acc Hacc; simpl; [exact Hacc|].
    apply IH. destruct (contains (fst p) text); lia. }
  apply H. lia.
Qed.

(** X9: for every engine, whatever its configured tables and learned
    weights, each dimension of the breakdown stays inside its cap: title
    in [0,20], seniority in [0,15], location in [0,15], freshness in
    [2,10], bonuses in [0,10], adaptive in [-10,10], keywords at most 30
    and company at most 10. *)
Theorem breakdown_within_caps
    (e : ScoringEngine) (days_old : string -> option Z) (job : Job) :
  let b := breakdown (score e days_old job) in
  b_keywords b <= 30 /\
  0 <= b_title b <= 20 /\
  0 <= b_seniority b <= 15 /\
  0 <= b_location b <= 15 /\
  b_company b <= 10 /\
  2 <= b_freshness b <= 10 /\
  0 <= b_bonuses b <= 10 /\
  -10 <= b_adaptive b <= 10.
Proof.
  cbv zeta. unfold score. cbn [breakdown b_keywords b_title b_seniority b_location
    b_company b_freshness b_bonuses b_adaptive].
  split.
  { unfold _score_keywords.
    destruct (keyword_pass _ _ _) as [sc mx]. destruct (mx =? 0); lia. }
  split.
  { unfold _score_title. pose proof (best_points_nonneg (lower (title job)) target_roles). lia. }
  split; [unfold _score_seniority; lia|].
  split.
  { unfold _score_location.
    pose proof (best_points_nonneg (lower (location job)) (preferred_locations e)). lia. }
  split.
  { unfold _score_company. destruct (first_tier _ _); lia. }
  split; [apply score_freshness_range|].
  split; [|apply apply_adaptive_range].
  unfold bonuses_of.
  destruct (easy_apply job); destruct (truthy (salary_range job));
    destruct (config e) as [c|]; try lia;
    destruct (existsb _ (get_watchlist c)); lia.
Qed.

(** *** Thresholds and application types *)

(** X10: the application type is one of full-prep, quick-apply and skip;
    a score that meets the strategy's threshold is never skipped;
    full-prep needs at least 80; under every strategy but "targeted"
    a job is skipped exactly when it misses the threshold, and under
    "targeted" it meets the threshold exactly when it is full-prep. *)
Theorem apply_type_agrees_with_threshold (e : ScoringEngine) (sc : Z) :
  (_get_apply_type e sc = "full-prep" \/ _get_apply_type e sc = "quick-apply" \/
   _get_apply_type e sc = "skip") /\
  (_meets_threshold e sc = true -> _get_apply_type e sc <> "skip") /\
  (_get_apply_type e sc = "full-prep" -> 80 <= sc) /\
  (strategy e <> "targeted" ->
   (_get_apply_type e sc = "skip" <-> _meets_threshold e sc = false)) /\
  (strategy e = "targeted" ->
   (_meets_threshold e sc = true <-> _get_apply_type e sc = "full-prep")).
Proof.
  unfold _get_apply_type, _meets_threshold, lookup_key. cbn [List.find fst snd].
  rewrite (String.eqb_sym "wide-net"), (String.eqb_sym "balanced"),
    (String.eqb_sym "targeted").
  destruct (String.eqb_spec (strategy e) "targeted") as [Ht|Ht].
  - rewrite Ht. cbn.
    destruct (Z.leb_spec 85 sc); destruct (Z.leb_spec 50 sc); try lia;
      repeat split; auto; try discriminate; try lia; try congruence.
  - destruct (String.eqb_spec (strategy e) "wide-net") as [Hw|Hw].
    + cbn. destruct (Z.leb_spec 80 sc); destruct (Z.leb_spec 50 sc); try lia;
        repeat split; auto; try discriminate; try lia; try congruence.
    + destruct (String.eqb_spec (strategy e) "balanced") as [Hb|Hb]; cbn;
        destruct (Z.leb_spec 80 sc); destruct (Z.leb_spec 60 sc); try lia;
        repeat split; auto; try discriminate; try lia; try congruence.
Qed.

(** *** Learning from outcomes *)

Lemma lookup_key_dict_set (k : string) (v : Z) (d : table) :
  lookup_key k (dict_set k v d) = Some v.
Proof.
  unfold lookup_key. induction d as [|[k' v'] rest IH]; simpl.
  - rewrite String.eqb_refl. reflexivity.
  - destruct (String.eqb k' k) eqn:E; simpl; rewrite E; [reflexivity|exact IH].
Qed.

Lemma lookup_key_dict_set_ne (k k0 : string) (v : Z) (d : table) :
  k <> k0 -> lookup_key k0 (dict_set k v d) = lookup_key k0 d.
Proof.
  intros Hne. unfold lookup_key. induction d as [|[k' v'] rest IH]; simpl.
  - rewrite (proj2 (String.eqb_neq k k0) Hne). reflexivity.
  - destruct (String.eqb k' k) eqn:E; simpl.
    + apply String.eqb_eq in E. subst k'.
      rewrite (proj2 (String.eqb_neq k k0) Hne). reflexivity.
    + destruct (String.eqb k' k0); [reflexivity|exact IH].
Qed.

Lemma dict_set_small (k : string) (v : Z) (d : table) :
  -5 <= v <= 5 -> boosts_small d -> boosts_small (dict_set k v d).
Proof.
  intros Hv. unfold boosts_small. induction 1 as [|[k' v'] rest Hkv Hrest IH]; simpl.
  - repeat constructor; simpl; lia.
  - destruct (String.eqb k' k); constructor; simpl; auto.
Qed.

Lemma nudge_small (boost : Z) (d : table) (key : string) :
  boosts_small d -> boosts_small (nudge boost d key).
Proof. intros H. unfold nudge. apply dict_set_small; [lia|exact H]. Qed.

Lemma nudge_small_at (boost : Z) (d : table) (key k0 : string) :
  (k0 = key \/ boost_small_at d k0) -> boost_small_at (nudge boost d key) k0.
Proof.
  unfold nudge, boost_small_at. intros H.
  destruct (string_dec key k0) as [<-|Hne].
  - eexists. split; [apply lookup_key_dict_set|lia].
  - destruct H as [->|(v & Hv & Hr)]; [congruence|].
    exists v. split; [|exact Hr]. rewrite lookup_key_dict_set_ne by exact Hne. exact Hv.
Qed.

Lemma nudge_words_small (boost : Z) (ws : list string) :
  forall d,
    let d' := fold_left
                (fun acc word => if 3 <? len word then nudge boost acc (strip word) else acc)
                ws d in
    (boosts_small d -> boosts_small d') /\
    (forall k, boost_small_at d k -> boost_small_at d' k) /\
    (forall w, In w ws -> 3 < len w -> boost_small_at d' (strip w)).
Proof.
  induction ws as [|w ws IH]; intros d; simpl.
  - split; [auto|]. split; [auto|]. intros w [].
  - destruct (IH (if 3 <? len w then nudge boost d (strip w) else d))
      as (H1 & H2 & H3).
    split; [|split].
    + intros Hd. apply H1. destruct (3 <? len w); [apply nudge_small, Hd|exact Hd].
    + intros k Hk. apply H2. destruct (3 <? len w); [|exact Hk].
      apply nudge_small_at. right. exact Hk.
    + intros w' [<-|Hin] Hlen; [|apply H3; assumption].
      apply H2. destruct (Z.ltb_spec 3 (len w)); [|lia].
      apply nudge_small_at. left. reflexivity.
Qed.

(** X11: an outcome other than interview, offer, rejected or ghosted
    teaches nothing: engine and weights file stay as they are.  Otherwise
    the file receives the new weights; afterwards every title word longer
    than three characters and the (non-empty) company have a boost
    between -5 and 5; and if all stored boosts were between -5 and 5
    before, they all are afterwards. *)
Theorem learn_from_outcome_keeps_boosts_small
    (e : ScoringEngine) (file : option AdaptiveWeights) (job : Job) (outcome : string) :
  let r := learn_from_outcome e file job outcome in
  let aw := adaptive_weights (fst r) in
  (outcome_boost outcome = 0 -> r = (e, file)) /\
  (outcome_boost outcome <> 0 ->
   snd r = Some aw /\
   (forall w, In w (split_ws (lower (title job))) -> 3 < len w ->
              boost_small_at (title_boosts aw) (strip w)) /\
   (company job <> "" -> boost_small_at (company_boosts aw) (lower (company job)))) /\
  (boosts_small (title_boosts (adaptive_weights e)) ->
   boosts_small (company_boosts (adaptive_weights e)) ->
   boosts_small (title_boosts aw) /\ boosts_small (company_boosts aw)).
Proof.
  cbv zeta. unfold learn_from_outcome.
  destruct (Z.eqb_spec (outcome_boost outcome) 0) as [H0|H0].
  - split; [reflexivity|]. split; [contradiction|]. simpl. auto.
  - split; [contradiction|]. cbn [fst snd adaptive_weights set_adaptive_weights
      title_boosts company_boosts].
    destruct (nudge_words_small (outcome_boost outcome) (split_ws (lower (title job)))
                (title_boosts (adaptive_weights e))) as (H1 & H2 & H3).
    split.
    + intros _. split; [reflexivity|]. split; [exact H3|].
      intros Hc.
      assert (Ht : truthy (lower (company job)) = true)
        by (destruct (company job); [congruence|reflexivity]).
      rewrite Ht. apply nudge_small_at. left. reflexivity.
    + intros Ht Hc. split; [apply H1, Ht|].
      destruct (truthy (lower (company job))); [apply nudge_small, Hc|exact Hc].
Qed.

Lemma learn_from_outcome_keeps_boosts_small_witness :
  learn_from_outcome sample_engine None sample_listing "withdrawn" = (sample_engine, None).
Proof.
  apply (learn_from_outcome_keeps_boosts_small sample_engine None sample_listing "withdrawn").
  reflexivity.
Defined.

(** *** Batch scoring *)

(** X12: [batch_score] returns the given jobs, each once and each with
    its own score data, ordered by match from the highest down, and every
    match lies between 0 and 100. *)
Theorem batch_score_sorts_all_jobs
    (e : ScoringEngine) (days_old : string -> option Z) (jobs : list Job) :
  Permutation (batch_score e days_old jobs) (map (annotate e days_old) jobs) /\
  Permutation (map sj_job (batch_score e days_old jobs)) jobs /\
  PyList.descending sj_match (batch_score e days_old jobs) /\
  Forall (fun sj => 0 <= sj_match sj <= 100 /\
                    sj_match sj = total (score e days_old (sj_job sj)))
         (batch_score e days_old jobs).
Proof.
  unfold batch_score.
  pose proof (PyListFacts.sorted_desc_perm sj_match (map (annotate e days_old) jobs)) as Hp.
  split; [exact Hp|]. split.
  { rewrite Hp. rewrite map_map. simpl. rewrite map_id. reflexivity. }
  split; [apply PyListFacts.sorted_desc_descending|].
  rewrite Hp. rewrite Forall_forall. intros sj Hin.
  apply list_elem_of_In, in_map_iff in Hin. destruct Hin as (job & <- & _).
  simpl. split; [apply total_in_range|reflexivity].
Qed.

(** X13: [score_jobs] thresholds with the strategy it is given (balanced
    when the caller names none): the strategy held by the configuration
    has no influence on its result, and every job it returns has the
    application type and the threshold flag that the given strategy
    assigns to its match. *)
Theorem score_jobs_uses_the_given_strategy
    (file : option AdaptiveWeights) (days_old : string -> option Z)
    (jobs : list Job) (c : ConfigManager) (configured : option string)
    (strategy_arg : string) :
  score_jobs file days_old jobs (Some (with_strategy configured c)) strategy_arg
  = score_jobs file days_old jobs (Some c) strategy_arg /\
  Forall (fun sj =>
            sj_apply_type sj =
              _get_apply_type (set_strategy strategy_arg sample_engine) (sj_match sj) /\
            sj_meets_threshold sj =
              _meets_threshold (set_strategy strategy_arg sample_engine) (sj_match sj))
         (score_jobs file days_old jobs (Some c) strategy_arg).
Proof.
  split; [reflexivity|].
  unfold score_jobs, batch_score.
  rewrite (PyListFacts.sorted_desc_perm sj_match). rewrite Forall_forall.
  intros sj Hin. apply list_elem_of_In, in_map_iff in Hin.
  destruct Hin as (job & <- & _). simpl. auto.
Qed.

End ScoringEngineFacts.

(** ** dedup_engine.py *)

Module DedupEngineFacts.
Import PyStr DedupEngine.

Lemma truthy_ne (s : string) : s <> "" -> truthy s = true.
Proof. destruct s; [congruence|reflexivity]. Qed.

Lemma truthy_true_ne (s : string) : truthy s = true -> s <> "".
Proof. destruct s; [discriminate|discriminate]. Qed.

(** Back-filling keeps the board of the base record and leaves no field
    empty that either record has. *)
Lemma backfill_fields (best job : Job) :
  board_source (backfill best job) = board_source best /\
  (description best <> "" \/ description job <> "" ->
   description (backfill best job) <> "") /\
  (salary_range best <> "" \/ salary_range job <> "" ->
   salary_range (backfill best job) <> "").
Proof.
  unfold backfill. simpl. split; [reflexivity|].
  split; intros H.
  - destruct (truthy (description best)) eqn:Eb; simpl.
    + apply truthy_true_ne, Eb.
    + destruct (truthy (description job)) eqn:Ej; [apply truthy_true_ne, Ej|].
      destruct H as [H|H]; apply truthy_ne in H; congruence.
  - destruct (truthy (salary_range best)) eqn:Eb; simpl.
    + apply truthy_true_ne, Eb.
    + destruct (truthy (salary_range job)) eqn:Ej; [apply truthy_true_ne, Ej|].
      destruct H as [H|H]; apply truthy_ne in H; congruence.
Qed.

(** What [deduplicate] returns for two postings that share a non-empty
    normalized URL: one record, built on the richer posting and
    back-filled from the other, whose [sources] is the one-element list
    of its own board. *)
Lemma same_url_pair (lib : Lib) (eng : DeduplicationEngine) (j1 j2 : Job) :
  normalize_url lib (url j1) = normalize_url lib (url j2) ->
  normalize_url lib (url j1) <> "" ->
  exists r,
    fst (deduplicate lib eng [j1; j2]) = [r] /\
    sources r = Some [board_source r] /\
    (board_source r = board_source j1 \/ board_source r = board_source j2) /\
    (description j1 <> "" -> salary_range j2 <> "" ->
     description r <> "" /\ salary_range r <> "").
Proof.
  intros Heq Hne.
  unfold deduplicate, split_by_url. simpl fold_left. rewrite <- Heq.
  rewrite (truthy_ne _ Hne). cbn [fst snd group_append].
  rewrite String.eqb_refl. cbn [app omap list_omap fst snd].
  unfold _merge_group, sort_by_richness. cbn [fold_right insert_by_richness].
  destruct (negb (Qle_bool (richness_score j2) (richness_score j1))).
  - (* the second posting is the richer one *)
    cbn [fold_left map app length cluster_from filter list_filter omap list_omap
         merge_cluster fst].
    eexists. split; [reflexivity|]. simpl sources. simpl board_source.
    destruct (backfill_fields
                (set_sources (list_set [board_source j1; board_source j2]) j2) j1)
      as (Hb & Hd & Hs).
    split; [reflexivity|]. split; [right; exact Hb|].
    intros H1 H2. simpl. split; [apply Hd; right; exact H1|apply Hs; left; exact H2].
  - cbn [fold_left map app length cluster_from filter list_filter omap list_omap
         merge_cluster fst].
    eexists. split; [reflexivity|]. simpl sources. simpl board_source.
    destruct (backfill_fields
                (set_sources (list_set [board_source j1; board_source j2]) j1) j2)
      as (Hb & Hd & Hs).
    split; [reflexivity|]. split; [left; exact Hb|].
    intros H1 H2. simpl. split; [apply Hd; left; exact H1|apply Hs; right; exact H2].
Qed.

(** *** The sample postings *)

Example sample_urls_normalize :
  normalize_url sample_lib (url indeed_posting) = "example.com/jobs/1" /\
  normalize_url sample_lib (url linkedin_posting) = "example.com/jobs/1".
Proof. split; vm_compute; reflexivity. Qed.

(** C7, at the failing input: the two postings of one URL come back as a
    single record with description and salary range filled, but its
    [sources] names the board of the richer posting only; the cluster
    step overwrites the list that [_merge_group] had collected. *)
Theorem url_merge_loses_second_source :
  (exists r,
     fst (deduplicate sample_lib default_engine [indeed_posting; linkedin_posting]) = [r] /\
     description r = "Own the roadmap for the data platform." /\
     salary_range r = "$150k-$180k" /\
     sources r = Some ["linkedin"]) /\
  (exists merged,
     _merge_group [indeed_posting; linkedin_posting] = Some merged /\
     sources merged = Some ["indeed"; "linkedin"]) /\
  ~ merged_with_both_sources indeed_posting linkedin_posting
      (fst (deduplicate sample_lib default_engine [indeed_posting; linkedin_posting])).
Proof.
  assert (Hrun : exists r,
     fst (deduplicate sample_lib default_engine [indeed_posting; linkedin_posting]) = [r] /\
     description r = "Own the roadmap for the data platform." /\
     salary_range r = "$150k-$180k" /\
     sources r = Some ["linkedin"]).
  { eexists. split; [vm_compute; reflexivity|]. repeat split. }
  split; [exact Hrun|]. split.
  { eexists. split; [vm_compute; reflexivity|]. reflexivity. }
  intros (r & Hr & _ & _ & srcs & Hs & Hin1 & _).
  destruct Hrun as (r' & Hr' & _ & _ & Hs').
  rewrite Hr in Hr'. injection Hr' as <-.
  rewrite Hs in Hs'. injection Hs' as ->.
  simpl in Hin1. destruct Hin1 as [H|[]]. discriminate H.
Qed.

(** *** Sizes *)

Lemma omap_length_le {A B} (f : A -> option B) (l : list A) :
  (length (omap f l) <= length l)%nat.
Proof.
  induction l as [|x l IH]; [reflexivity|].
  cbn [omap list_omap]. fold (omap f l).
  destruct (f x); cbn [length]; lia.
Qed.

Lemma group_append_length (key : string) (job : Job) (groups : list (string * list Job)) :
  (length (group_append key job groups) <= S (length groups))%nat.
Proof.
  induction groups as [|[k g] rest IH]; simpl; [lia|].
  destruct (String.eqb k key); simpl; lia.
Qed.

Lemma split_by_url_length (lib : Lib) (jobs : list Job) :
  (length (fst (split_by_url lib jobs)) + length (snd (split_by_url lib jobs))
   <= length jobs)%nat.
Proof.
  unfold split_by_url.
  assert (H : forall acc : list (string * list Job) * list Job,
            (length (fst (fold_left
               (fun acc job =>
                  let norm_url := normalize_url lib (url job) in
                  if truthy norm_url
                  then (group_append norm_url job (fst acc), snd acc)
                  else (fst acc, (snd acc ++ [job])%list)) jobs acc))
             + length (snd (fold_left
               (fun acc job =>
                  let norm_url := normalize_url lib (url job) in
                  if truthy norm_url
                  then (group_append norm_url job (fst acc), snd acc)
                  else (fst acc, (snd acc ++ [job])%list)) jobs acc))
             <= length (fst acc) + length (snd acc) + length jobs)%nat).
  { induction jobs as [|j jobs IH]; intros acc; simpl; [lia|].
    etransitivity; [apply IH|]. cbv zeta.
    destruct (truthy (normalize_url lib (url j))); simpl.
    - pose proof (group_append_length (normalize_url lib (url j)) j (fst acc)). lia.
    - rewrite length_app. simpl. lia. }
  specialize (H ([], [])). simpl in H. exact H.
Qed.

Lemma cluster_from_length (lib : Lib) (eng : DeduplicationEngine) (fuel : nat)
      (cands : list Job) :
  (length (cluster_from lib eng fuel cands) <= length cands)%nat.
Proof.
  revert cands. induction fuel as [|fuel IH]; intros cands; simpl; [lia|].
  destruct cands as [|a rest]; simpl; [lia|].
  specialize (IH (filter (fun b => same_posting lib eng a b <> true) rest)).
  pose proof (length_filter (fun b => same_posting lib eng a b <> true) rest). lia.
Qed.

(** *** Sources *)

Lemma backfill_keeps (best job : Job) :
  sources (backfill best job) = sources best /\
  title (backfill best job) = title best /\
  company (backfill best job) = company best /\
  url (backfill best job) = url best /\
  board_source (backfill best job) = board_source best /\
  (description best <> "" -> description (backfill best job) = description best) /\
  (salary_range best <> "" -> salary_range (backfill best job) = salary_range best).
Proof.
  unfold backfill. simpl. repeat split.
  - intros H. rewrite (truthy_ne _ H). reflexivity.
  - intros H. rewrite (truthy_ne _ H). reflexivity.
Qed.

Lemma fold_backfill_keeps (others : list Job) (best : Job) :
  sources (fold_left backfill others best) = sources best /\
  title (fold_left backfill others best) = title best /\
  company (fold_left backfill others best) = company best /\
  url (fold_left backfill others best) = url best /\
  board_source (fold_left backfill others best) = board_source best /\
  (description best <> "" ->
   description (fold_left backfill others best) = description best) /\
  (salary_range best <> "" ->
   salary_range (fold_left backfill others best) = salary_range best).
Proof.
  revert best. induction others as [|j others IH]; intros best; simpl.
  - repeat split; reflexivity.
  - destruct (IH (backfill best j)) as (I1 & I2 & I3 & I4 & I5 & I6 & I7).
    destruct (backfill_keeps best j) as (B1 & B2 & B3 & B4 & B5 & B6 & B7).
    repeat split; try congruence.
    + intros H. rewrite I6; [apply B6, H|]. rewrite B6; assumption.
    + intros H. rewrite I7; [apply B7, H|]. rewrite B7; assumption.
Qed.

Lemma list_set_nonempty (x : string) (l : list string) : list_set (x :: l) <> [].
Proof.
  intros H. assert (Hin : x ∈ list_set (x :: l)).
  { unfold list_set. apply elem_of_remove_dups. left. }
  rewrite H in Hin. inversion Hin.
Qed.

(** *** The richness order *)

Lemma insert_by_richness_perm (x : Job) (l : list Job) :
  Permutation (insert_by_richness x l) (x :: l).
Proof.
  induction l as [|y l IH]; simpl; [reflexivity|].
  destruct (negb (Qle_bool (richness_score y) (richness_score x))); [|reflexivity].
  rewrite IH. apply perm_swap.
Qed.

Lemma sort_by_richness_perm (l : list Job) : Permutation (sort_by_richness l) l.
Proof.
  induction l as [|x l IH]; simpl; [reflexivity|].
  rewrite insert_by_richness_perm. constructor. exact IH.
Qed.

Lemma insert_by_richness_sorted (x : Job) (l : list Job) :
  richest_first l -> richest_first (insert_by_richness x l).
Proof.
  unfold richest_first. induction 1 as [|y l Hs IH Hy]; simpl.
  - repeat constructor.
  - destruct (Qle_bool (richness_score y) (richness_score x)) eqn:E; simpl.
    + apply Qle_bool_iff in E.
      constructor; [constructor; assumption|].
      constructor; [exact E|].
      eapply Forall_impl; [exact Hy|]. intros z Hz. simpl in Hz.
      eapply Qle_trans; eassumption.
    + assert (Hlt : (richness_score x < richness_score y)%Q).
      { apply Qnot_le_lt. intros H. apply Qle_bool_iff in H. congruence. }
      constructor; [exact IH|].
      rewrite (Forall_forall (fun b => (richness_score b <= richness_score y)%Q)).
      intros z Hz. rewrite insert_by_richness_perm in Hz.
      apply elem_of_cons in Hz as [->|Hz]; [apply Qlt_le_weak, Hlt|].
      rewrite Forall_forall in Hy. apply Hy, Hz.
Qed.

Lemma sort_by_richness_sorted (l : list Job) : richest_first (sort_by_richness l).
Proof.
  induction l as [|x l IH]; simpl; [constructor|].
  apply insert_by_richness_sorted, IH.
Qed.

Lemma sorted_head_richest (group : list Job) (first : Job) (others : list Job) :
  sort_by_richness group = first :: others -> richest_in group first.
Proof.
  intros Hs. pose proof (sort_by_richness_perm group) as Hp.
  pose proof (sort_by_richness_sorted group) as Hsorted.
  rewrite Hs in Hp, Hsorted. split.
  - apply (Permutation_in _ Hp). left. reflexivity.
  - intros j Hj. apply (Permutation_in _ (Permutation_sym Hp)) in Hj.
    destruct Hj as [<-|Hj]; [apply Qle_refl|].
    inversion Hsorted as [|? ? _ Hall]; subst.
    rewrite Forall_forall in Hall. apply Hall, list_elem_of_In, Hj.
Qed.

Lemma merge_group_many (group : list Job) (first : Job) (others : list Job) :
  (2 <= length group)%nat ->
  sort_by_richness group = first :: others ->
  _merge_group group =
  Some (set_all_urls
          (list_set (map url (filter (fun j => truthy (url j) = true) group)))
          (fold_left backfill others
             (set_sources (list_set (map board_source group)) first))).
Proof.
  intros Hlen Hs. unfold _merge_group.
  destruct group as [|j1 [|j2 rest]]; [simpl in Hlen; lia|simpl in Hlen; lia|].
  rewrite Hs. reflexivity.
Qed.

Lemma merge_group_some (group : list Job) :
  group <> [] -> is_Some (_merge_group group).
Proof.
  intros Hne. unfold _merge_group.
  destruct group as [|j1 [|j2 rest]]; [congruence|eexists; reflexivity|].
  destruct (sort_by_richness (j1 :: j2 :: rest)) as [|f o] eqn:Hs; [|eexists; reflexivity].
  pose proof (sort_by_richness_perm (j1 :: j2 :: rest)) as Hp.
  rewrite Hs in Hp. apply Permutation_nil_l in Hp. discriminate Hp.
Qed.

(** What [_merge_group] makes of a group of two or more postings. *)
Lemma merge_group_on_richest (group : list Job) (merged : Job) :
  (2 <= length group)%nat ->
  _merge_group group = Some merged ->
  exists base,
    richest_in group base /\
    title merged = title base /\ company merged = company base /\
    url merged = url base /\ board_source merged = board_source base /\
    (description base <> "" -> description merged = description base) /\
    (salary_range base <> "" -> salary_range merged = salary_range base) /\
    exists srcs, sources merged = Some srcs /\
                 forall j, In j group -> In (board_source j) srcs.
Proof.
  intros Hlen Hm.
  destruct (sort_by_richness group) as [|first others] eqn:Hs.
  { pose proof (sort_by_richness_perm group) as Hp. rewrite Hs in Hp.
    apply Permutation_nil_l in Hp. subst group. simpl in Hlen. lia. }
  rewrite (merge_group_many group first others Hlen Hs) in Hm.
  apply (inj Some) in Hm. subst merged.
  exists first. split; [eapply sorted_head_richest, Hs|].
  remember (list_set (map board_source group)) as srcs0 eqn:Hsrcs.
  destruct (fold_backfill_keeps others (set_sources srcs0 first))
    as (F1 & F2 & F3 & F4 & F5 & F6 & F7).
  cbn [sources title company url board_source description salary_range
       set_sources] in F1, F2, F3, F4, F5, F6, F7.
  split; [exact F2|]. split; [exact F3|]. split; [exact F4|]. split; [exact F5|].
  split; [exact F6|]. split; [exact F7|].
  exists srcs0. split; [exact F1|].
  intros j Hj. apply list_elem_of_In. rewrite Hsrcs. unfold list_set.
  apply elem_of_remove_dups. apply list_elem_of_In, in_map, Hj.
Qed.

(** X16: merging a group of two or more postings keeps the richest one:
    the merged record has the title, company, URL and board of a member
    that no member is richer than, keeps that member's description and
    salary range when it has them, and lists the board of every member
    among its sources. *)
Theorem merge_group_keeps_the_richest (group : list Job) (merged : Job) :
  (2 <= length group)%nat ->
  _merge_group group = Some merged ->
  exists base,
    richest_in group base /\
    title merged = title base /\ company merged = company base /\
    url merged = url base /\ board_source merged = board_source base /\
    (description base <> "" -> description merged = description base) /\
    (salary_range base <> "" -> salary_range merged = salary_range base) /\
    exists srcs, sources merged = Some srcs /\
                 forall j, In j group -> In (board_source j) srcs.
Proof. exact (merge_group_on_richest group merged). Qed.

Lemma merge_group_keeps_the_richest_witness :
  exists merged base,
    _merge_group [indeed_posting; linkedin_posting] = Some merged /\
    richest_in [indeed_posting; linkedin_posting] base /\
    board_source merged = board_source base.
Proof.
  destruct (_merge_group [indeed_posting; linkedin_posting]) as [merged|] eqn:E.
  - destruct (merge_group_keeps_the_richest [indeed_posting; linkedin_posting] merged)
      as (base & Hr & _ & _ & _ & Hb & _).
    + simpl. lia.
    + exact E.
    + exists merged, base. split; [reflexivity|]. split; [exact Hr|exact Hb].
  - vm_compute in E. discriminate E.
Defined.

Lemma merge_group_sources (group : list Job) (merged : Job) :
  _merge_group group = Some merged -> has_sources merged.
Proof.
  intros Hm. unfold has_sources.
  destruct group as [|j1 [|j2 rest]]; [discriminate| |].
  - injection Hm as <-. eexists. split; [reflexivity|discriminate].
  - destruct (sort_by_richness (j1 :: j2 :: rest)) as [|first others] eqn:Hs.
    { unfold _merge_group in Hm. rewrite Hs in Hm. discriminate. }
    rewrite (merge_group_many (j1 :: j2 :: rest) first others ltac:(simpl; lia) Hs) in Hm.
    apply (inj Some) in Hm. subst merged.
    remember (list_set (map board_source (j1 :: j2 :: rest))) as srcs0 eqn:Hsrcs.
    destruct (fold_backfill_keeps others (set_sources srcs0 first)) as (F1 & _).
    cbn [sources set_sources] in F1.
    exists srcs0. split; [exact F1|].
    rewrite Hsrcs. apply list_set_nonempty.
Qed.

Lemma merge_cluster_sources (cluster : list Job) (merged : Job) :
  merge_cluster cluster = Some merged -> has_sources merged.
Proof.
  unfold merge_cluster. destruct cluster as [|j1 [|j2 rest]].
  - apply merge_group_sources.
  - intros [= <-]. eexists. split; [reflexivity|discriminate].
  - apply merge_group_sources.
Qed.

(** X14: [deduplicate] never returns more records than it was given, an
    empty input gives an empty result, every record it returns carries a
    non-empty [sources] list, and the statistics report the sizes of
    input and output. *)
Theorem deduplicate_shrinks_and_labels
    (lib : Lib) (eng : DeduplicationEngine) (jobs : list Job) :
  let r := deduplicate lib eng jobs in
  (length (fst r) <= length jobs)%nat /\
  fst (deduplicate lib eng []) = [] /\
  Forall has_sources (fst r) /\
  total_input (snd r) = length jobs /\
  unique_output (snd r) = length (fst r).
Proof.
  cbv zeta. unfold deduplicate.
  destruct jobs as [|j0 jobs']; [simpl; repeat split; constructor|].
  cbv iota. remember (j0 :: jobs') as jobs eqn:Hjobs.
  pose proof (split_by_url_length lib jobs) as Hsplit.
  destruct (split_by_url lib jobs) as [url_groups no_url]. cbn [fst snd] in Hsplit.
  cbn [fst snd total_input unique_output].
  set (cands := (omap (fun kg => _merge_group (snd kg)) url_groups ++ no_url)%list).
  split; [|split; [reflexivity|split; [|split; reflexivity]]].
  - etransitivity; [apply omap_length_le|].
    etransitivity; [apply cluster_from_length|].
    unfold cands. rewrite length_app.
    pose proof (omap_length_le (fun kg : string * list Job => _merge_group (snd kg))
                  url_groups). lia.
  - rewrite Forall_forall. intros r Hr.
    apply list_elem_of_omap in Hr. destruct Hr as (c & _ & Hc).
    eapply merge_cluster_sources, Hc.
Qed.

(** *** Postings that share a URL *)

Lemma split_by_url_one_group (lib : Lib) (u : string) (rest : list Job) :
  forall pre,
    truthy u = true ->
    Forall (fun j => normalize_url lib (url j) = u) rest ->
    fold_left
      (fun acc job =>
         let norm_url := normalize_url lib (url job) in
         if truthy norm_url
         then (group_append norm_url job (fst acc), snd acc)
         else (fst acc, (snd acc ++ [job])%list))
      rest ([(u, pre)], [])
    = ([(u, (pre ++ rest)%list)], []).
Proof.
  induction rest as [|j rest IH]; intros pre Hu Hall; simpl.
  - rewrite app_nil_r. reflexivity.
  - apply Forall_cons in Hall as [Hj Hrest]. rewrite Hj, Hu. simpl.
    rewrite String.eqb_refl. rewrite IH by assumption.
    rewrite <- app_assoc. reflexivity.
Qed.

(** X15: any number of postings whose URLs normalize to the same
    non-empty key come back as exactly one record; it is built on a
    richest posting of the group, and its [sources] is the one-element
    list of that posting's board. *)
Theorem shared_url_gives_one_record
    (lib : Lib) (eng : DeduplicationEngine) (u : string) (jobs : list Job) :
  u <> "" ->
  jobs <> [] ->
  Forall (fun j => normalize_url lib (url j) = u) jobs ->
  exists r base,
    fst (deduplicate lib eng jobs) = [r] /\
    richest_in jobs base /\
    title r = title base /\ url r = url base /\
    board_source r = board_source base /\
    sources r = Some [board_source base].
Proof.
  intros Hu Hne Hall. apply truthy_ne in Hu.
  destruct jobs as [|j0 rest]; [congruence|]. clear Hne.
  assert (Hsplit : split_by_url lib (j0 :: rest) = ([(u, j0 :: rest)], [])).
  { unfold split_by_url.
    apply Forall_cons in Hall as [H0 Hrest]. simpl. rewrite H0, Hu. simpl.
    apply (split_by_url_one_group lib u rest [j0] Hu Hrest). }
  unfold deduplicate. cbv iota.
  rewrite Hsplit. cbn [omap list_omap fst snd].
  destruct (_merge_group (j0 :: rest)) as [m|] eqn:Hm.
  - cbn [app length cluster_from filter list_filter omap list_omap merge_cluster fst].
    destruct rest as [|j1 rest'].
    + injection Hm as <-. exists (set_sources [board_source j0] (set_sources [board_source j0] j0)), j0.
      split; [reflexivity|]. split.
      * split; [left; reflexivity|]. intros j [<-|[]]. apply Qle_refl.
      * repeat split.
    + destruct (merge_group_on_richest (j0 :: j1 :: rest') m)
        as (base & Hr & Ht & _ & Hurl & Hb & _); [simpl; lia|exact Hm|].
      exists (set_sources [board_source m] m), base.
      split; [reflexivity|]. split; [exact Hr|]. simpl.
      rewrite Ht, Hurl, Hb. repeat split.
  - destruct (merge_group_some (j0 :: rest)) as [m Hm']; [discriminate|]. congruence.
Qed.

Lemma shared_url_gives_one_record_witness :
  exists r base,
    fst (deduplicate sample_lib default_engine [indeed_posting; linkedin_posting]) = [r] /\
    richest_in [indeed_posting; linkedin_posting] base /\
    title r = title base /\ url r = url base /\
    board_source r = board_source base /\
    sources r = Some [board_source base].
Proof.
  apply (shared_url_gives_one_record sample_lib default_engine "example.com/jobs/1").
  - discriminate.
  - discriminate.
  - repeat constructor.
Defined.

End DedupEngineFacts.
